(** * Typomancers client (game.js): session and phase reconciliation

    A shallow embedding of the browser client [game.js]: the address
    normalisation done by [connect], the join form, the inbound message
    handlers, the two countdowns that share [state.timerInterval], the
    one-shot typing submission and the typing feedback.

    JavaScript values are modelled as follows.
    - A string is a [string]; a character is one code unit, restricted
      to the range of [ascii] (code units 0..255).
    - A number that the program only adds, subtracts and compares
      (timestamps, durations in milliseconds) is a [Z].  The result
      of [parseInt], which can be any integer a text spells, is a
      [JS.Number]: the double nearest to that integer, an infinity,
      or NaN.
    - [null]/[undefined] are [None]; truthiness is written out where
      the program tests it ([!state.playerId], [parseInt(..) || 30]).
    - [Date.now()] is an argument [now] of every handler that reads it.
    - The browser's table of running intervals, the messages handed
      to [WebSocket.send], the continuations of the pending
      [await connect(..)] and the few DOM properties the handlers
      read back are fields of the record [World] next to the fields
      of the program's own [state] object.
    - What the browser decides is an argument of the handler: whether
      [new WebSocket(wsUrl)] accepts the address or throws, and which
      socket an event belongs to. *)

From Stdlib Require Import ZArith Lia Ascii String.
From stdpp Require Import base option list gmap strings.

Local Open Scope string_scope.
Local Open Scope Z_scope.
Local Open Scope list_scope.

(** ** JavaScript string primitives used by the program *)

Module JS.

(** [\s] of a regular expression and the characters removed by
    [String.prototype.trim]: WhiteSpace and LineTerminator.  Below 256
    these are TAB, LF, VT, FF, CR, SPACE and NO-BREAK SPACE. *)
Definition is_space (c : ascii) : bool :=
  let n := nat_of_ascii c in
  ((9 <=? n)%nat && (n <=? 13)%nat) || (n =? 32)%nat || (n =? 160)%nat.

Fixpoint trimStart (s : string) : string :=
  match s with
  | EmptyString => EmptyString
  | String c s' => if is_space c then trimStart s' else s
  end.

Fixpoint trimEnd (s : string) : string :=
  match s with
  | EmptyString => EmptyString
  | String c s' =>
      match trimEnd s' with
      | EmptyString => if is_space c then EmptyString else String c EmptyString
      | r => String c r
      end
  end.

(** [s.trim()] *)
Definition trim (s : string) : string := trimEnd (trimStart s).

(** [s.startsWith(p)] *)
Definition startsWith (s p : string) : bool := String.prefix p s.

(** [s.slice(n)] for a non-negative [n]: the string without its first
    [n] code units, empty when [n] exceeds the length. *)
Fixpoint slice (n : nat) (s : string) : string :=
  match n, s with
  | O, _ => s
  | S _, EmptyString => EmptyString
  | S n', String _ s' => slice n' s'
  end.

(** Truthiness of a string: only the empty string is falsy. *)
Definition truthy (s : string) : bool :=
  match s with EmptyString => false | _ => true end.

(** Value of a digit in the given radix (10 or 16), if it is one. *)
Definition digit (radix : Z) (c : ascii) : option Z :=
  let n := Z.of_nat (nat_of_ascii c) in
  let v :=
    if (48 <=? n) && (n <=? 57) then Some (n - 48)
    else if (97 <=? n) && (n <=? 102) then Some (n - 87)
    else if (65 <=? n) && (n <=? 70) then Some (n - 55)
    else None in
  match v with
  | Some d => if d <? radix then Some d else None
  | None => None
  end.

(** The longest prefix of digits, folded left to right: [None] when
    the string does not start with a digit. *)
Fixpoint digits (radix : Z) (acc : option Z) (s : string) : option Z :=
  match s with
  | EmptyString => acc
  | String c s' =>
      match digit radix c with
      | Some d => digits radix (Some (radix * default 0 acc + d)) s'
      | None => acc
      end
  end.

(** The integer [parseInt(s)] reads, with no radix argument, before
    it is made a Number ([sign] times [mathInt] in ECMA-262, 19.2.5):
    leading white space is skipped, a sign is read, a [0x]/[0X] prefix
    selects radix 16, and the longest prefix of digits is the value;
    [None] when there is no digit. *)
Definition mathInt (s : string) : option Z :=
  let s1 := trimStart s in
  let '(sign, s2) :=
    match s1 with
    | String "-" r => (-1, r)
    | String "+" r => (1, r)
    | _ => (1, s1)
    end in
  let '(radix, s3) :=
    match s2 with
    | String "0" (String "x" r) => (16, r)
    | String "0" (String "X" r) => (16, r)
    | _ => (10, s2)
    end in
  match digits radix None s3 with
  | Some v => Some (sign * v)
  | None => None
  end.

(** A Number, as far as [parseInt] can give one: NaN, an infinity, or
    a double whose value is an integer ([-0] and [+0] are both
    [Int 0]; the program only tests them for truthiness). *)
Inductive Number :=
| NaN
| Infinity (negative : bool)
| Int (n : Z).

(** The Number value for an integer (ECMA-262, 6.1.6.1): the integer
    itself when it has at most 53 significant bits; otherwise the
    nearest integer with 53 significant bits, the one with an even
    significand when two are as near; and an infinity when that is
    2^1024 or more in magnitude. *)
Definition to_double (n : Z) : Number :=
  let a := Z.abs n in
  let bits := Z.log2 a + 1 in
  if bits <=? 53 then Int n
  else
    let shift := bits - 53 in
    let q := Z.shiftr a shift in
    let r := a - Z.shiftl q shift in
    let half := Z.shiftl 1 (shift - 1) in
    let q' := if (half <? r) || ((r =? half) && Z.odd q) then q + 1 else q in
    let m := Z.shiftl q' shift in
    if 2 ^ 1024 <=? m then Infinity (n <? 0) else Int (Z.sgn n * m).

(** [parseInt(s)] with no radix argument.  (Past the 20th significant
    decimal digit ECMA-262 lets an implementation read zeros; the
    engines of the browsers round the integer as it is written, which
    is what is modelled.) *)
Definition parseInt (s : string) : Number :=
  match mathInt s with
  | Some n => to_double n
  | None => NaN
  end.

(** Truthiness of a Number: NaN and the zeros are falsy. *)
Definition truthy_number (v : Number) : bool :=
  match v with
  | NaN => false
  | Infinity _ => true
  | Int n => negb (n =? 0)
  end.

(** What [JSON.stringify] writes for a Number: the number when it is
    finite, [null] ([None]) for NaN and the infinities. *)
Definition JSON_number (v : Number) : option Z :=
  match v with
  | Int n => Some n
  | _ => None
  end.

End JS.

(** A string the trim leaves alone: it neither starts nor ends with
    white space. *)
Fixpoint ends_clean (s : string) : bool :=
  match s with
  | EmptyString => true
  | String c EmptyString => negb (JS.is_space c)
  | String _ s' => ends_clean s'
  end.

Definition starts_clean (s : string) : bool :=
  match s with
  | EmptyString => true
  | String c _ => negb (JS.is_space c)
  end.

(** ** Connection manager: address normalisation in [connect] *)

(** The value of [wsUrl] that [connect(serverUrl)] hands to
    [new WebSocket]. *)
Definition connect_wsUrl (serverUrl : string) : string :=
  let wsUrl := JS.trim serverUrl in
  if JS.startsWith wsUrl "https://" then "wss://" +:+ JS.slice 8 wsUrl
  else if JS.startsWith wsUrl "http://" then "ws://" +:+ JS.slice 7 wsUrl
  else if negb (JS.startsWith wsUrl "ws://") && negb (JS.startsWith wsUrl "wss://")
       then "ws://" +:+ wsUrl
  else wsUrl.

(** ** Join form: [parseInt(elements.timerSecondsInput.value) || 30] *)

Definition timerSeconds (timerSecondsInput : string) : JS.Number :=
  let parsed := JS.parseInt timerSecondsInput in
  if JS.truthy_number parsed then parsed else JS.Int 30.

(** Whether the text starts, after white space and one sign, with a
    decimal digit: the inputs [parseInt] reads a number from, apart
    from a bare [0x]. *)
Definition is_decimal_digit (c : ascii) : bool :=
  let n := nat_of_ascii c in (48 <=? n)%nat && (n <=? 57)%nat.

Definition starts_numeric (s : string) : bool :=
  let s1 := JS.trimStart s in
  let s2 := match s1 with
            | String "-" r => r
            | String "+" r => r
            | _ => s1
            end in
  match s2 with
  | String c _ => is_decimal_digit c
  | EmptyString => false
  end.

(** ** Typing diff engine: [updateTypingFeedback] *)

(** The class of a [<span>] written to [typingFeedback]. *)
Inductive Class := completed | correct | incorrect | pending.

(** One piece of the HTML written to [elements.typingFeedback]:
    [Span k c] is [<span class="k">c</span>] (with [c] escaped by
    [escapeHtml]) and [Text w] is the text [w] appended as it is. *)
Inductive Token :=
| Span (k : Class) (c : ascii)
| Text (w : list ascii).

#[global] Instance Class_eq_dec : EqDecision Class.
Proof. solve_decision. Defined.
#[global] Instance ascii_eq_dec' : EqDecision ascii := ascii_dec.
#[global] Instance Token_eq_dec : EqDecision Token.
Proof. solve_decision. Defined.

Module Split.

(** State of the scan done by [String.prototype.split] with a
    separator that matches a maximal run of white space: either inside
    a (possibly empty) piece between separators or inside a run. *)
Inductive Mode :=
| InWord (w : list ascii)
| InSpace (sp : list ascii).

(** [s.split(/(\s+)/)]: the pieces between the runs of white space
    and, because of the capture group, the runs themselves.  A run at
    the start or at the end of [s] leaves an empty piece there, and
    the empty string splits into one empty piece. *)
Fixpoint capture_go (s : list ascii) (m : Mode) : list (list ascii) :=
  match s, m with
  | [], InWord w => [w]
  | [], InSpace sp => [sp; []]
  | c :: s', InWord w =>
      if JS.is_space c then w :: capture_go s' (InSpace [c])
      else capture_go s' (InWord (w ++ [c]))
  | c :: s', InSpace sp =>
      if JS.is_space c then capture_go s' (InSpace (sp ++ [c]))
      else sp :: capture_go s' (InWord [c])
  end.

Definition capture (s : list ascii) : list (list ascii) :=
  capture_go s (InWord []).

(** [s.split(/\s+/)]: the same pieces without the runs. *)
Fixpoint plain_go (s : list ascii) (m : Mode) : list (list ascii) :=
  match s, m with
  | [], InWord w => [w]
  | [], InSpace _ => [[]]
  | c :: s', InWord w =>
      if JS.is_space c then w :: plain_go s' (InSpace [c])
      else plain_go s' (InWord (w ++ [c]))
  | c :: s', InSpace sp =>
      if JS.is_space c then plain_go s' (InSpace (sp ++ [c]))
      else plain_go s' (InWord [c])
  end.

Definition plain (s : list ascii) : list (list ascii) :=
  plain_go s (InWord []).

End Split.

(** [/^\s+$/.test(word)] *)
Definition is_space_run (word : list ascii) : bool :=
  match word with
  | [] => false
  | _ => forallb JS.is_space word
  end.

(** The class given to position [j] of a word compared with what was
    typed for it: the body of the innermost loop. *)
Definition compareAt (typedWord : list ascii) (j : nat) (c : ascii) : Class :=
  match typedWord !! j with
  | Some t => if Ascii.eqb t c then correct else incorrect
  | None => pending
  end.

(** [typed.split(/\s+/).filter(w => w.length > 0)] *)
Definition typedNonSpaceWords (typed : list ascii) : list (list ascii) :=
  filter (fun w => (0 < length w)%nat) (Split.plain typed).

(** [typedNonSpaceWords.length > 0 ? typedNonSpaceWords.length - 1 : 0] *)
Definition currentWordIndex (typed : list ascii) : nat :=
  (length (typedNonSpaceWords typed) - 1)%nat.

(** The [for] loop over [expectedWords], with [wordIndex] as its
    state.  ([typedCharIndex] and [expectedCharIndex] are written by
    the loop but never read, and [typedWords] only feeds them.) *)
Fixpoint feedbackLoop (typed : list ascii) (expectedWords : list (list ascii))
    (wordIndex : nat) : list Token :=
  match expectedWords with
  | [] => []
  | word :: rest =>
      if is_space_run word then Text word :: feedbackLoop typed rest wordIndex
      else
        let typedWord := default [] (typedNonSpaceWords typed !! wordIndex) in
        (if (wordIndex <? currentWordIndex typed)%nat then
           map (Span completed) word
         else if (wordIndex =? currentWordIndex typed)%nat then
           imap (fun j c => Span (compareAt typedWord j c) c) word
         else
           map (Span pending) word)
        ++ feedbackLoop typed rest (S wordIndex)
  end.

(** [updateTypingFeedback(expected, typed)]: what it assigns to
    [elements.typingFeedback.innerHTML]. *)
Definition updateTypingFeedback (expected typed : string) : list Token :=
  feedbackLoop (list_ascii_of_string typed)
    (Split.capture (list_ascii_of_string expected)) 0.

(** The earlier revision of the file compares position by position
    over the whole incantation. *)
Module Earlier.

Definition updateTypingFeedback (expected typed : string) : list Token :=
  imap (fun i c => Span (compareAt (list_ascii_of_string typed) i c) c)
    (list_ascii_of_string expected).

End Earlier.

(** A piece of a split is clean when it is a run of white space or
    holds none. *)
Definition no_space (word : list ascii) : bool :=
  forallb (fun c => negb (JS.is_space c)) word.

(** A token is well placed when white space stands in [Text] and any
    other character in its own [Span]. *)
Definition well_placed (t : Token) : bool :=
  match t with
  | Span _ c => negb (JS.is_space c)
  | Text w => is_space_run w
  end.

(** The token with its class forgotten. *)
Definition unclassified (t : Token) : Token :=
  match t with
  | Span _ c => Span pending c
  | Text w => Text w
  end.

(** The characters a feedback shows, in order. *)
Definition shown (ts : list Token) : list ascii :=
  concat (map (fun t => match t with Span _ c => [c] | Text w => w end) ts).

(** The classes a feedback assigns, in order. *)
Definition classes (ts : list Token) : list Class :=
  omap (fun t => match t with Span k _ => Some k | Text _ => None end) ts.

(** ** Data model *)

Inductive ReadyState := CONNECTING | OPEN | CLOSING | CLOSED.

(** The [WebSocket] object held in [state.ws].  [conn] tells the
    sockets apart: it is the number of sockets created before this
    one.  The program reads the ready state of the socket in
    [state.ws] only, so that of a socket a later [connect] has
    replaced is not kept. *)
Record WebSocket := { conn : nat; url : string; readyState : ReadyState }.

(** One entry of [game_state.players] ([p_id] is the field [id]). *)
Record Player := {
  p_id : string;
  name : string;
  hp : Z;
  max_hp : Z;
  is_alive : bool;
  has_selected_spell : bool;
  has_selected_target : bool;
  has_finished_typing : bool
}.

(** [game_state.typing_phase] *)
Record TypingChallenge := { incantation : string; duration_ms : Z }.

(** The snapshot carried by [game_update].  The spell catalogue, the
    resolution report and the statistics are only read by rendering
    code that writes HTML, and are left out. *)
Record GameState := {
  phase : string;
  turn_number : Z;
  players : list Player;
  typing_phase : option TypingChallenge;
  phase_time_remaining_ms : option Z;
  winner : option string
}.

(** The lobby view carried by [joined_room] and [room_update]
    ([room_phase] is its field [phase]). *)
Record RoomState := {
  room_phase : string;
  room_id : string;
  max_players : nat;
  room_players : list (string * string)
}.

(** Inbound messages, by [msg.type]; [unknown] is any other tag. *)
Inductive ServerMessage :=
| joined_room (player_id room_id : string) (room_state : RoomState)
| error (message : string)
| room_update (room_state : RoomState)
| game_update (game_state : GameState)
| pong
| unknown (tag : string).

(** Outbound messages, as the objects handed to [JSON.stringify]
    ([JS.JSON_number] gives what becomes of [timer_seconds] in the
    frame). *)
Inductive ClientMessage :=
| join_room (room_id player_name : string) (timer_seconds : JS.Number)
| select_spell (spell_id : string)
| select_target (target_ids : list string)
| submit_typing (typed_text : string) (completion_time_ms : option Z)
| play_again
| ping.

(** The callback given to [setInterval], with the values its closure
    captured: [endTime] in [startTimer], [startTime] and
    [initialRemaining] in [startResolutionTimer]. *)
Inductive Timer :=
| ChallengeTimer (endTime : Z)
| ResolutionTimer (startTime initialRemaining : Z).

(** [elements.timerDisplay]: whether the text has the prefix
    "Next turn in", the seconds shown, and the class [warning]. *)
Record TimerText := { next_turn : bool; seconds : Z; warning : bool }.

(** The program's [state] object. *)
Record State := {
  ws : option WebSocket;
  playerId : option string;
  playerName : option string;
  roomId : option string;
  roomState : option RoomState;
  gameState : option GameState;
  selectedSpell : option string;
  selectedTarget : option string;
  typingStartTime : option Z;
  typingSubmitted : bool;
  timerInterval : option positive
}.

(** What the program reaches outside [state]: the browser's running
    intervals and the handle the next [setInterval] returns, the
    messages handed to [state.ws.send], the continuation of each
    [await connect(..)] that created a socket (at the index [conn] of
    its socket: the message it will send while the promise is
    pending, [None] once the promise is settled), the callbacks
    queued by [setTimeout] in the input handler, the closure
    ([typing]) of the handlers installed by [renderTypingPhase], and
    the DOM properties that are read back or that the claims speak
    of. *)
Record Page := {
  intervals : gmap positive Timer;
  nextHandle : positive;
  sent : list ClientMessage;
  pendingJoins : list (option ClientMessage);
  pendingAutoSubmit : nat;
  typingHandlers : option TypingChallenge;
  typingInput : string;
  typingFeedback : list Token;
  screen : string;
  waitingOverlay : option string;
  connectionError : option string;
  timerDisplay : option TimerText
}.

Record World := { st : State; page : Page }.

Definition State_set_ws (v : option WebSocket) (s : State) : State :=
  {| ws := v; playerId := playerId s; playerName := playerName s; roomId
     := roomId s; roomState := roomState s; gameState := gameState s;
     selectedSpell := selectedSpell s; selectedTarget := selectedTarget s;
     typingStartTime := typingStartTime s; typingSubmitted := typingSubmitted
     s; timerInterval := timerInterval s |}.
Definition State_set_playerId (v : option string) (s : State) : State :=
  {| ws := ws s; playerId := v; playerName := playerName s; roomId :=
     roomId s; roomState := roomState s; gameState := gameState s;
     selectedSpell := selectedSpell s; selectedTarget := selectedTarget s;
     typingStartTime := typingStartTime s; typingSubmitted := typingSubmitted
     s; timerInterval := timerInterval s |}.
Definition State_set_playerName (v : option string) (s : State) : State :=
  {| ws := ws s; playerId := playerId s; playerName := v; roomId := roomId
     s; roomState := roomState s; gameState := gameState s; selectedSpell :=
     selectedSpell s; selectedTarget := selectedTarget s; typingStartTime :=
     typingStartTime s; typingSubmitted := typingSubmitted s; timerInterval
     := timerInterval s |}.
Definition State_set_roomId (v : option string) (s : State) : State :=
  {| ws := ws s; playerId := playerId s; playerName := playerName s;
     roomId := v; roomState := roomState s; gameState := gameState s;
     selectedSpell := selectedSpell s; selectedTarget := selectedTarget s;
     typingStartTime := typingStartTime s; typingSubmitted := typingSubmitted
     s; timerInterval := timerInterval s |}.
Definition State_set_roomState (v : option RoomState) (s : State) : State :=
  {| ws := ws s; playerId := playerId s; playerName := playerName s;
     roomId := roomId s; roomState := v; gameState := gameState s;
     selectedSpell := selectedSpell s; selectedTarget := selectedTarget s;
     typingStartTime := typingStartTime s; typingSubmitted := typingSubmitted
     s; timerInterval := timerInterval s |}.
Definition State_set_gameState (v : option GameState) (s : State) : State :=
  {| ws := ws s; playerId := playerId s; playerName := playerName s;
     roomId := roomId s; roomState := roomState s; gameState := v;
     selectedSpell := selectedSpell s; selectedTarget := selectedTarget s;
     typingStartTime := typingStartTime s; typingSubmitted := typingSubmitted
     s; timerInterval := timerInterval s |}.
Definition State_set_selectedSpell (v : option string) (s : State) : State :=
  {| ws := ws s; playerId := playerId s; playerName := playerName s;
     roomId := roomId s; roomState := roomState s; gameState := gameState s;
     selectedSpell := v; selectedTarget := selectedTarget s; typingStartTime
     := typingStartTime s; typingSubmitted := typingSubmitted s;
     timerInterval := timerInterval s |}.
Definition State_set_selectedTarget (v : option string) (s : State) : State :=
  {| ws := ws s; playerId := playerId s; playerName := playerName s;
     roomId := roomId s; roomState := roomState s; gameState := gameState s;
     selectedSpell := selectedSpell s; selectedTarget := v; typingStartTime
     := typingStartTime s; typingSubmitted := typingSubmitted s;
     timerInterval := timerInterval s |}.
Definition State_set_typingStartTime (v : option Z) (s : State) : State :=
  {| ws := ws s; playerId := playerId s; playerName := playerName s;
     roomId := roomId s; roomState := roomState s; gameState := gameState s;
     selectedSpell := selectedSpell s; selectedTarget := selectedTarget s;
     typingStartTime := v; typingSubmitted := typingSubmitted s;
     timerInterval := timerInterval s |}.
Definition State_set_typingSubmitted (v : bool) (s : State) : State :=
  {| ws := ws s; playerId := playerId s; playerName := playerName s;
     roomId := roomId s; roomState := roomState s; gameState := gameState s;
     selectedSpell := selectedSpell s; selectedTarget := selectedTarget s;
     typingStartTime := typingStartTime s; typingSubmitted := v;
     timerInterval := timerInterval s |}.
Definition State_set_timerInterval (v : option positive) (s : State) : State :=
  {| ws := ws s; playerId := playerId s; playerName := playerName s;
     roomId := roomId s; roomState := roomState s; gameState := gameState s;
     selectedSpell := selectedSpell s; selectedTarget := selectedTarget s;
     typingStartTime := typingStartTime s; typingSubmitted := typingSubmitted
     s; timerInterval := v |}.

Definition Page_set_intervals (v : gmap positive Timer) (p : Page) : Page :=
  {| intervals := v; nextHandle := nextHandle p; sent := sent p;
     pendingJoins := pendingJoins p; pendingAutoSubmit := pendingAutoSubmit p;
     typingHandlers := typingHandlers p; typingInput := typingInput p;
     typingFeedback := typingFeedback p; screen := screen p; waitingOverlay
     := waitingOverlay p; connectionError := connectionError p; timerDisplay
     := timerDisplay p |}.
Definition Page_set_nextHandle (v : positive) (p : Page) : Page :=
  {| intervals := intervals p; nextHandle := v; sent := sent p;
     pendingJoins := pendingJoins p; pendingAutoSubmit := pendingAutoSubmit p;
     typingHandlers := typingHandlers p; typingInput := typingInput p;
     typingFeedback := typingFeedback p; screen := screen p; waitingOverlay
     := waitingOverlay p; connectionError := connectionError p; timerDisplay
     := timerDisplay p |}.
Definition Page_set_sent (v : list ClientMessage) (p : Page) : Page :=
  {| intervals := intervals p; nextHandle := nextHandle p; sent := v;
     pendingJoins := pendingJoins p; pendingAutoSubmit := pendingAutoSubmit p;
     typingHandlers := typingHandlers p; typingInput := typingInput p;
     typingFeedback := typingFeedback p; screen := screen p; waitingOverlay
     := waitingOverlay p; connectionError := connectionError p; timerDisplay
     := timerDisplay p |}.
Definition Page_set_pendingJoins (v : list (option ClientMessage)) (p : Page)
  : Page :=
  {| intervals := intervals p; nextHandle := nextHandle p; sent := sent p;
     pendingJoins := v; pendingAutoSubmit := pendingAutoSubmit p;
     typingHandlers := typingHandlers p; typingInput := typingInput p;
     typingFeedback := typingFeedback p; screen := screen p; waitingOverlay
     := waitingOverlay p; connectionError := connectionError p; timerDisplay
     := timerDisplay p |}.
Definition Page_set_pendingAutoSubmit (v : nat) (p : Page) : Page :=
  {| intervals := intervals p; nextHandle := nextHandle p; sent := sent p;
     pendingJoins := pendingJoins p; pendingAutoSubmit := v; typingHandlers :=
     typingHandlers p; typingInput := typingInput p; typingFeedback :=
     typingFeedback p; screen := screen p; waitingOverlay := waitingOverlay
     p; connectionError := connectionError p; timerDisplay := timerDisplay p
     |}.
Definition Page_set_typingHandlers (v : option TypingChallenge) (p : Page) : Page :=
  {| intervals := intervals p; nextHandle := nextHandle p; sent := sent p;
     pendingJoins := pendingJoins p; pendingAutoSubmit := pendingAutoSubmit p;
     typingHandlers := v; typingInput := typingInput p; typingFeedback :=
     typingFeedback p; screen := screen p; waitingOverlay := waitingOverlay
     p; connectionError := connectionError p; timerDisplay := timerDisplay p
     |}.
Definition Page_set_typingInput (v : string) (p : Page) : Page :=
  {| intervals := intervals p; nextHandle := nextHandle p; sent := sent p;
     pendingJoins := pendingJoins p; pendingAutoSubmit := pendingAutoSubmit p;
     typingHandlers := typingHandlers p; typingInput := v; typingFeedback :=
     typingFeedback p; screen := screen p; waitingOverlay := waitingOverlay
     p; connectionError := connectionError p; timerDisplay := timerDisplay p
     |}.
Definition Page_set_typingFeedback (v : list Token) (p : Page) : Page :=
  {| intervals := intervals p; nextHandle := nextHandle p; sent := sent p;
     pendingJoins := pendingJoins p; pendingAutoSubmit := pendingAutoSubmit p;
     typingHandlers := typingHandlers p; typingInput := typingInput p;
     typingFeedback := v; screen := screen p; waitingOverlay :=
     waitingOverlay p; connectionError := connectionError p; timerDisplay :=
     timerDisplay p |}.
Definition Page_set_screen (v : string) (p : Page) : Page :=
  {| intervals := intervals p; nextHandle := nextHandle p; sent := sent p;
     pendingJoins := pendingJoins p; pendingAutoSubmit := pendingAutoSubmit p;
     typingHandlers := typingHandlers p; typingInput := typingInput p;
     typingFeedback := typingFeedback p; screen := v; waitingOverlay :=
     waitingOverlay p; connectionError := connectionError p; timerDisplay :=
     timerDisplay p |}.
Definition Page_set_waitingOverlay (v : option string) (p : Page) : Page :=
  {| intervals := intervals p; nextHandle := nextHandle p; sent := sent p;
     pendingJoins := pendingJoins p; pendingAutoSubmit := pendingAutoSubmit p;
     typingHandlers := typingHandlers p; typingInput := typingInput p;
     typingFeedback := typingFeedback p; screen := screen p; waitingOverlay
     := v; connectionError := connectionError p; timerDisplay := timerDisplay
     p |}.
Definition Page_set_connectionError (v : option string) (p : Page) : Page :=
  {| intervals := intervals p; nextHandle := nextHandle p; sent := sent p;
     pendingJoins := pendingJoins p; pendingAutoSubmit := pendingAutoSubmit p;
     typingHandlers := typingHandlers p; typingInput := typingInput p;
     typingFeedback := typingFeedback p; screen := screen p; waitingOverlay
     := waitingOverlay p; connectionError := v; timerDisplay := timerDisplay
     p |}.
Definition Page_set_timerDisplay (v : option TimerText) (p : Page) : Page :=
  {| intervals := intervals p; nextHandle := nextHandle p; sent := sent p;
     pendingJoins := pendingJoins p; pendingAutoSubmit := pendingAutoSubmit p;
     typingHandlers := typingHandlers p; typingInput := typingInput p;
     typingFeedback := typingFeedback p; screen := screen p; waitingOverlay
     := waitingOverlay p; connectionError := connectionError p; timerDisplay
     := v |}.

Definition on_st (f : State -> State) (w : World) : World :=
  {| st := f (st w); page := page w |}.
Definition on_page (f : Page -> Page) (w : World) : World :=
  {| st := st w; page := f (page w) |}.

(** The state when the script has loaded. *)
Definition initial : World :=
  {| st := {| ws := None; playerId := None; playerName := None;
              roomId := None; roomState := None; gameState := None;
              selectedSpell := None; selectedTarget := None;
              typingStartTime := None; typingSubmitted := false;
              timerInterval := None |};
     page := {| intervals := ∅; nextHandle := 1%positive; sent := [];
                pendingJoins := []; pendingAutoSubmit := 0%nat;
                typingHandlers := None; typingInput := "";
                typingFeedback := []; screen := "landing-screen";
                waitingOverlay := None; connectionError := None;
                timerDisplay := None |} |}.

(** ** Screens and messages shown *)

Definition showScreen (screenId : string) : World -> World :=
  on_page (Page_set_screen screenId).

Definition showWaiting (message : string) : World -> World :=
  on_page (Page_set_waitingOverlay (Some message)).

Definition showError (message : string) : World -> World :=
  on_page (Page_set_connectionError (Some message)).

Definition hideError : World -> World :=
  on_page (Page_set_connectionError None).

(** ** Connection manager: [send] *)

(** [state.ws && state.ws.readyState === WebSocket.OPEN] *)
Definition ws_open (w : World) : bool :=
  match ws (st w) with
  | Some sock => match readyState sock with OPEN => true | _ => false end
  | None => false
  end.

(** [send(message)]: the frame reaches the socket only when it is
    open; otherwise the call does nothing. *)
Definition send (message : ClientMessage) (w : World) : World :=
  if ws_open w then on_page (fun p => Page_set_sent (sent p ++ [message]) p) w
  else w.

(** ** Timer reconciliation *)

(** [setInterval(callback, 100)] followed by the assignment of its
    result to [state.timerInterval]. *)
Definition setInterval (callback : Timer) (w : World) : World :=
  let h := nextHandle (page w) in
  on_st (State_set_timerInterval (Some h))
    (on_page (fun p => Page_set_nextHandle (Pos.succ h)
                         (Page_set_intervals (<[h := callback]> (intervals p)) p)) w).

Definition stopTimer (w : World) : World :=
  match timerInterval (st w) with
  | Some h =>
      on_st (State_set_timerInterval None)
        (on_page (fun p => Page_set_intervals (delete h (intervals p)) p) w)
  | None => w
  end.

Definition startTimer (durationMs : Z) (w : World) : World :=
  match timerInterval (st w) with
  | Some _ => w
  | None =>
      let endTime := default 0 (typingStartTime (st w)) + durationMs in
      setInterval (ChallengeTimer endTime) w
  end.

Definition startResolutionTimer (now : Z) (w : World) : World :=
  match timerInterval (st w) with
  | Some _ => w
  | None =>
      match gameState (st w) with
      | None => w
      | Some game =>
          match phase_time_remaining_ms game with
          | None => w
          | Some initialRemaining =>
              setInterval (ResolutionTimer now initialRemaining) w
          end
      end
  end.

(** [Math.ceil(remaining / 1000)] for [remaining >= 0]. *)
Definition ceil_seconds (remaining : Z) : Z := (remaining + 999) / 1000.

(** ** Typing submission *)

Definition submitTyping (finished : bool) (now : Z) (w : World) : World :=
  if typingSubmitted (st w) then w
  else
    let w := on_st (State_set_typingSubmitted true) w in
    let completionTime :=
      if finished then Some (now - default 0 (typingStartTime (st w)))
      else None in
    let w := send (submit_typing (typingInput (page w)) completionTime) w in
    let w := stopTimer w in
    showWaiting "Spell cast! Waiting for others..." w.

(** The callback installed by [startTimer]. *)
Definition challengeTick (endTime now : Z) (w : World) : World :=
  let remaining := Z.max 0 (endTime - now) in
  let secs := ceil_seconds remaining in
  let w := on_page (Page_set_timerDisplay
             (Some {| next_turn := false; seconds := secs;
                      warning := secs <=? 5 |})) w in
  if remaining <=? 0 then
    let w := stopTimer w in
    if negb (typingSubmitted (st w)) then submitTyping false now w else w
  else w.

(** The callback installed by [startResolutionTimer]. *)
Definition resolutionTick (startTime initialRemaining now : Z) (w : World)
  : World :=
  let elapsed := now - startTime in
  let remaining := Z.max 0 (initialRemaining - elapsed) in
  let secs := ceil_seconds remaining in
  let w := on_page (Page_set_timerDisplay
             (Some {| next_turn := true; seconds := secs;
                      warning := false |})) w in
  if remaining <=? 0 then stopTimer w else w.

(** The browser runs the callback of interval [h], if [h] is still
    in its table. *)
Definition intervalFires (h : positive) (now : Z) (w : World) : World :=
  match intervals (page w) !! h with
  | Some (ChallengeTimer endTime) => challengeTick endTime now w
  | Some (ResolutionTimer startTime initialRemaining) =>
      resolutionTick startTime initialRemaining now w
  | None => w
  end.

(** ** Rendering, as far as it touches state *)

(** [!state.playerId] is false *)
Definition identity_known (w : World) : bool :=
  match playerId (st w) with
  | Some i => JS.truthy i
  | None => false
  end.

(** [game.players.find(p => p.id === state.playerId)] *)
Definition find_self (game : GameState) (w : World) : option Player :=
  match playerId (st w) with
  | Some i => List.find (fun p => String.eqb (p_id p) i) (players game)
  | None => None
  end.

Definition renderSpellSelection (self : Player) (w : World) : World :=
  if has_selected_spell self then
    showWaiting "Waiting for other wizards to choose their spells..." w
  else w.

Definition renderTargetSelection (self : Player) (w : World) : World :=
  if has_selected_target self then
    showWaiting "Waiting for other wizards to choose their targets..." w
  else w.

(** [!state.typingStartTime] *)
Definition isFirstRender (w : World) : bool :=
  match typingStartTime (st w) with
  | Some t => t =? 0
  | None => true
  end.

Definition renderTypingPhase (now : Z) (game : GameState) (self : Player)
    (w : World) : World :=
  if has_finished_typing self || typingSubmitted (st w) then
    showWaiting "Waiting for other wizards to finish casting..." w
  else
    match typing_phase game with
    | None => w
    | Some typing =>
        let w :=
          if isFirstRender w then
            let w := on_page (Page_set_typingInput "") w in
            let w := on_st (State_set_typingStartTime (Some now)) w in
            startTimer (duration_ms typing) w
          else w in
        let w := on_page (fun p => Page_set_typingFeedback
                   (updateTypingFeedback (incantation typing) (typingInput p)) p) w in
        on_page (Page_set_typingHandlers (Some typing)) w
    end.

Definition renderGame (now : Z) (w : World) : World :=
  match gameState (st w) with
  | None => w
  | Some game =>
      if negb (identity_known w) then w
      else
        let w := on_page (Page_set_waitingOverlay None) w in
        match find_self game w with
        | None => w
        | Some self =>
            if negb (is_alive self) then
              showWaiting "You have been defeated. Spectating..." w
            else if String.eqb (phase game) "spell_selection" then
              renderSpellSelection self w
            else if String.eqb (phase game) "target_selection" then
              renderTargetSelection self w
            else if String.eqb (phase game) "typing" then
              renderTypingPhase now game self w
            else w
        end
  end.

Definition showLobby : World -> World := showScreen "lobby-screen".

Definition showGameOver : World -> World := showScreen "gameover-screen".

(** ** Message handlers *)

(** The four edge tests of [handleGameUpdate], in the order of the
    source.  [previousPhase] is [state.gameState?.phase] read before
    the new snapshot is stored. *)
Definition phase_is (previousPhase : option string) (tag : string) : bool :=
  match previousPhase with
  | Some p => String.eqb p tag
  | None => false
  end.

Definition handleGameUpdate (now : Z) (game_state : GameState) (w : World)
  : World :=
  let previousPhase := phase <$> gameState (st w) in
  let newPhase := phase game_state in
  let w := on_st (State_set_gameState (Some game_state)) w in
  if negb (identity_known w) then w
  else
    let w :=
      if String.eqb newPhase "spell_selection"
         && negb (phase_is previousPhase "spell_selection") then
        let w := on_st (State_set_selectedSpell None) w in
        let w := on_st (State_set_selectedTarget None) w in
        let w := on_st (State_set_typingSubmitted false) w in
        let w := on_st (State_set_typingStartTime None) w in
        stopTimer w
      else w in
    let w :=
      if phase_is previousPhase "typing" && negb (String.eqb newPhase "typing") then
        let w := on_st (State_set_typingStartTime None) w in
        stopTimer w
      else w in
    let w :=
      if String.eqb newPhase "resolution"
         && negb (phase_is previousPhase "resolution") then
        startResolutionTimer now w
      else w in
    let w :=
      if phase_is previousPhase "resolution"
         && negb (String.eqb newPhase "resolution") then
        stopTimer w
      else w in
    if String.eqb newPhase "game_over" then showGameOver w
    else renderGame now (showScreen "game-screen" w).

Definition handleJoinedRoom (now : Z) (player_id room_id : string)
    (room_state : RoomState) (w : World) : World :=
  let w := on_st (State_set_playerId (Some player_id)) w in
  let w := on_st (State_set_roomId (Some room_id)) w in
  let w := on_st (State_set_roomState (Some room_state)) w in
  if String.eqb (room_phase room_state) "waiting_for_players" then showLobby w
  else
    let w := showScreen "game-screen" w in
    match gameState (st w) with
    | Some game =>
        let w := renderGame now w in
        if String.eqb (phase game) "resolution" then startResolutionTimer now w
        else w
    | None => w
    end.

Definition handleError (message : string) : World -> World :=
  showError message.

Definition handleRoomUpdate (room_state : RoomState) : World -> World :=
  on_st (State_set_roomState (Some room_state)).

(** [handleServerMessage]: the dispatch on [msg.type]. *)
Definition handleServerMessage (now : Z) (msg : ServerMessage) (w : World)
  : World :=
  match msg with
  | joined_room player_id room_id room_state =>
      handleJoinedRoom now player_id room_id room_state w
  | error message => handleError message w
  | room_update room_state => handleRoomUpdate room_state w
  | game_update game_state => handleGameUpdate now game_state w
  | pong => w
  | unknown _ => w
  end.

(** The earlier revision of the file: [handleJoinedRoom] renders the
    buffered snapshot and does nothing else. *)
Module EarlierHandlers.

Definition handleJoinedRoom (now : Z) (player_id room_id : string)
    (room_state : RoomState) (w : World) : World :=
  let w := on_st (State_set_playerId (Some player_id)) w in
  let w := on_st (State_set_roomId (Some room_id)) w in
  let w := on_st (State_set_roomState (Some room_state)) w in
  if String.eqb (room_phase room_state) "waiting_for_players" then showLobby w
  else
    let w := showScreen "game-screen" w in
    match gameState (st w) with
    | Some _ => renderGame now w
    | None => w
    end.

End EarlierHandlers.

(** ** Landing screen: the join form *)

(** What [new WebSocket(wsUrl)] does with the address, which is for
    the browser to decide: it creates the socket, or it throws (a
    [SyntaxError] for an address it cannot parse) an exception with
    some message. *)
Inductive Constructed :=
| Created
| Threw (message : string).

(** The [submit] handler up to [await connect(serverUrl)], and its
    [catch] when [new WebSocket] throws.  When the socket is created
    it is in state CONNECTING, it replaces the one in [state.ws], and
    the [join_room] message waits for it to open.  When the
    constructor throws, [connect] rejects the promise at once:
    [state.ws] keeps what it held, nothing waits, and the [catch] of
    the handler shows the message of the exception. *)
Definition joinForm_submit
    (playerNameInput serverUrlInput roomIdInput timerSecondsInput : string)
    (socket : Constructed) (w : World) : World :=
  let playerName := JS.trim playerNameInput in
  let serverUrl := JS.trim serverUrlInput in
  let roomId := JS.trim roomIdInput in
  let timerSeconds := timerSeconds timerSecondsInput in
  if negb (JS.truthy playerName) || negb (JS.truthy serverUrl)
     || negb (JS.truthy roomId) then
    showError "Please fill in all fields" w
  else
    let w := on_st (State_set_playerName (Some playerName)) w in
    let w := hideError w in
    match socket with
    | Threw message => showError message w
    | Created =>
        let c := length (pendingJoins (page w)) in
        let w := on_st (State_set_ws
                   (Some {| conn := c; url := connect_wsUrl serverUrl;
                            readyState := CONNECTING |})) w in
        on_page (fun p => Page_set_pendingJoins
                   (pendingJoins p
                    ++ [Some (join_room roomId playerName timerSeconds)]) p) w
    end.

(** The browser changes the ready state of socket [c]; the program
    sees it if that socket is the one in [state.ws]. *)
Definition set_readyState (c : nat) (r : ReadyState) (w : World) : World :=
  match ws (st w) with
  | Some sock =>
      if (conn sock =? c)%nat then
        on_st (State_set_ws
                 (Some {| conn := c; url := url sock; readyState := r |})) w
      else w
  | None => w
  end.

(** The promise of the [connect] that created socket [c] is settled:
    a later [resolve] or [reject] does nothing. *)
Definition settle (c : nat) : World -> World :=
  on_page (fun p => Page_set_pendingJoins (<[c := None]> (pendingJoins p)) p).

(** [onopen] of socket [c]: the promise resolves and the handler that
    waited for it sends its join request, through the socket that is
    in [state.ws] by then. *)
Definition ws_onopen (c : nat) (w : World) : World :=
  let w := set_readyState c OPEN w in
  match pendingJoins (page w) !! c with
  | Some (Some m) => send m (settle c w)
  | _ => w
  end.

(** [onerror] of socket [c]: the promise is rejected and the handler
    that waited for it shows the error. *)
Definition ws_onerror (c : nat) (w : World) : World :=
  match pendingJoins (page w) !! c with
  | Some (Some _) =>
      showError
        "Failed to connect to server. Check the server URL and ensure the server is running."
        (settle c w)
  | _ => w
  end.

(** [onclose] of socket [c], if there is such a socket. *)
Definition ws_onclose (c : nat) (w : World) : World :=
  match pendingJoins (page w) !! c with
  | Some _ =>
      showError "Connection lost. Please refresh the page."
        (set_readyState c CLOSED w)
  | None => w
  end.

(** ** Input handlers installed by the render functions *)

(** [typingInput.oninput] after the browser has stored the new value. *)
Definition typingInput_oninput (text : string) (w : World) : World :=
  let w := on_page (Page_set_typingInput text) w in
  match typingHandlers (page w) with
  | None => w
  | Some typing =>
      let w := on_page (Page_set_typingFeedback
                 (updateTypingFeedback (incantation typing) text)) w in
      if (String.length (incantation typing) <=? String.length text)%nat then
        on_page (fun p => Page_set_pendingAutoSubmit (S (pendingAutoSubmit p)) p) w
      else w
  end.

(** A callback queued by [setTimeout(.., 100)] in the input handler. *)
Definition autoSubmit_timeout (now : Z) (w : World) : World :=
  match pendingAutoSubmit (page w) with
  | O => w
  | S n =>
      let w := on_page (Page_set_pendingAutoSubmit n) w in
      if negb (typingSubmitted (st w)) then submitTyping true now w else w
  end.

(** [submitTypingBtn.onclick] *)
Definition submitTypingBtn_onclick (now : Z) (w : World) : World :=
  match typingHandlers (page w) with
  | Some _ => submitTyping true now w
  | None => w
  end.

(** [typingInput.onkeydown] *)
Definition typingInput_onkeydown (key : string) (now : Z) (w : World) : World :=
  match typingHandlers (page w) with
  | Some _ => if String.eqb key "Enter" then submitTyping true now w else w
  | None => w
  end.

(** Click on a spell button. *)
Definition spellBtn_onclick (spellId : string) (w : World) : World :=
  send (select_spell spellId) (on_st (State_set_selectedSpell (Some spellId)) w).

(** Click on an enabled target button. *)
Definition targetBtn_onclick (targetId : string) (w : World) : World :=
  send (select_target [targetId])
    (on_st (State_set_selectedTarget (Some targetId)) w).

Definition playAgainBtn_onclick : World -> World := send play_again.

(** The keep-alive interval (every 30000 ms). *)
Definition keepAlive (w : World) : World :=
  if ws_open w then send ping w else w.

(** ** The event loop *)

(** Every task the browser can run, with the clock value it would
    read.  Clicks on spell and target buttons are admitted whenever
    they are asked for, which covers every moment the buttons exist.
    A socket event names its socket by [conn]; messages are handled
    alike whichever socket they come from. *)
Inductive Event :=
| Receive (msg : ServerMessage)
| IntervalFires (h : positive)
| TimeoutFires
| TypingInput (text : string)
| SubmitClick
| KeyDown (key : string)
| SpellClick (spellId : string)
| TargetClick (targetId : string)
| PlayAgainClick
| JoinSubmit (playerNameInput serverUrlInput roomIdInput timerSecondsInput : string)
    (socket : Constructed)
| SocketOpen (c : nat)
| SocketError (c : nat)
| SocketClose (c : nat)
| KeepAlive.

Definition step (w : World) (ev : Z * Event) : World :=
  let '(now, e) := ev in
  match e with
  | Receive msg => handleServerMessage now msg w
  | IntervalFires h => intervalFires h now w
  | TimeoutFires => autoSubmit_timeout now w
  | TypingInput text => typingInput_oninput text w
  | SubmitClick => submitTypingBtn_onclick now w
  | KeyDown key => typingInput_onkeydown key now w
  | SpellClick spellId => spellBtn_onclick spellId w
  | TargetClick targetId => targetBtn_onclick targetId w
  | PlayAgainClick => playAgainBtn_onclick w
  | JoinSubmit a b c d socket => joinForm_submit a b c d socket w
  | SocketOpen c => ws_onopen c w
  | SocketError c => ws_onerror c w
  | SocketClose c => ws_onclose c w
  | KeepAlive => keepAlive w
  end.

(** The state after a run of events, oldest first. *)
Definition run (evs : list (Z * Event)) (w : World) : World :=
  fold_left step evs w.

(** A world some run of events reaches from the loaded page. *)
Definition reachable (w : World) : Prop :=
  exists evs, w = run evs initial.

(** ** The properties, in the words of the specification *)

(** The phase edges of the specification's table (section 4.3). *)
Inductive Edge :=
| EnterSelection
| LeaveTyping
| EnterResolution
| LeaveResolution.

#[global] Instance Edge_eq_dec : EqDecision Edge.
Proof. solve_decision. Defined.

(** The action the table gives for each edge. *)
Definition edgeAction (now : Z) (w : World) (e : Edge) : World :=
  match e with
  | EnterSelection =>
      stopTimer
        (on_st (State_set_typingStartTime None)
           (on_st (State_set_typingSubmitted false)
              (on_st (State_set_selectedTarget None)
                 (on_st (State_set_selectedSpell None) w))))
  | LeaveTyping => stopTimer (on_st (State_set_typingStartTime None) w)
  | EnterResolution => startResolutionTimer now w
  | LeaveResolution => stopTimer w
  end.

(** Whether an update from [previous] to [new] crosses edge [e]. *)
Definition crosses (previous : option string) (new : string) (e : Edge) : Prop :=
  match e with
  | EnterSelection => new = "spell_selection" /\ previous <> Some "spell_selection"
  | LeaveTyping => previous = Some "typing" /\ new <> "typing"
  | EnterResolution => new = "resolution" /\ previous <> Some "resolution"
  | LeaveResolution => previous = Some "resolution" /\ new <> "resolution"
  end.

#[global] Instance crosses_dec previous new e : Decision (crosses previous new e).
Proof. destruct e; simpl; apply _. Defined.

(** The edges an update crosses, in the order of the table. *)
Definition edges (previous : option string) (new : string) : list Edge :=
  filter (crosses previous new)
    [EnterSelection; LeaveTyping; EnterResolution; LeaveResolution].

(** What [handleGameUpdate] does after the edge tests. *)
Definition present (now : Z) (game_state : GameState) (w : World) : World :=
  if String.eqb (phase game_state) "game_over" then showGameOver w
  else renderGame now (showScreen "game-screen" w).

(** A run of [game_update] messages. *)
Definition updates (us : list (Z * GameState)) : list (Z * Event) :=
  map (fun u => (u.1, Receive (game_update u.2))) us.

(** The events that can lead to [submitTyping] inside a typing phase:
    typing, the button, a key, a queued auto-submit, an interval. *)
Definition typing_event (ev : Z * Event) : Prop :=
  match ev.2 with
  | TypingInput _ | SubmitClick | KeyDown _ | TimeoutFires | IntervalFires _ => True
  | _ => False
  end.

(** The [submit_typing] frames among the frames sent. *)
Definition is_submission (m : ClientMessage) : bool :=
  match m with submit_typing _ _ => true | _ => false end.

Definition submissions (ms : list ClientMessage) : list ClientMessage :=
  List.filter is_submission ms.

(** The typing diff as section 4.5 words it: the target is cut into
    maximal runs of white space and of other characters (words); a
    word before the one being typed is completed, the one being typed
    is compared position by position, a later one is pending, and the
    runs of white space are passed through. *)
Module WordDiff.

Fixpoint runs (s : list ascii) : list (bool * list ascii) :=
  match s with
  | [] => []
  | c :: s' =>
      match runs s' with
      | (b, r) :: rest =>
          if Bool.eqb b (JS.is_space c) then (b, c :: r) :: rest
          else (JS.is_space c, [c]) :: (b, r) :: rest
      | [] => [(JS.is_space c, [c])]
      end
  end.

Definition words (s : list ascii) : list (list ascii) :=
  omap (fun r : bool * list ascii => if r.1 then None else Some r.2) (runs s).

Fixpoint classify (typedWords : list (list ascii)) (rs : list (bool * list ascii))
    (k : nat) : list Token :=
  match rs with
  | [] => []
  | (true, sp) :: rest => Text sp :: classify typedWords rest k
  | (false, word) :: rest =>
      let current := (length typedWords - 1)%nat in
      (if (k <? current)%nat then map (Span completed) word
       else if (k =? current)%nat then
         imap (fun j c => Span (compareAt (default [] (typedWords !! k)) j c) c) word
       else map (Span pending) word)
      ++ classify typedWords rest (S k)
  end.

Definition diff (target typed : string) : list Token :=
  classify (words (list_ascii_of_string typed))
    (runs (list_ascii_of_string target)) 0.

End WordDiff.

(** The running intervals are exactly the one whose handle
    [state.timerInterval] holds, if any. *)
Definition timer_inv (w : World) : Prop :=
  match timerInterval (st w) with
  | Some h => exists t, intervals (page w) = {[h := t]}
  | None => intervals (page w) = ∅
  end.

(** ** What [split] yields, in terms of the runs of the string *)

Module Pieces.

(** The pieces that follow a piece already closed: the runs in order,
    and an empty piece after a final run of white space. *)
Fixpoint tail_pieces (rs : list (bool * list ascii)) : list (list ascii) :=
  match rs with
  | [] => []
  | [(true, sp)] => [sp; []]
  | (_, r) :: rest => r :: tail_pieces rest
  end.

(** The pieces when the scan is inside a word [w]. *)
Definition word_then (w : list ascii) (rs : list (bool * list ascii))
  : list (list ascii) :=
  match rs with
  | (false, r) :: rest => (w ++ r) :: tail_pieces rest
  | _ => w :: tail_pieces rs
  end.

(** The pieces when the scan is inside a run of white space [sp]. *)
Definition space_then (sp : list ascii) (rs : list (bool * list ascii))
  : list (list ascii) :=
  match rs with
  | (true, r) :: rest => tail_pieces ((true, sp ++ r) :: rest)
  | _ => tail_pieces ((true, sp) :: rs)
  end.

(** The words among some runs. *)
Definition words_of (rs : list (bool * list ascii)) : list (list ascii) :=
  omap (fun r : bool * list ascii => if r.1 then None else Some r.2) rs.

(** The non-empty pieces of the plain split when the scan is inside a
    word [w]. *)
Definition plain_word_then (w : list ascii) (rs : list (bool * list ascii))
  : list (list ascii) :=
  match rs with
  | (false, r) :: rest => (w ++ r) :: words_of rest
  | _ => (if decide (0 < length w)%nat then [w] else []) ++ words_of rs
  end.

(** A run is well formed: it is not empty and all its characters are
    of the kind its flag says. *)
Definition run_ok (r : bool * list ascii) : Prop :=
  r.2 <> [] /\ forallb (fun c => Bool.eqb (JS.is_space c) r.1) r.2 = true.

End Pieces.

(** Whether a string starts with white space. *)
Definition leading_space (s : string) : bool :=
  match s with
  | String c _ => JS.is_space c
  | EmptyString => false
  end.

(** ** Sprites and spell cards *)

Module Assets.

(** [imagePreloader.imagePaths] *)
Definition imagePaths : list string :=
  ["assets/background_0.png";
   "assets/background_1.png";
   "assets/TypomancersTitle.png";
   "assets/green_idle.png";
   "assets/green_attack.png";
   "assets/red_idle.png";
   "assets/red_attack.png";
   "assets/white_idle.png";
   "assets/white_attack.png";
   "assets/spell_cards/card_img_light_attack.png";
   "assets/spell_cards/card_img_heavy_attack.png";
   "assets/spell_cards/card_img_group_attack.png";
   "assets/spell_cards/card_img_healing.png";
   "assets/spell_cards/card_img_shield.png"].

(** [colors[playerIndex] || 'green'] for an index that is a
    non-negative integer, as [findIndex] and the loop counters give. *)
Definition getPlayerSpriteColor (playerIndex : nat) : string :=
  default "green" (["green"; "white"; "red"] !! playerIndex).

Definition getPlayerSprite (playerIndex : nat) (type : string) : string :=
  "assets/" +:+ getPlayerSpriteColor playerIndex +:+ "_" +:+ type +:+ ".png".

(** [array.findIndex(f)]: [None] is -1. *)
Fixpoint findIndex {A} (f : A -> bool) (l : list A) : option nat :=
  match l with
  | [] => None
  | x :: l' => if f x then Some 0%nat else S <$> findIndex f l'
  end.

Definition getPlayerIndex (playerId : string) (w : World) : nat :=
  match gameState (st w), roomState (st w) with
  | None, None => 0%nat
  | game, room =>
      let inGame :=
        match game with
        | Some g => findIndex (fun p => String.eqb (p_id p) playerId) (players g)
        | None => None
        end in
      match inGame with
      | Some index => index
      | None =>
          let inRoom :=
            match room with
            | Some r =>
                findIndex (fun p : string * string => String.eqb p.1 playerId)
                  (room_players r)
            | None => None
            end in
          match inRoom with
          | Some index => index
          | None => 0%nat
          end
      end
  end.

(** What a property access on an object literal can give besides an
    own value: a member of [Object.prototype], found through the
    prototype chain.  All of them are truthy. *)
Inductive Value :=
| Str (s : string)
| Inherited (member : string).

(** The property names of [Object.prototype] (ECMA-262 with Annex B),
    for a page that has not added to it. *)
Definition object_prototype_members : list string :=
  ["constructor"; "__defineGetter__"; "__defineSetter__"; "hasOwnProperty";
   "__lookupGetter__"; "__lookupSetter__"; "isPrototypeOf";
   "propertyIsEnumerable"; "toString"; "valueOf"; "__proto__";
   "toLocaleString"].

(** [literal[key]] for an object literal with string values. *)
Definition property (literal : list (string * string)) (key : string)
  : option Value :=
  match List.find (fun kv => String.eqb kv.1 key) literal with
  | Some kv => Some (Str kv.2)
  | None =>
      if bool_decide (key ∈ object_prototype_members) then Some (Inherited key)
      else None
  end.

Definition getSpellCardImage (spellType : string) : Value :=
  let mapping :=
    [("attack", "assets/spell_cards/card_img_light_attack.png");
     ("attack_all", "assets/spell_cards/card_img_group_attack.png");
     ("heal", "assets/spell_cards/card_img_healing.png");
     ("shield", "assets/spell_cards/card_img_shield.png")] in
  default (Str "assets/spell_cards/card_img_light_attack.png")
          (property mapping spellType).

Definition getSpellImage (spellName spellType : string) : Value :=
  if String.eqb spellType "attack" then
    if String.eqb spellName "Heartwood Wrath" then
      Str "assets/spell_cards/card_img_heavy_attack.png"
    else Str "assets/spell_cards/card_img_light_attack.png"
  else getSpellCardImage spellType.

End Assets.

(** ** Image preloader *)

Module Preloader.

(** The [imagePreloader] object, with the calls it has made to the
    two callbacks of [preload]: the arguments of each [onProgress] and
    the number of [onComplete]. *)
Record t := {
  images : list string;
  loaded : nat;
  total : nat;
  progress : list (nat * nat);
  completions : nat
}.

Definition fresh : t :=
  {| images := []; loaded := 0; total := 0; progress := []; completions := 0 |}.

(** [preload(onProgress, onComplete)] over the given paths, with both
    callbacks given: one [Image] is created per path. *)
Definition preload (imagePaths : list string) (p : t) : t :=
  if (length imagePaths =? 0)%nat then
    {| images := images p; loaded := 0; total := 0;
       progress := progress p; completions := S (completions p) |}
  else
    {| images := images p ++ imagePaths; loaded := 0;
       total := length imagePaths;
       progress := progress p; completions := completions p |}.

(** [img.onload] or [img.onerror] of one image (they differ in a
    console warning only). *)
Definition settled (p : t) : t :=
  let n := S (loaded p) in
  {| images := images p; loaded := n; total := total p;
     progress := progress p ++ [(n, total p)];
     completions := if (n =? total p)%nat then S (completions p)
                    else completions p |}.

End Preloader.

(** ** Background animation *)

Module Background.

(** The classes [active] and [outgoing] of one [.background-layer]. *)
Record Layer := { active : bool; outgoing : bool }.

(** The layers, [currentIndex], and the indices held by the pending
    [setTimeout] callbacks, oldest first. *)
Record t := {
  layers : list Layer;
  currentIndex : nat;
  cleanups : list nat
}.

Definition cycleBackground (b : t) : t :=
  let outgoingIndex := currentIndex b in
  let incomingIndex := ((currentIndex b + 1) mod length (layers b))%nat in
  let ls := alter (fun l => {| active := false; outgoing := true |})
              outgoingIndex (layers b) in
  let ls := alter (fun l => {| active := true; outgoing := outgoing l |})
              incomingIndex ls in
  {| layers := ls; currentIndex := incomingIndex;
     cleanups := cleanups b ++ [outgoingIndex] |}.

(** The oldest pending timeout fires. *)
Definition cleanup (b : t) : t :=
  match cleanups b with
  | [] => b
  | i :: rest =>
      {| layers := alter (fun l => {| active := active l; outgoing := false |})
                     i (layers b);
         currentIndex := currentIndex b; cleanups := rest |}
  end.

(** The two tasks of the animation. *)
Inductive Task := Cycle | Cleanup.

#[global] Instance Task_eq_dec : EqDecision Task.
Proof. solve_decision. Defined.

Definition task (b : t) (k : Task) : t :=
  match k with
  | Cycle => cycleBackground b
  | Cleanup => cleanup b
  end.

(** Exactly the layer at [currentIndex] has the class [active]. *)
Definition one_active (b : t) : Prop :=
  forall i l, layers b !! i = Some l -> active l = bool_decide (i = currentIndex b).

End Background.

(** ** Which countdown may run in which phase *)

(** The interval running, if any, is the challenge countdown and the
    phase [q] is typing, or it is the resolution countdown and [q] is
    resolution. *)
Definition kind_ok_for (q : option string) (w : World) : Prop :=
  match timerInterval (st w) with
  | None => intervals (page w) = ∅
  | Some h =>
      (exists endTime, intervals (page w) = {[h := ChallengeTimer endTime]}
                       /\ q = Some "typing")
      \/ (exists startTime r,
             intervals (page w) = {[h := ResolutionTimer startTime r]}
             /\ q = Some "resolution")
  end.

(** The same for the phase of the snapshot held; and a countdown runs
    only once the identity is known. *)
Definition timer_kind_ok (w : World) : Prop :=
  kind_ok_for (phase <$> gameState (st w)) w
  /\ (is_Some (timerInterval (st w)) -> identity_known w = true).

(** An event that does not take the identity away: a [joined_room]
    carries a non-empty player id. *)
Definition keeps_identity (ev : Z * Event) : Prop :=
  match ev.2 with
  | Receive (joined_room player_id _ _) => JS.truthy player_id = true
  | _ => True
  end.

(** ** The frames the client sends *)

(** A frame is well formed: a [select_target] names one target, and a
    [join_room] has a room and a name that are trimmed and not empty
    and a timer that is neither 0 nor NaN. *)
Definition frame_ok (m : ClientMessage) : Prop :=
  match m with
  | select_target target_ids => length target_ids = 1%nat
  | join_room room_id player_name timer_seconds =>
      timer_seconds <> JS.Int 0 /\ timer_seconds <> JS.NaN
      /\ JS.truthy room_id = true /\ JS.trim room_id = room_id
      /\ JS.truthy player_name = true /\ JS.trim player_name = player_name
  | _ => True
  end.

(** A frame a handler sends is a join request that was waiting, or
    a frame other than [join_room], with one target if it is a
    [select_target]. *)
Definition sent_by_handler (w : World) (m : ClientMessage) : Prop :=
  Some m ∈ pendingJoins (page w)
  \/ match m with
     | join_room _ _ _ => False
     | select_target target_ids => length target_ids = 1%nat
     | _ => True
     end.

(** The frames sent are well formed, and so is every join request
    that waits for its socket to open. *)
Definition frames_ok (w : World) : Prop :=
  Forall frame_ok (sent (page w))
  /\ (forall m, Some m ∈ pendingJoins (page w) -> frame_ok m).

(** ** Sample inputs *)

Module Sample.

Definition ann : Player :=
  {| p_id := "p1"; name := "Ann"; hp := 100; max_hp := 100; is_alive := true;
     has_selected_spell := false; has_selected_target := false;
     has_finished_typing := false |}.

Definition bob : Player :=
  {| p_id := "p2"; name := "Bob"; hp := 80; max_hp := 100; is_alive := true;
     has_selected_spell := false; has_selected_target := false;
     has_finished_typing := false |}.

Definition game (tag : string) (hint : option Z) : GameState :=
  {| phase := tag; turn_number := 1; players := [ann; bob];
     typing_phase := None; phase_time_remaining_ms := hint; winner := None |}.

Definition typing_game : GameState :=
  {| phase := "typing"; turn_number := 1; players := [ann; bob];
     typing_phase := Some {| incantation := "abra cadabra"; duration_ms := 5000 |};
     phase_time_remaining_ms := None; winner := None |}.

Definition room (tag : string) : RoomState :=
  {| room_phase := tag; room_id := "r1"; max_players := 2;
     room_players := [("p1", "Ann"); ("p2", "Bob")] |}.

(** Ann joins room r1 of a game in progress. *)
Definition joined : list (Z * Event) :=
  [(0, JoinSubmit "Ann" "example.com" "r1" "45" Created);
   (10, SocketOpen 0);
   (20, Receive (joined_room "p1" "r1" (room "in_progress")))].

(** ... and the typing phase starts at time 1000, for 5000 ms. *)
Definition typing_started : list (Z * Event) :=
  joined ++ [(1000, Receive (game_update typing_game))].

(** Every way to submit, after the whole incantation was typed: the
    queued auto-submit, the button, the Enter key, and the countdown
    running out at 6000. *)
Definition every_trigger : list (Z * Event) :=
  [(3000, TypingInput "abra cadabra");
   (3100, TimeoutFires);
   (3200, SubmitClick);
   (3300, KeyDown "Enter");
   (6000, IntervalFires 1%positive)].

(** The numeral of 10^309, an integer above every double. *)
Definition huge_numeral : string :=
  String "1" (string_of_list_ascii (repeat "0"%char 309)).

(** Ann has been defeated; the next typing phase starts without it. *)
Definition fallen : Player :=
  {| p_id := "p1"; name := "Ann"; hp := 0; max_hp := 100; is_alive := false;
     has_selected_spell := false; has_selected_target := false;
     has_finished_typing := false |}.

Definition fallen_game : GameState :=
  {| phase := "typing"; turn_number := 3; players := [fallen; bob];
     typing_phase := Some {| incantation := "abra cadabra"; duration_ms := 5000 |};
     phase_time_remaining_ms := None; winner := None |}.

End Sample.

(** * Properties *)

(** ** Strings *)

Lemma append_nil_l (r : string) : "" +:+ r = r.
Proof. reflexivity. Qed.

Lemma append_cons (c : ascii) (s r : string) :
  String c s +:+ r = String c (s +:+ r).
Proof. reflexivity. Qed.

Lemma startsWith_append (p r : string) : JS.startsWith (p +:+ r) p = true.
Proof.
  unfold JS.startsWith. induction p as [|c p IH].
  - rewrite append_nil_l. now destruct r.
  - rewrite append_cons. simpl.
    destruct (ascii_dec c c); [exact IH | congruence].
Qed.

Lemma startsWith_split (s p : string) :
  JS.startsWith s p = true -> s = p +:+ JS.slice (String.length p) s.
Proof.
  unfold JS.startsWith. revert s. induction p as [|c p IH]; intros s H.
  - reflexivity.
  - destruct s as [|d s]; simpl in H; [discriminate|].
    destruct (ascii_dec c d) as [->|]; [|discriminate].
    rewrite append_cons. simpl. f_equal. now apply IH.
Qed.

Lemma slice_append (p r : string) : JS.slice (String.length p) (p +:+ r) = r.
Proof.
  induction p as [|c p IH]; [now destruct r|].
  rewrite append_cons. exact IH.
Qed.

Lemma trimStart_clean (s : string) : starts_clean (JS.trimStart s) = true.
Proof.
  induction s as [|c s IH]; simpl; [reflexivity|].
  destruct (JS.is_space c) eqn:E; [exact IH | simpl; now rewrite E].
Qed.

Lemma trimStart_id (s : string) : starts_clean s = true -> JS.trimStart s = s.
Proof.
  destruct s as [|c s]; simpl; [reflexivity|].
  now destruct (JS.is_space c).
Qed.

Lemma trimEnd_clean (s : string) : ends_clean (JS.trimEnd s) = true.
Proof.
  induction s as [|c s IH]; simpl; [reflexivity|].
  destruct (JS.trimEnd s) as [|d r] eqn:E.
  - destruct (JS.is_space c) eqn:Ec; simpl; [reflexivity | now rewrite Ec].
  - exact IH.
Qed.

Lemma trimEnd_id (s : string) : ends_clean s = true -> JS.trimEnd s = s.
Proof.
  induction s as [|c s IH]; simpl; [reflexivity|].
  destruct s as [|d s].
  - simpl. intros H. now destruct (JS.is_space c).
  - intros H. rewrite (IH H). reflexivity.
Qed.

Lemma trimEnd_starts_clean (s : string) :
  starts_clean s = true -> starts_clean (JS.trimEnd s) = true.
Proof.
  destruct s as [|c s]; simpl; [reflexivity|].
  intros H. destruct (JS.trimEnd s); [|exact H].
  destruct (JS.is_space c) eqn:E; [discriminate H | simpl; now rewrite E].
Qed.

Lemma trim_clean (s : string) :
  starts_clean (JS.trim s) = true /\ ends_clean (JS.trim s) = true.
Proof.
  unfold JS.trim. split.
  - apply trimEnd_starts_clean, trimStart_clean.
  - apply trimEnd_clean.
Qed.

Lemma trim_id (s : string) :
  starts_clean s = true -> ends_clean s = true -> JS.trim s = s.
Proof.
  intros H1 H2. unfold JS.trim. rewrite (trimStart_id _ H1). now apply trimEnd_id.
Qed.

Lemma trim_idempotent (s : string) : JS.trim (JS.trim s) = JS.trim s.
Proof. destruct (trim_clean s). now apply trim_id. Qed.

(** ** Address normalisation *)

Lemma wsUrl_of_trimmed (serverUrl : string) :
  connect_wsUrl serverUrl = connect_wsUrl (JS.trim serverUrl).
Proof. unfold connect_wsUrl. now rewrite trim_idempotent. Qed.

(** C7, as stated, fails: an address that starts with [ws://] and
    ends with a blank does not pass through unchanged, and one that
    starts with a blank before [https://] is not treated as bare. *)
Lemma wsUrl_not_unchanged :
  JS.startsWith "ws://x " "ws://" = true
  /\ connect_wsUrl "ws://x " = "ws://x"
  /\ connect_wsUrl "ws://x " <> "ws://x "
  /\ JS.startsWith " https://x" "ws://" = false
  /\ JS.startsWith " https://x" "wss://" = false
  /\ connect_wsUrl " https://x" = "wss://x"
  /\ connect_wsUrl " https://x" <> "ws://" +:+ " https://x".
Proof. repeat split; try reflexivity; discriminate. Qed.

(** C7 (amended): the address is trimmed first, and the four rules
    then hold of the trimmed address [a]: [https://host] becomes
    [wss://host], [http://host] becomes [ws://host], an address with
    one of the two socket schemes stays as it is, and any other
    address gets [ws://] in front.  An address without surrounding
    white space is its own trimmed form. *)
Theorem wsUrl_normalization (serverUrl host : string) :
  let a := JS.trim serverUrl in
  (a = "https://" +:+ host -> connect_wsUrl serverUrl = "wss://" +:+ host)
  /\ (a = "http://" +:+ host -> connect_wsUrl serverUrl = "ws://" +:+ host)
  /\ (JS.startsWith a "ws://" = true \/ JS.startsWith a "wss://" = true ->
      connect_wsUrl serverUrl = a)
  /\ (JS.startsWith a "https://" = false -> JS.startsWith a "http://" = false ->
      JS.startsWith a "ws://" = false -> JS.startsWith a "wss://" = false ->
      connect_wsUrl serverUrl = "ws://" +:+ a)
  /\ (starts_clean serverUrl = true -> ends_clean serverUrl = true ->
      a = serverUrl).
Proof.
  intros a. unfold connect_wsUrl. fold a. repeat split.
  - intros ->. rewrite (startsWith_append "https://" host).
    now rewrite (slice_append "https://" host
                   : JS.slice 8 ("https://" +:+ host) = host).
  - intros ->.
    assert (JS.startsWith ("http://" +:+ host) "https://" = false) as ->.
    { simpl. destruct host as [|c host]; [reflexivity|].
      unfold JS.startsWith. simpl. reflexivity. }
    rewrite (startsWith_append "http://" host).
    now rewrite (slice_append "http://" host
                   : JS.slice 7 ("http://" +:+ host) = host).
  - intros H.
    assert (JS.startsWith a "https://" = false) as ->.
    { destruct (JS.startsWith a "https://") eqn:E; [|reflexivity].
      apply startsWith_split in E. rewrite E in H. simpl in H.
      destruct H; discriminate. }
    assert (JS.startsWith a "http://" = false) as ->.
    { destruct (JS.startsWith a "http://") eqn:E; [|reflexivity].
      apply startsWith_split in E. rewrite E in H. simpl in H.
      destruct H; discriminate. }
    destruct H as [-> | ->]; simpl; [reflexivity|].
    now destruct (JS.startsWith a "ws://").
  - intros -> -> -> ->. reflexivity.
  - intros H1 H2. now apply trim_id.
Qed.

(** The rules at three addresses, one of them with white space around
    it. *)
Lemma wsUrl_normalization_witness :
  connect_wsUrl " https://example.com " = "wss://example.com"
  /\ connect_wsUrl "http://example.com" = "ws://example.com"
  /\ connect_wsUrl "wss://x" = "wss://x"
  /\ connect_wsUrl "example.com" = "ws://example.com".
Proof.
  split; [|split; [|split]].
  - exact (proj1 (wsUrl_normalization " https://example.com " "example.com") eq_refl).
  - exact (proj1 (proj2 (wsUrl_normalization "http://example.com" "example.com")) eq_refl).
  - exact (proj1 (proj2 (proj2 (wsUrl_normalization "wss://x" "")))
             (or_intror eq_refl)).
  - exact (proj1 (proj2 (proj2 (proj2 (wsUrl_normalization "example.com" ""))))
             eq_refl eq_refl eq_refl eq_refl).
Defined.

(** ** The join form *)

Lemma digit_not_decimal (c : ascii) :
  is_decimal_digit c = false -> JS.digit 10 c = None.
Proof.
  unfold is_decimal_digit, JS.digit. intros H.
  set (n := nat_of_ascii c) in *.
  destruct (48 <=? Z.of_nat n) eqn:E1; destruct (Z.of_nat n <=? 57) eqn:E2;
    simpl.
  - exfalso. apply andb_false_iff in H.
    destruct H as [H|H]; [apply Nat.leb_gt in H | apply Nat.leb_gt in H]; lia.
  - destruct ((97 <=? Z.of_nat n) && (Z.of_nat n <=? 102)) eqn:E3.
    + destruct (Z.of_nat n - 87 <? 10) eqn:E4; [|reflexivity]. lia.
    + destruct ((65 <=? Z.of_nat n) && (Z.of_nat n <=? 70)) eqn:E5; [|reflexivity].
      destruct (Z.of_nat n - 55 <? 10) eqn:E4; [|reflexivity]. lia.
  - destruct ((97 <=? Z.of_nat n) && (Z.of_nat n <=? 102)) eqn:E3; [lia|].
    destruct ((65 <=? Z.of_nat n) && (Z.of_nat n <=? 70)) eqn:E5; [lia|].
    reflexivity.
  - destruct ((97 <=? Z.of_nat n) && (Z.of_nat n <=? 102)) eqn:E3; [lia|].
    destruct ((65 <=? Z.of_nat n) && (Z.of_nat n <=? 70)) eqn:E5; [lia|].
    reflexivity.
Qed.

Lemma digits_not_decimal (s : string) :
  match s with String c _ => is_decimal_digit c | EmptyString => false end = false ->
  JS.digits 10 None s = None.
Proof.
  destruct s as [|c s]; simpl; [reflexivity|].
  intros H. now rewrite (digit_not_decimal c H).
Qed.

Lemma mathInt_not_numeric (s : string) :
  starts_numeric s = false -> JS.mathInt s = None.
Proof.
  unfold starts_numeric, JS.mathInt.
  destruct (JS.trimStart s) as [|c s1]; [reflexivity|].
  intros H.
  assert (forall r : string,
             match r with String c _ => is_decimal_digit c | EmptyString => false end
             = false ->
             (let '(radix, s3) :=
                match r with
                | String "0" (String "x" r') => (16, r')
                | String "0" (String "X" r') => (16, r')
                | _ => (10, r)
                end in JS.digits radix None s3) = None) as Hr.
  { intros r Hd. destruct r as [|d r]; [reflexivity|].
    destruct (ascii_dec d "0") as [->|Hn]; [discriminate Hd|].
    assert ((match String d r with
             | String "0" (String "x" r') => (16, r')
             | String "0" (String "X" r') => (16, r')
             | _ => (10, String d r)
             end) = (10, String d r)) as ->.
    { destruct d as [[] [] [] [] [] [] [] []]; try reflexivity.
      now contradiction Hn. }
    now apply digits_not_decimal. }
  destruct (ascii_dec c "-") as [->|Hm].
  { specialize (Hr s1 H).
    destruct (match s1 with
              | String "0" (String "x" r') => (16, r')
              | String "0" (String "X" r') => (16, r')
              | _ => (10, s1)
              end) as [radix s3]. now rewrite Hr. }
  destruct (ascii_dec c "+") as [->|Hp].
  { specialize (Hr s1 H).
    destruct (match s1 with
              | String "0" (String "x" r') => (16, r')
              | String "0" (String "X" r') => (16, r')
              | _ => (10, s1)
              end) as [radix s3]. now rewrite Hr. }
  assert ((match String c s1 with
           | String "-" r => (-1, r)
           | String "+" r => (1, r)
           | _ => (1, String c s1)
           end) = (1, String c s1)) as Hs.
  { destruct c as [[] [] [] [] [] [] [] []]; try reflexivity;
      [now contradiction Hp | now contradiction Hm]. }
  assert ((match String c s1 with
           | String "-" r => r
           | String "+" r => r
           | _ => String c s1
           end) = String c s1) as Hs'.
  { destruct c as [[] [] [] [] [] [] [] []]; try reflexivity;
      [now contradiction Hp | now contradiction Hm]. }
  rewrite Hs. rewrite Hs' in H. specialize (Hr (String c s1) H).
  destruct (match String c s1 with
            | String "0" (String "x" r') => (16, r')
            | String "0" (String "X" r') => (16, r')
            | _ => (10, String c s1)
            end) as [radix s3]. now rewrite Hr.
Qed.

Lemma parseInt_not_numeric (s : string) :
  starts_numeric s = false -> JS.parseInt s = JS.NaN.
Proof. intros H. unfold JS.parseInt. now rewrite (mathInt_not_numeric s H). Qed.

(** An integer of magnitude up to 2^53 is a double. *)
Lemma to_double_exact (n : Z) : Z.abs n <= 2 ^ 53 -> JS.to_double n = JS.Int n.
Proof.
  intros H.
  destruct (Z.eq_dec (Z.abs n) (2 ^ 53)) as [E|E].
  { destruct (Z.abs_eq_or_opp n) as [Hn|Hn]; rewrite Hn in E.
    - now rewrite E.
    - replace n with (- 2 ^ 53) by lia. reflexivity. }
  unfold JS.to_double. cbv zeta.
  destruct (Z.leb_spec (Z.log2 (Z.abs n) + 1) 53) as [_|Hb]; [reflexivity|].
  exfalso.
  destruct (Z.eq_dec (Z.abs n) 0) as [Ez|Ez]; [rewrite Ez in Hb; simpl in Hb; lia|].
  assert (Z.log2 (Z.abs n) < 53); [|lia].
  apply Z.log2_lt_pow2; lia.
Qed.

(** The double of an integer other than 0 is truthy. *)
Lemma to_double_truthy (n : Z) :
  n <> 0 -> JS.truthy_number (JS.to_double n) = true.
Proof.
  intros Hn. unfold JS.to_double. cbv zeta.
  destruct (Z.leb_spec (Z.log2 (Z.abs n) + 1) 53) as [_|Hb].
  { simpl. now destruct (Z.eqb_spec n 0). }
  set (a := Z.abs n) in *. set (shift := Z.log2 a + 1 - 53) in *.
  set (q := Z.shiftr a shift).
  match goal with
  | |- context [if ?b then q + 1 else q] => set (q' := if b then q + 1 else q)
  end.
  destruct (2 ^ 1024 <=? Z.shiftl q' shift); [reflexivity|].
  simpl. apply negb_true_iff, Z.eqb_neq.
  assert (0 < a) as Ha by (subst a; lia).
  assert (0 < shift) as Hs by (subst shift; lia).
  assert (1 <= q) as Hq.
  { subst q. rewrite Z.shiftr_div_pow2 by lia.
    apply Z.div_le_lower_bound; [apply Z.pow_pos_nonneg; lia|].
    rewrite Z.mul_1_r.
    transitivity (2 ^ Z.log2 a); [|apply Z.log2_spec; lia].
    apply Z.pow_le_mono_r; [lia|]. subst shift. lia. }
  assert (1 <= q') as Hq'.
  { subst q'. destruct (_ || _); lia. }
  rewrite Z.shiftl_mul_pow2 by lia.
  assert (0 < 2 ^ shift) by (apply Z.pow_pos_nonneg; lia).
  assert (Z.sgn n <> 0) by (destruct n; simpl; lia).
  nia.
Qed.

(** C10: the [join_room] message sent once the socket opens carries
    the trimmed room and name and, as [timer_seconds],
    [parseInt(input) || 30].  That is the integer the input spells
    when it is not 0 and at most 2^53 in magnitude, which the frame
    then carries as it is; beyond that, the double nearest to it (or
    an infinity); and 30 when the integer is 0, when there is none,
    and so when the input is empty or does not start with a number. *)
Theorem join_room_timer_seconds
    (playerNameInput serverUrlInput roomIdInput timerSecondsInput : string)
    (w : World) :
  JS.truthy (JS.trim playerNameInput) = true ->
  JS.truthy (JS.trim serverUrlInput) = true ->
  JS.truthy (JS.trim roomIdInput) = true ->
  let w' := ws_onopen (length (pendingJoins (page w)))
              (joinForm_submit playerNameInput serverUrlInput
                 roomIdInput timerSecondsInput Created w) in
  sent (page w')
  = sent (page w)
    ++ [join_room (JS.trim roomIdInput) (JS.trim playerNameInput)
          (timerSeconds timerSecondsInput)]
  /\ (forall n, JS.mathInt timerSecondsInput = Some n -> n <> 0 ->
             Z.abs n <= 2 ^ 53 ->
             timerSeconds timerSecondsInput = JS.Int n
             /\ JS.JSON_number (timerSeconds timerSecondsInput) = Some n)
  /\ (forall n, JS.mathInt timerSecondsInput = Some n -> n <> 0 ->
             timerSeconds timerSecondsInput = JS.to_double n)
  /\ (JS.mathInt timerSecondsInput = Some 0 ->
      timerSeconds timerSecondsInput = JS.Int 30)
  /\ (JS.mathInt timerSecondsInput = None ->
      timerSeconds timerSecondsInput = JS.Int 30)
  /\ (timerSecondsInput = "" -> timerSeconds timerSecondsInput = JS.Int 30)
  /\ (starts_numeric timerSecondsInput = false ->
      timerSeconds timerSecondsInput = JS.Int 30).
Proof.
  intros Hn Hu Hr w'. subst w'.
  assert (forall n, JS.mathInt timerSecondsInput = Some n -> n <> 0 ->
                    timerSeconds timerSecondsInput = JS.to_double n) as Hgen.
  { intros n Hp Hz. unfold timerSeconds, JS.parseInt. cbv zeta. rewrite Hp.
    now rewrite to_double_truthy. }
  split; [|split; [|split; [|split; [|split; [|split]]]]].
  - unfold joinForm_submit. cbv zeta. rewrite Hn, Hu, Hr. simpl negb. simpl orb.
    cbv iota. unfold ws_onopen, set_readyState, settle. cbn.
    rewrite Nat.eqb_refl. cbn.
    rewrite lookup_app_r by lia. rewrite Nat.sub_diag. cbn.
    unfold send, ws_open. cbn. reflexivity.
  - intros n Hp Hz Hb. rewrite (Hgen n Hp Hz), (to_double_exact n Hb). now split.
  - exact Hgen.
  - intros Hp. unfold timerSeconds, JS.parseInt. now rewrite Hp.
  - intros Hp. unfold timerSeconds, JS.parseInt. now rewrite Hp.
  - intros ->. reflexivity.
  - intros Hs. unfold timerSeconds. now rewrite (parseInt_not_numeric _ Hs).
Qed.

Lemma join_room_timer_seconds_witness :
  sent (page (ws_onopen 0
                (joinForm_submit " Ann" "example.com" "r1 " "45s" Created initial)))
  = [join_room "r1" "Ann" (JS.Int 45)]
  /\ timerSeconds "abc" = JS.Int 30
  /\ timerSeconds "0" = JS.Int 30.
Proof.
  split; [|split].
  - exact (proj1 (join_room_timer_seconds " Ann" "example.com" "r1 " "45s" initial
                    eq_refl eq_refl eq_refl)).
  - exact (proj2 (proj2 (proj2 (proj2 (proj2 (proj2
             (join_room_timer_seconds "a" "b" "c" "abc" initial
                eq_refl eq_refl eq_refl)))))) eq_refl).
  - exact (proj1 (proj2 (proj2 (proj2
             (join_room_timer_seconds "a" "b" "c" "0" initial
                eq_refl eq_refl eq_refl)))) eq_refl).
Defined.

(** The timer is not always the integer the input spells: 2^53 + 1 is
    sent as 2^53, the double nearest to it, and the numeral of 10^309
    gives an infinity, which the frame carries as [null]. *)
Lemma join_room_timer_not_the_integer :
  JS.mathInt "9007199254740993" = Some 9007199254740993
  /\ sent (page (ws_onopen 0
                   (joinForm_submit "Ann" "example.com" "r1" "9007199254740993"
                      Created initial)))
     = [join_room "r1" "Ann" (JS.Int 9007199254740992)]
  /\ JS.mathInt Sample.huge_numeral = Some (10 ^ 309)
  /\ sent (page (ws_onopen 0
                   (joinForm_submit "Ann" "example.com" "r1" Sample.huge_numeral
                      Created initial)))
     = [join_room "r1" "Ann" (JS.Infinity false)]
  /\ JS.JSON_number (JS.Infinity false) = None.
Proof.
  split; [vm_compute; reflexivity|]. split; [vm_compute; reflexivity|].
  split; [vm_compute; reflexivity|]. split; [vm_compute; reflexivity|].
  reflexivity.
Qed.

(** Settles a goal about a field the join form and the socket
    handlers do not write. *)
Ltac socket_frame :=
  unfold joinForm_submit, ws_onopen, ws_onerror, ws_onclose, set_readyState,
    settle, send, showError, hideError;
  repeat case_match; reflexivity.

(** ** The countdowns share one handle *)

Section TimerInvariant.

Lemma timer_inv_frame (w w' : World) :
  timerInterval (st w') = timerInterval (st w) ->
  intervals (page w') = intervals (page w) ->
  timer_inv w -> timer_inv w'.
Proof. unfold timer_inv. now intros -> ->. Qed.

Lemma timer_inv_on_st (f : State -> State) (w : World) :
  (forall s, timerInterval (f s) = timerInterval s) ->
  timer_inv w -> timer_inv (on_st f w).
Proof. intros H. apply timer_inv_frame; [apply H | reflexivity]. Qed.

Lemma timer_inv_on_page (f : Page -> Page) (w : World) :
  (forall p, intervals (f p) = intervals p) ->
  timer_inv w -> timer_inv (on_page f w).
Proof. intros H. apply timer_inv_frame; [reflexivity | apply H]. Qed.

Lemma timer_inv_send (m : ClientMessage) (w : World) :
  timer_inv w -> timer_inv (send m w).
Proof.
  unfold send. destruct (ws_open w); [|trivial].
  now apply timer_inv_on_page.
Qed.

Lemma timer_inv_stopTimer (w : World) : timer_inv w -> timer_inv (stopTimer w).
Proof.
  unfold stopTimer, timer_inv.
  destruct (timerInterval (st w)) as [h|] eqn:E; [|now rewrite E].
  intros [t Ht]. simpl. rewrite Ht. apply delete_singleton_eq.
Qed.

Lemma timer_inv_setInterval (t : Timer) (w : World) :
  timerInterval (st w) = None -> timer_inv w -> timer_inv (setInterval t w).
Proof.
  unfold timer_inv, setInterval. intros ->. simpl. intros ->.
  exists t. apply insert_empty.
Qed.

Lemma timer_inv_startTimer (d : Z) (w : World) :
  timer_inv w -> timer_inv (startTimer d w).
Proof.
  unfold startTimer. destruct (timerInterval (st w)) eqn:E; [trivial|].
  now apply timer_inv_setInterval.
Qed.

Lemma timer_inv_startResolutionTimer (now : Z) (w : World) :
  timer_inv w -> timer_inv (startResolutionTimer now w).
Proof.
  unfold startResolutionTimer. destruct (timerInterval (st w)) eqn:E; [trivial|].
  destruct (gameState (st w)) as [g|]; [|trivial].
  destruct (phase_time_remaining_ms g); [|trivial].
  now apply timer_inv_setInterval.
Qed.

Lemma timer_inv_submitTyping (finished : bool) (now : Z) (w : World) :
  timer_inv w -> timer_inv (submitTyping finished now w).
Proof.
  unfold submitTyping, showWaiting. destruct (typingSubmitted (st w)); [trivial|].
  intros H. apply timer_inv_on_page; [reflexivity|].
  apply timer_inv_stopTimer, timer_inv_send.
  now apply timer_inv_on_st.
Qed.

Lemma timer_inv_intervalFires (h : positive) (now : Z) (w : World) :
  timer_inv w -> timer_inv (intervalFires h now w).
Proof.
  unfold intervalFires. intros H.
  destruct (intervals (page w) !! h) as [[endTime|startTime initialRemaining]|];
    [| |trivial].
  - unfold challengeTick.
    set (w1 := on_page _ w).
    assert (timer_inv w1) as H1 by now apply timer_inv_on_page.
    destruct (Z.max 0 (endTime - now) <=? 0); [|trivial].
    destruct (negb (typingSubmitted (st (stopTimer w1)))).
    + now apply timer_inv_submitTyping, timer_inv_stopTimer.
    + now apply timer_inv_stopTimer.
  - unfold resolutionTick.
    set (w1 := on_page _ w).
    assert (timer_inv w1) as H1 by now apply timer_inv_on_page.
    destruct (_ <=? 0); [now apply timer_inv_stopTimer | trivial].
Qed.

Lemma timer_inv_renderGame (now : Z) (w : World) :
  timer_inv w -> timer_inv (renderGame now w).
Proof.
  unfold renderGame. intros H.
  destruct (gameState (st w)) as [g|]; [|trivial].
  destruct (negb (identity_known w)); [trivial|].
  set (w1 := on_page _ w).
  assert (timer_inv w1) as H1 by now apply timer_inv_on_page.
  destruct (find_self g w1) as [self|]; [|trivial].
  destruct (negb (is_alive self)).
  { now apply timer_inv_on_page. }
  destruct (String.eqb (phase g) "spell_selection").
  { unfold renderSpellSelection. destruct (has_selected_spell self); [|trivial].
    now apply timer_inv_on_page. }
  destruct (String.eqb (phase g) "target_selection").
  { unfold renderTargetSelection. destruct (has_selected_target self); [|trivial].
    now apply timer_inv_on_page. }
  destruct (String.eqb (phase g) "typing"); [|trivial].
  unfold renderTypingPhase.
  destruct (has_finished_typing self || typingSubmitted (st w1)).
  { now apply timer_inv_on_page. }
  destruct (typing_phase g) as [typing|]; [|trivial].
  apply timer_inv_on_page; [reflexivity|].
  apply timer_inv_on_page; [reflexivity|].
  destruct (isFirstRender w1); [|trivial].
  apply timer_inv_startTimer.
  apply timer_inv_on_st; [reflexivity|].
  now apply timer_inv_on_page.
Qed.

Lemma timer_inv_edgeAction (now : Z) (w : World) (e : Edge) :
  timer_inv w -> timer_inv (edgeAction now w e).
Proof.
  intros H. destruct e; simpl.
  - apply timer_inv_stopTimer. now apply timer_inv_on_st.
  - apply timer_inv_stopTimer. now apply timer_inv_on_st.
  - now apply timer_inv_startResolutionTimer.
  - now apply timer_inv_stopTimer.
Qed.

End TimerInvariant.

(** ** Phase edges *)

Lemma phase_is_spec (previous : option string) (tag : string) :
  phase_is previous tag = bool_decide (previous = Some tag).
Proof.
  destruct previous as [p|]; unfold phase_is; symmetry.
  - destruct (String.eqb_spec p tag) as [->|Hn].
    + now apply bool_decide_eq_true_2.
    + apply bool_decide_eq_false_2. congruence.
  - now apply bool_decide_eq_false_2.
Qed.

Lemma eqb_decide (a b : string) : String.eqb a b = bool_decide (a = b).
Proof.
  symmetry. destruct (String.eqb_spec a b).
  - now apply bool_decide_eq_true_2.
  - now apply bool_decide_eq_false_2.
Qed.

Lemma enter_test (previous : option string) (new tag : string) :
  String.eqb new tag && negb (phase_is previous tag)
  = bool_decide (new = tag /\ previous <> Some tag).
Proof.
  rewrite phase_is_spec, eqb_decide.
  repeat case_bool_decide; simpl; tauto.
Qed.

Lemma leave_test (previous : option string) (new tag : string) :
  phase_is previous tag && negb (String.eqb new tag)
  = bool_decide (previous = Some tag /\ new <> tag).
Proof.
  rewrite phase_is_spec, eqb_decide.
  repeat case_bool_decide; simpl; tauto.
Qed.

(** [handleGameUpdate] stores the snapshot and, once the identity is
    known, runs the action of every edge crossed, in the order of the
    table, and then presents the snapshot. *)
Lemma handleGameUpdate_edges (now : Z) (g : GameState) (w : World) :
  handleGameUpdate now g w
  = let w1 := on_st (State_set_gameState (Some g)) w in
    if identity_known w then
      present now g
        (foldl (edgeAction now) w1 (edges (phase <$> gameState (st w)) (phase g)))
    else w1.
Proof.
  unfold handleGameUpdate, present, edges.
  change (identity_known (on_st (State_set_gameState (Some g)) w))
    with (identity_known w).
  destruct (identity_known w); [|reflexivity]. simpl negb. cbv iota.
  rewrite !enter_test, !leave_test.
  set (previous := phase <$> gameState (st w)).
  change (bool_decide (phase g = "spell_selection" /\ previous <> Some "spell_selection"))
    with (bool_decide (crosses previous (phase g) EnterSelection)).
  change (bool_decide (previous = Some "typing" /\ phase g <> "typing"))
    with (bool_decide (crosses previous (phase g) LeaveTyping)).
  change (bool_decide (phase g = "resolution" /\ previous <> Some "resolution"))
    with (bool_decide (crosses previous (phase g) EnterResolution)).
  change (bool_decide (previous = Some "resolution" /\ phase g <> "resolution"))
    with (bool_decide (crosses previous (phase g) LeaveResolution)).
  rewrite !filter_cons, filter_nil.
  unfold bool_decide, decide. cbv beta.
  destruct (crosses_dec previous (phase g) EnterSelection);
    destruct (crosses_dec previous (phase g) LeaveTyping);
    destruct (crosses_dec previous (phase g) EnterResolution);
    destruct (crosses_dec previous (phase g) LeaveResolution);
    cbn [foldl edgeAction]; reflexivity.
Qed.

Lemma edges_same_phase (p : string) : edges (Some p) p = [].
Proof.
  unfold edges. rewrite !filter_cons, filter_nil.
  repeat case_decide; try reflexivity;
    match goal with H : crosses _ _ _ |- _ => destruct H; congruence end.
Qed.

Lemma edges_NoDup (previous : option string) (new : string) :
  NoDup (edges previous new).
Proof.
  apply NoDup_filter. compute_done.
Qed.

Lemma edges_spec (previous : option string) (new : string) (e : Edge) :
  e ∈ edges previous new <-> crosses previous new e.
Proof.
  unfold edges. rewrite list_elem_of_filter.
  split; [tauto|]. intros H. split; [exact H|]. destruct e; compute_done.
Qed.

(** ** What the handlers leave alone *)

(** Unfolds the operations on the world down to the record fields. *)
Ltac unfold_ops :=
  unfold present, showGameOver, showLobby, renderGame, renderTypingPhase,
    renderSpellSelection, renderTargetSelection, submitTyping,
    startResolutionTimer, startTimer, stopTimer, setInterval, send,
    showWaiting, showScreen, showError, hideError in *.

(** Settles a goal about fields the operations do not write. *)
Ltac frame := intros; unfold_ops; repeat case_match; simpl in *; congruence.

Lemma renderGame_session (now : Z) (w : World) :
  playerId (st (renderGame now w)) = playerId (st w)
  /\ gameState (st (renderGame now w)) = gameState (st w)
  /\ ws (st (renderGame now w)) = ws (st w)
  /\ sent (page (renderGame now w)) = sent (page w).
Proof. repeat split; frame. Qed.

Lemma edgeAction_session (now : Z) (w : World) (e : Edge) :
  playerId (st (edgeAction now w e)) = playerId (st w)
  /\ gameState (st (edgeAction now w e)) = gameState (st w)
  /\ ws (st (edgeAction now w e)) = ws (st w)
  /\ sent (page (edgeAction now w e)) = sent (page w).
Proof. destruct e; repeat split; unfold edgeAction; frame. Qed.

Lemma edgeActions_session (now : Z) (es : list Edge) (w : World) :
  playerId (st (foldl (edgeAction now) w es)) = playerId (st w)
  /\ gameState (st (foldl (edgeAction now) w es)) = gameState (st w)
  /\ ws (st (foldl (edgeAction now) w es)) = ws (st w)
  /\ sent (page (foldl (edgeAction now) w es)) = sent (page w).
Proof.
  revert w. induction es as [|e es IH]; intros w; simpl; [tauto|].
  destruct (IH (edgeAction now w e)) as (-> & -> & -> & ->).
  apply edgeAction_session.
Qed.

Lemma present_session (now : Z) (g : GameState) (w : World) :
  playerId (st (present now g w)) = playerId (st w)
  /\ gameState (st (present now g w)) = gameState (st w)
  /\ ws (st (present now g w)) = ws (st w)
  /\ sent (page (present now g w)) = sent (page w).
Proof. repeat split; frame. Qed.

Lemma handleGameUpdate_session (now : Z) (g : GameState) (w : World) :
  playerId (st (handleGameUpdate now g w)) = playerId (st w)
  /\ gameState (st (handleGameUpdate now g w)) = Some g
  /\ ws (st (handleGameUpdate now g w)) = ws (st w)
  /\ sent (page (handleGameUpdate now g w)) = sent (page w).
Proof.
  rewrite handleGameUpdate_edges. cbv zeta.
  destruct (identity_known w); [|now repeat split].
  destruct (present_session now g
              (foldl (edgeAction now) (on_st (State_set_gameState (Some g)) w)
                 (edges (phase <$> gameState (st w)) (phase g))))
    as (-> & -> & -> & ->).
  destruct (edgeActions_session now (edges (phase <$> gameState (st w)) (phase g))
              (on_st (State_set_gameState (Some g)) w))
    as (-> & -> & -> & ->).
  now repeat split.
Qed.

Lemma timer_inv_handleGameUpdate (now : Z) (g : GameState) (w : World) :
  timer_inv w -> timer_inv (handleGameUpdate now g w).
Proof.
  intros H. rewrite handleGameUpdate_edges. cbv zeta.
  assert (timer_inv (on_st (State_set_gameState (Some g)) w)) as H1
      by now apply timer_inv_on_st.
  destruct (identity_known w); [|exact H1].
  assert (forall es w0, timer_inv w0 -> timer_inv (foldl (edgeAction now) w0 es))
    as Hes.
  { induction es as [|e es IH]; intros w0 H0; simpl; [exact H0|].
    now apply IH, timer_inv_edgeAction. }
  unfold present. destruct (String.eqb (phase g) "game_over").
  - apply timer_inv_on_page; [reflexivity | now apply Hes].
  - apply timer_inv_renderGame, timer_inv_on_page; [reflexivity | now apply Hes].
Qed.

Lemma timer_inv_handleJoinedRoom (now : Z) (i r : string) (rs : RoomState)
    (w : World) :
  timer_inv w -> timer_inv (handleJoinedRoom now i r rs w).
Proof.
  intros H. unfold handleJoinedRoom.
  set (w1 := on_st (State_set_roomState (Some rs)) _).
  assert (timer_inv w1) as H1.
  { subst w1. repeat (apply timer_inv_on_st; [reflexivity|]). exact H. }
  destruct (String.eqb (room_phase rs) "waiting_for_players").
  { now apply timer_inv_on_page. }
  destruct (gameState (st (showScreen "game-screen" w1))) as [g|].
  - assert (timer_inv (renderGame now (showScreen "game-screen" w1))) as H2.
    { apply timer_inv_renderGame. now apply timer_inv_on_page. }
    destruct (String.eqb (phase g) "resolution"); [|exact H2].
    now apply timer_inv_startResolutionTimer.
  - now apply timer_inv_on_page.
Qed.

Lemma timer_inv_step (w : World) (ev : Z * Event) :
  timer_inv w -> timer_inv (step w ev).
Proof.
  destruct ev as [now e]. intros H. destruct e; simpl.
  - destruct msg as [i r rs|m|rs|g| |tag]; unfold handleServerMessage.
    + now apply timer_inv_handleJoinedRoom.
    + now apply timer_inv_on_page.
    + now apply timer_inv_on_st.
    + now apply timer_inv_handleGameUpdate.
    + exact H.
    + exact H.
  - now apply timer_inv_intervalFires.
  - unfold autoSubmit_timeout. destruct (pendingAutoSubmit (page w)); [exact H|].
    set (w1 := on_page _ w).
    assert (timer_inv w1) as H1 by now apply timer_inv_on_page.
    destruct (negb (typingSubmitted (st w1))); [|exact H1].
    now apply timer_inv_submitTyping.
  - unfold typingInput_oninput.
    set (w1 := on_page _ w).
    assert (timer_inv w1) as H1 by now apply timer_inv_on_page.
    destruct (typingHandlers (page w1)); [|exact H1].
    destruct (_ <=? _)%nat; repeat (apply timer_inv_on_page; [reflexivity|]);
      exact H1.
  - unfold submitTypingBtn_onclick. destruct (typingHandlers (page w)); [|exact H].
    now apply timer_inv_submitTyping.
  - unfold typingInput_onkeydown. destruct (typingHandlers (page w)); [|exact H].
    destruct (String.eqb key "Enter"); [|exact H].
    now apply timer_inv_submitTyping.
  - apply timer_inv_send. now apply timer_inv_on_st.
  - apply timer_inv_send. now apply timer_inv_on_st.
  - now apply timer_inv_send.
  - apply (timer_inv_frame w); [socket_frame.. | exact H].
  - apply (timer_inv_frame w); [socket_frame.. | exact H].
  - apply (timer_inv_frame w); [socket_frame.. | exact H].
  - apply (timer_inv_frame w); [socket_frame.. | exact H].
  - unfold keepAlive. destruct (ws_open w); [|exact H]. now apply timer_inv_send.
Qed.

Lemma timer_inv_run (evs : list (Z * Event)) (w : World) :
  timer_inv w -> timer_inv (run evs w).
Proof.
  revert w. induction evs as [|ev evs IH]; intros w H; simpl; [exact H|].
  now apply IH, timer_inv_step.
Qed.

Lemma timer_inv_reachable (w : World) : reachable w -> timer_inv w.
Proof. intros [evs ->]. now apply timer_inv_run. Qed.

(** C8: while [state.timerInterval] holds a handle, [startTimer] and
    [startResolutionTimer] return the world they were given; and in
    every world the page can reach, at most one interval is running,
    the one [state.timerInterval] names, so the challenge countdown and
    the resolution countdown never run together. *)
Theorem start_is_noop_one_countdown (w : World) (durationMs now : Z) :
  (is_Some (timerInterval (st w)) ->
   startTimer durationMs w = w /\ startResolutionTimer now w = w)
  /\ (reachable w ->
      (size (intervals (page w)) <= 1)%nat
      /\ (forall h t, intervals (page w) !! h = Some t ->
                      timerInterval (st w) = Some h)
      /\ (forall h1 t1 h2 t2,
             intervals (page w) !! h1 = Some t1 ->
             intervals (page w) !! h2 = Some t2 -> h1 = h2 /\ t1 = t2)).
Proof.
  split.
  - intros [h Hh]. unfold startTimer, startResolutionTimer. now rewrite Hh.
  - intros Hr. apply timer_inv_reachable in Hr. unfold timer_inv in Hr.
    destruct (timerInterval (st w)) as [h|].
    + destruct Hr as [t Ht]. rewrite Ht. split; [|split].
      * now rewrite map_size_singleton.
      * intros h' t' Hl. apply lookup_singleton_Some in Hl. now destruct Hl as [-> _].
      * intros h1 t1 h2 t2 H1 H2.
        apply lookup_singleton_Some in H1, H2.
        destruct H1 as [<- <-], H2 as [<- <-]. now split.
    + rewrite Hr. split; [|split].
      * rewrite map_size_empty. lia.
      * intros h t Hl. now rewrite lookup_empty in Hl.
      * intros h1 t1 h2 t2 Hl. now rewrite lookup_empty in Hl.
Qed.

(** In the typing phase of the sample run the challenge countdown is
    the only interval, and starting either countdown changes nothing. *)
Lemma start_is_noop_one_countdown_witness :
  intervals (page (run Sample.typing_started initial)) !! 1%positive
  = Some (ChallengeTimer 6000)
  /\ startTimer 5000 (run Sample.typing_started initial)
     = run Sample.typing_started initial
  /\ startResolutionTimer 2000 (run Sample.typing_started initial)
     = run Sample.typing_started initial
  /\ (size (intervals (page (run Sample.typing_started initial))) <= 1)%nat.
Proof.
  pose proof (start_is_noop_one_countdown
                (run Sample.typing_started initial) 5000 2000) as [Hn Ho].
  destruct (Hn (ex_intro _ 1%positive eq_refl)) as [H1 H2].
  destruct (Ho (ex_intro _ Sample.typing_started eq_refl)) as (H3 & _ & _).
  split; [reflexivity|]. split; [exact H1|]. split; [exact H2 | exact H3].
Defined.

(** ** A snapshot that arrives before the identity *)

Lemma handleGameUpdate_buffers (now : Z) (g : GameState) (w : World) :
  identity_known w = false ->
  handleGameUpdate now g w = on_st (State_set_gameState (Some g)) w.
Proof. intros H. rewrite handleGameUpdate_edges. cbv zeta. now rewrite H. Qed.

Lemma renderGame_resolution (now : Z) (g : GameState) (w : World) :
  gameState (st w) = Some g -> phase g = "resolution" ->
  timerInterval (st (renderGame now w)) = timerInterval (st w)
  /\ intervals (page (renderGame now w)) = intervals (page w)
  /\ nextHandle (page (renderGame now w)) = nextHandle (page w)
  /\ gameState (st (renderGame now w)) = Some g.
Proof.
  intros Hg Hp. unfold renderGame. rewrite Hg, Hp.
  change (String.eqb "resolution" "spell_selection") with false.
  change (String.eqb "resolution" "target_selection") with false.
  change (String.eqb "resolution" "typing") with false.
  cbv iota.
  destruct (negb (identity_known w)); [now rewrite Hg|].
  destruct (find_self g _); [|now rewrite <- Hg].
  destruct (negb (is_alive p)); now rewrite <- Hg.
Qed.

(** C1, as stated, fails in two ways.  A [joined_room] whose room is
    still waiting for players shows the lobby and starts nothing; and
    a resolution snapshot without [phase_time_remaining_ms] gives
    [startResolutionTimer] nothing to count down from.  In both runs
    the buffered phase is resolution and no interval is running after
    [joined_room], nor after a further update of the same phase. *)
Lemma join_without_countdown :
  (let w := run [(5, Receive (game_update (Sample.game "resolution" (Some 8000))));
                 (9, Receive (joined_room "p1" "r1" (Sample.room "waiting_for_players")));
                 (12, Receive (game_update (Sample.game "resolution" (Some 7997))))]
              initial in
   identity_known w = true
   /\ phase <$> gameState (st w) = Some "resolution"
   /\ timerInterval (st w) = None /\ intervals (page w) = ∅)
  /\ (let w := run [(5, Receive (game_update (Sample.game "resolution" None)));
                    (9, Receive (joined_room "p1" "r1" (Sample.room "in_progress")));
                    (12, Receive (game_update (Sample.game "resolution" None)))]
                 initial in
      identity_known w = true
      /\ phase <$> gameState (st w) = Some "resolution"
      /\ timerInterval (st w) = None /\ intervals (page w) = ∅).
Proof. repeat split. Qed.

(** C1 (amended): while the identity is unknown a [game_update] only
    stores its snapshot.  When [joined_room] then arrives for a room
    that is not waiting for players, and the stored snapshot is in
    phase resolution, carries a remaining time [r] and no interval is
    running, the resolution countdown is started at that moment, from
    [r]; for a room that is waiting for players, or a snapshot without
    a remaining time, no countdown is started. *)
Theorem buffered_snapshot_then_join (now now' : Z) (g : GameState)
    (player_id room_id : string) (room_state : RoomState) (w : World) :
  identity_known w = false ->
  handleGameUpdate now g w = on_st (State_set_gameState (Some g)) w
  /\ (phase g = "resolution" ->
      timerInterval (st w) = None ->
      let w2 := handleJoinedRoom now' player_id room_id room_state
                  (handleGameUpdate now g w) in
      (forall r,
          room_phase room_state <> "waiting_for_players" ->
          phase_time_remaining_ms g = Some r ->
          timerInterval (st w2) = Some (nextHandle (page w))
          /\ intervals (page w2)
             = <[nextHandle (page w) := ResolutionTimer now' r]> (intervals (page w)))
      /\ (room_phase room_state = "waiting_for_players"
          \/ phase_time_remaining_ms g = None ->
          timerInterval (st w2) = None
          /\ intervals (page w2) = intervals (page w))).
Proof.
  intros Hid. split; [now apply handleGameUpdate_buffers|].
  intros Hp Ht. rewrite (handleGameUpdate_buffers now g w Hid). cbv zeta.
  unfold handleJoinedRoom. cbv zeta.
  set (w1 := on_st (State_set_roomState (Some room_state)) _).
  assert (gameState (st (showScreen "game-screen" w1)) = Some g) as Hg by reflexivity.
  rewrite Hg, Hp.
  change (String.eqb "resolution" "resolution") with true. cbv iota.
  destruct (renderGame_resolution now' g (showScreen "game-screen" w1) Hg Hp)
    as (Rt & Ri & Rn & Rg).
  split.
  - intros r Hw Hr.
    destruct (String.eqb_spec (room_phase room_state) "waiting_for_players");
      [contradiction|].
    unfold startResolutionTimer. rewrite Rt, Rg, Hr.
    change (timerInterval (st (showScreen "game-screen" w1)))
      with (timerInterval (st w)).
    rewrite Ht. unfold setInterval. simpl. rewrite Rn, Ri. now split.
  - intros [Hw | Hr].
    + rewrite Hw. simpl. now split.
    + destruct (String.eqb (room_phase room_state) "waiting_for_players").
      { simpl. now split. }
      unfold startResolutionTimer. rewrite Rt, Rg, Hr.
      change (timerInterval (st (showScreen "game-screen" w1)))
        with (timerInterval (st w)).
      rewrite Ht, Rt, Ri. now split.
Qed.

Lemma buffered_snapshot_then_join_witness :
  handleGameUpdate 5 (Sample.game "resolution" (Some 8000)) initial
  = on_st (State_set_gameState (Some (Sample.game "resolution" (Some 8000)))) initial
  /\ timerInterval
       (st (handleJoinedRoom 9 "p1" "r1" (Sample.room "in_progress")
              (handleGameUpdate 5 (Sample.game "resolution" (Some 8000)) initial)))
     = Some 1%positive
  /\ intervals
       (page (handleJoinedRoom 9 "p1" "r1" (Sample.room "in_progress")
                (handleGameUpdate 5 (Sample.game "resolution" (Some 8000)) initial)))
     = <[1%positive := ResolutionTimer 9 8000]> ∅.
Proof.
  pose proof (buffered_snapshot_then_join 5 9 (Sample.game "resolution" (Some 8000))
                "p1" "r1" (Sample.room "in_progress") initial eq_refl) as [H1 H2].
  split; [exact H1|].
  destruct (H2 eq_refl eq_refl) as [H3 _].
  apply (H3 8000); [discriminate | reflexivity].
Defined.

(** The earlier revision of [handleJoinedRoom] starts no countdown in
    the same run. *)
Lemma earlier_join_starts_nothing :
  timerInterval
    (st (EarlierHandlers.handleJoinedRoom 9 "p1" "r1" (Sample.room "in_progress")
           (handleGameUpdate 5 (Sample.game "resolution" (Some 8000)) initial)))
  = None.
Proof. reflexivity. Qed.

(** ** Edge effects along a run of updates *)












(** Entering resolution does not always start the countdown: a
    snapshot in phase resolution that carries no remaining time,
    after one in phase typing, leaves no countdown and takes no
    handle. *)
Lemma resolution_entered_without_countdown :
  phase <$> gameState (st (run (updates [(1000, Sample.typing_game)])
                             (run Sample.joined initial)))
  = Some "typing"
  /\ phase <$> gameState (st (run (updates [(1000, Sample.typing_game);
                                            (7000, Sample.game "resolution" None)])
                                (run Sample.joined initial)))
     = Some "resolution"
  /\ timerInterval (st (run (updates [(1000, Sample.typing_game);
                                      (7000, Sample.game "resolution" None)])
                          (run Sample.joined initial)))
     = None
  /\ intervals (page (run (updates [(1000, Sample.typing_game);
                                    (7000, Sample.game "resolution" None)])
                        (run Sample.joined initial)))
     = ∅
  /\ nextHandle (page (run (updates [(1000, Sample.typing_game);
                                     (7000, Sample.game "resolution" None)])
                         (run Sample.joined initial)))
     = nextHandle (page (run (updates [(1000, Sample.typing_game)])
                           (run Sample.joined initial))).
Proof. repeat (split; [reflexivity|]). reflexivity. Qed.

(** An update of the same phase can start the challenge countdown:
    the first snapshot of the typing phase carries no challenge, the
    second does, and its render is the first to take the start time. *)
Lemma same_phase_render_starts_challenge :
  intervals (page (run (updates [(1000, Sample.game "typing" None)])
                     (run Sample.joined initial)))
  = ∅
  /\ intervals (page (run (updates [(1000, Sample.game "typing" None);
                                    (1500, Sample.typing_game)])
                        (run Sample.joined initial)))
     = {[1%positive := ChallengeTimer 6500]}.
Proof. split; reflexivity. Qed.

(** ** The one-shot submission *)

Lemma submitTyping_noop (finished : bool) (now : Z) (w : World) :
  typingSubmitted (st w) = true -> submitTyping finished now w = w.
Proof. intros H. unfold submitTyping. now rewrite H. Qed.

Lemma stopTimer_frame (w : World) :
  typingSubmitted (st (stopTimer w)) = typingSubmitted (st w)
  /\ ws (st (stopTimer w)) = ws (st w)
  /\ sent (page (stopTimer w)) = sent (page w)
  /\ typingInput (page (stopTimer w)) = typingInput (page w)
  /\ typingStartTime (st (stopTimer w)) = typingStartTime (st w).
Proof. unfold stopTimer. now destruct (timerInterval (st w)). Qed.

Lemma stopTimer_stops (w : World) : timerInterval (st (stopTimer w)) = None.
Proof. unfold stopTimer. now destruct (timerInterval (st w)) eqn:E. Qed.

Lemma send_sent (m : ClientMessage) (w : World) :
  sent (page (send m w)) = sent (page w) ++ (if ws_open w then [m] else [])
  /\ st (send m w) = st w.
Proof.
  unfold send. destruct (ws_open w); simpl; [now split|].
  now rewrite app_nil_r.
Qed.

Lemma submitTyping_first (finished : bool) (now : Z) (w : World) :
  typingSubmitted (st w) = false ->
  typingSubmitted (st (submitTyping finished now w)) = true
  /\ ws (st (submitTyping finished now w)) = ws (st w)
  /\ timerInterval (st (submitTyping finished now w)) = None
  /\ sent (page (submitTyping finished now w))
     = sent (page w)
       ++ (if ws_open w
           then [submit_typing (typingInput (page w))
                   (if finished
                    then Some (now - default 0 (typingStartTime (st w)))
                    else None)]
           else []).
Proof.
  intros H. unfold submitTyping. rewrite H. cbv zeta.
  set (m := submit_typing _ _).
  set (w1 := on_st (State_set_typingSubmitted true) w).
  destruct (send_sent m w1) as [Hs Hst].
  destruct (stopTimer_frame (send m w1)) as (F1 & F2 & F3 & _).
  unfold showWaiting. simpl.
  rewrite F1, F2, F3, stopTimer_stops, Hst, Hs. now repeat split.
Qed.

(** One step of a typing event either leaves the guard and the frames
    sent as they were, or sets the guard and sends, through [send], one
    submission. *)
Lemma typing_step (w : World) (ev : Z * Event) :
  typing_event ev ->
  ws (st (step w ev)) = ws (st w)
  /\ ((typingSubmitted (st (step w ev)) = typingSubmitted (st w)
       /\ sent (page (step w ev)) = sent (page w))
      \/ (typingSubmitted (st w) = false
          /\ typingSubmitted (st (step w ev)) = true
          /\ exists text c,
              sent (page (step w ev))
              = sent (page w)
                ++ (if ws_open w then [submit_typing text c] else []))).
Proof.
  destruct ev as [now e]. unfold typing_event. simpl.
  assert (forall f n w0,
             ws (st w0) = ws (st w) -> sent (page w0) = sent (page w) ->
             typingSubmitted (st w0) = typingSubmitted (st w) ->
             ws (st (submitTyping f n w0)) = ws (st w)
             /\ ((typingSubmitted (st (submitTyping f n w0)) = typingSubmitted (st w)
                  /\ sent (page (submitTyping f n w0)) = sent (page w))
                 \/ (typingSubmitted (st w) = false
                     /\ typingSubmitted (st (submitTyping f n w0)) = true
                     /\ exists text c,
                         sent (page (submitTyping f n w0))
                         = sent (page w)
                           ++ (if ws_open w then [submit_typing text c] else []))))
    as Hsub.
  { intros f n w0 Hws Hsent Hts.
    destruct (typingSubmitted (st w0)) eqn:E.
    - rewrite (submitTyping_noop f n w0 E). rewrite E. now split; [|left].
    - destruct (submitTyping_first f n w0 E) as (S1 & S2 & _ & S4).
      split; [congruence|]. right. split; [congruence|]. split; [exact S1|].
      rewrite S4, Hsent. unfold ws_open. rewrite Hws. eauto. }
  destruct e; try contradiction; intros _; simpl.
  - (* IntervalFires *)
    unfold intervalFires.
    destruct (intervals (page w) !! h) as [[endTime|startTime initialRemaining]|];
      [| |now split; [|left]].
    + unfold challengeTick. set (w1 := on_page _ w).
      destruct (Z.max 0 (endTime - now) <=? 0); [|now split; [|left]].
      destruct (stopTimer_frame w1) as (F1 & F2 & F3 & _).
      destruct (negb (typingSubmitted (st (stopTimer w1)))).
      * now apply Hsub.
      * split; [exact F2|]. left. now split.
    + unfold resolutionTick. set (w1 := on_page _ w).
      destruct (_ <=? 0); [|now split; [|left]].
      destruct (stopTimer_frame w1) as (F1 & F2 & F3 & _).
      split; [exact F2|]. left. now split.
  - (* TimeoutFires *)
    unfold autoSubmit_timeout. destruct (pendingAutoSubmit (page w));
      [now split; [|left]|].
    set (w1 := on_page _ w).
    destruct (negb (typingSubmitted (st w1))); [now apply Hsub|].
    now split; [|left].
  - (* TypingInput *)
    unfold typingInput_oninput. set (w1 := on_page _ w).
    destruct (typingHandlers (page w1)); [|now split; [|left]].
    destruct (_ <=? _)%nat; now split; [|left].
  - (* SubmitClick *)
    unfold submitTypingBtn_onclick.
    destruct (typingHandlers (page w)); [now apply Hsub | now split; [|left]].
  - (* KeyDown *)
    unfold typingInput_onkeydown.
    destruct (typingHandlers (page w)); [|now split; [|left]].
    destruct (String.eqb key "Enter"); [now apply Hsub | now split; [|left]].
Qed.

Lemma typing_run (evs : list (Z * Event)) (w : World) :
  Forall typing_event evs ->
  ws (st (run evs w)) = ws (st w)
  /\ ((typingSubmitted (st (run evs w)) = typingSubmitted (st w)
       /\ sent (page (run evs w)) = sent (page w))
      \/ (typingSubmitted (st w) = false
          /\ typingSubmitted (st (run evs w)) = true
          /\ exists text c,
              sent (page (run evs w))
              = sent (page w)
                ++ (if ws_open w then [submit_typing text c] else []))).
Proof.
  intros H. revert w. induction H as [|ev evs Hev _ IH]; intros w; simpl.
  - now split; [|left].
  - destruct (typing_step w ev Hev) as [Sws Sstep].
    destruct (IH (step w ev)) as [Rws Rrun].
    split; [congruence|].
    destruct Sstep as [[S1 S2] | (S1 & S2 & text & c & S3)].
    + destruct Rrun as [[R1 R2] | (R1 & R2 & text & c & R3)].
      * left. split; congruence.
      * right. split; [congruence|]. split; [exact R2|].
        exists text, c. rewrite R3, S2. unfold ws_open. now rewrite Sws.
    + destruct Rrun as [[R1 R2] | (R1 & _)]; [|congruence].
      right. split; [exact S1|]. split; [congruence|].
      exists text, c. congruence.
Qed.

Lemma submissions_app (a b : list ClientMessage) :
  submissions (a ++ b) = submissions a ++ submissions b.
Proof. apply List.filter_app. Qed.

(** C3, as stated, fails: when the socket has closed, the first call
    of [submitTyping] sets the guard and [send] drops the frame, so the
    typing phase ends with every trigger fired and no [submit_typing]
    message sent. *)
Lemma no_submission_when_closed :
  typingSubmitted
    (st (run (Sample.typing_started ++ [(2000, SocketClose 0)] ++ Sample.every_trigger)
           initial)) = true
  /\ submissions
       (sent (page (run (Sample.typing_started ++ [(2000, SocketClose 0)]
                         ++ Sample.every_trigger) initial))) = [].
Proof. split; reflexivity. Qed.

(** C3 (amended): from a world whose guard is unset, the first call of
    [submitTyping] sets the guard and hands one [submit_typing] message
    to [send], which transmits it when the socket is open and drops it
    otherwise; every later call returns the world unchanged.  Hence
    along any run of typing events (input, button, Enter key, queued
    auto-submit, interval ticks) at most one [submit_typing] message is
    sent, and exactly one once the guard is set with the socket open. *)
Theorem one_submission_per_guard (evs : list (Z * Event)) (w : World) :
  Forall typing_event evs ->
  typingSubmitted (st w) = false ->
  (forall finished now,
      typingSubmitted (st (submitTyping finished now w)) = true
      /\ sent (page (submitTyping finished now w))
         = sent (page w)
           ++ (if ws_open w
               then [submit_typing (typingInput (page w))
                       (if finished
                        then Some (now - default 0 (typingStartTime (st w)))
                        else None)]
               else [])
      /\ forall finished' now',
          submitTyping finished' now' (submitTyping finished now w)
          = submitTyping finished now w)
  /\ (typingSubmitted (st (run evs w)) = false ->
      sent (page (run evs w)) = sent (page w))
  /\ (typingSubmitted (st (run evs w)) = true ->
      exists text c,
        sent (page (run evs w))
        = sent (page w) ++ (if ws_open w then [submit_typing text c] else []))
  /\ (length (submissions (sent (page (run evs w))))
      <= S (length (submissions (sent (page w)))))%nat.
Proof.
  intros Hevs Hw.
  destruct (typing_run evs w Hevs) as [_ Hrun].
  split; [|split; [|split]].
  - intros finished now.
    destruct (submitTyping_first finished now w Hw) as (S1 & _ & _ & S4).
    split; [exact S1|]. split; [exact S4|].
    intros f n. now apply submitTyping_noop.
  - intros Hf. destruct Hrun as [[_ R] | (_ & R & _)]; [exact R | congruence].
  - intros Ht. destruct Hrun as [[R _] | (_ & _ & R)]; [congruence | exact R].
  - destruct Hrun as [[_ R] | (_ & _ & text & c & R)]; rewrite R; [lia|].
    rewrite submissions_app, length_app.
    destruct (ws_open w); simpl; lia.
Qed.

(** With the socket open, all the triggers of the sample typing phase
    together send one submission: the queued auto-submit was first. *)
Lemma one_submission_per_guard_witness :
  submissions (sent (page (run Sample.every_trigger
                             (run Sample.typing_started initial))))
  = [submit_typing "abra cadabra" (Some 2100)]
  /\ (length (submissions (sent (page (run Sample.every_trigger
                                         (run Sample.typing_started initial)))))
      <= S (length (submissions (sent (page (run Sample.typing_started initial))))))%nat.
Proof.
  split; [reflexivity|].
  apply (one_submission_per_guard Sample.every_trigger
           (run Sample.typing_started initial)); [|reflexivity].
  repeat constructor.
Defined.

(** ** The challenge countdown running out *)

(** C4, as stated, fails: with the socket closed the countdown that
    reaches zero stops itself and sets the guard, and no submission is
    sent. *)
Lemma no_forced_submission_when_closed :
  typingSubmitted (st (run (Sample.typing_started ++ [(2000, SocketClose 0)]) initial))
  = false
  /\ intervals (page (run (Sample.typing_started ++ [(2000, SocketClose 0)]) initial))
       !! 1%positive = Some (ChallengeTimer 6000)
  /\ timerInterval
       (st (run (Sample.typing_started
                 ++ [(2000, SocketClose 0); (6000, IntervalFires 1%positive)]) initial))
     = None
  /\ typingSubmitted
       (st (run (Sample.typing_started
                 ++ [(2000, SocketClose 0); (6000, IntervalFires 1%positive)]) initial))
     = true
  /\ submissions
       (sent (page (run (Sample.typing_started
                         ++ [(2000, SocketClose 0); (6000, IntervalFires 1%positive)])
                      initial))) = [].
Proof. repeat split; reflexivity. Qed.

(** C4 (amended): in a reachable world whose guard is unset, a tick
    of the challenge countdown at or after its end time stops the
    countdown (no interval is left running), sets the guard and hands
    [send] one submission with the text then in the input and no
    completion time; [send] transmits it when the socket is open.  No
    typing event sends anything after it. *)
Theorem countdown_expiry_submits (h : positive) (endTime now : Z) (w : World) :
  reachable w ->
  intervals (page w) !! h = Some (ChallengeTimer endTime) ->
  endTime <= now ->
  typingSubmitted (st w) = false ->
  timerInterval (st (intervalFires h now w)) = None
  /\ intervals (page (intervalFires h now w)) = ∅
  /\ typingSubmitted (st (intervalFires h now w)) = true
  /\ sent (page (intervalFires h now w))
     = sent (page w)
       ++ (if ws_open w then [submit_typing (typingInput (page w)) None] else [])
  /\ (forall evs, Forall typing_event evs ->
                  sent (page (run evs (intervalFires h now w)))
                  = sent (page (intervalFires h now w))).
Proof.
  intros Hr Hh Hle Hg.
  assert (timer_inv (intervalFires h now w)) as Hinv.
  { now apply timer_inv_intervalFires, timer_inv_reachable. }
  unfold intervalFires in *. rewrite Hh in *. unfold challengeTick in *.
  set (w1 := on_page _ w) in *.
  assert ((Z.max 0 (endTime - now) <=? 0) = true) as Hz by (apply Z.leb_le; lia).
  rewrite Hz in *.
  destruct (stopTimer_frame w1) as (F1 & F2 & F3 & F4 & F5).
  assert (typingSubmitted (st (stopTimer w1)) = false) as Hg1 by now rewrite F1.
  rewrite Hg1 in *. simpl negb in *. cbv iota in *.
  destruct (submitTyping_first false now (stopTimer w1) Hg1) as (S1 & S2 & S3 & S4).
  split; [exact S3|]. split.
  { unfold timer_inv in Hinv. now rewrite S3 in Hinv. }
  split; [exact S1|]. split.
  { rewrite S4, F3, F4. unfold ws_open. now rewrite F2. }
  intros evs Hevs.
  destruct (typing_run evs (submitTyping false now (stopTimer w1)) Hevs)
    as [_ [[_ R] | (R & _)]]; [exact R | congruence].
Qed.

(** The sample typing phase, socket open, nothing submitted by hand:
    the tick at 6000 sends the text typed so far, without a time. *)
Lemma countdown_expiry_submits_witness :
  sent (page (intervalFires 1%positive 6000
                (run (Sample.typing_started ++ [(3000, TypingInput "abra")]) initial)))
  = sent (page (run (Sample.typing_started ++ [(3000, TypingInput "abra")]) initial))
    ++ [submit_typing "abra" None]
  /\ intervals (page (intervalFires 1%positive 6000
                        (run (Sample.typing_started ++ [(3000, TypingInput "abra")])
                           initial))) = ∅.
Proof.
  pose proof (countdown_expiry_submits 1%positive 6000 6000
                (run (Sample.typing_started ++ [(3000, TypingInput "abra")]) initial)
                (ex_intro _ _ eq_refl) eq_refl ltac:(lia) eq_refl)
    as (_ & H2 & _ & H4 & _).
  split; [exact H4 | exact H2].
Defined.

(** ** The typing feedback shows the incantation *)

Section Feedback.

Lemma shown_app (a b : list Token) : shown (a ++ b) = shown a ++ shown b.
Proof. unfold shown. now rewrite map_app, concat_app. Qed.

Lemma shown_spans (f : nat -> ascii -> Class) (word : list ascii) :
  shown (imap (fun j c => Span (f j c) c) word) = word.
Proof.
  revert f. induction word as [|c word IH]; intros f; [reflexivity|].
  simpl. unfold shown in *. simpl. f_equal. apply (IH (fun j => f (S j))).
Qed.

Lemma shown_map_span (k : Class) (word : list ascii) :
  shown (map (Span k) word) = word.
Proof.
  induction word as [|c word IH]; [reflexivity|].
  unfold shown in *. simpl. now f_equal.
Qed.

Lemma capture_go_concat (s : list ascii) (m : Split.Mode) :
  concat (Split.capture_go s m)
  = match m with Split.InWord w => w | Split.InSpace sp => sp end ++ s.
Proof.
  revert m. induction s as [|c s IH]; intros [w|sp]; simpl.
  - now rewrite !app_nil_r.
  - now rewrite !app_nil_r.
  - destruct (JS.is_space c); simpl; rewrite IH; simpl; [reflexivity|].
    now rewrite <- app_assoc.
  - destruct (JS.is_space c); simpl; rewrite IH; simpl; [|reflexivity].
    now rewrite <- app_assoc.
Qed.

Lemma capture_concat (s : list ascii) : concat (Split.capture s) = s.
Proof. unfold Split.capture. now rewrite capture_go_concat. Qed.

Lemma shown_feedbackLoop (typed : list ascii) (pieces : list (list ascii))
    (k : nat) :
  shown (feedbackLoop typed pieces k) = concat pieces.
Proof.
  revert k. induction pieces as [|word rest IH]; intros k; [reflexivity|].
  simpl. destruct (is_space_run word).
  - change (shown (Text word :: feedbackLoop typed rest k))
      with (word ++ shown (feedbackLoop typed rest k)).
    now rewrite IH.
  - rewrite shown_app, IH. f_equal.
    destruct (k <? currentWordIndex typed)%nat; [apply shown_map_span|].
    destruct (k =? currentWordIndex typed)%nat;
      [apply shown_spans | apply shown_map_span].
Qed.

(** The pieces of a split are runs of white space or free of it. *)
Lemma forallb_snoc {A} (f : A -> bool) (l : list A) (x : A) :
  forallb f (l ++ [x]) = forallb f l && f x.
Proof. rewrite forallb_app. simpl. now rewrite andb_true_r. Qed.

Lemma capture_go_pieces (s : list ascii) (m : Split.Mode) :
  match m with
  | Split.InWord w => no_space w = true
  | Split.InSpace sp => is_space_run sp = true
  end ->
  Forall (fun p => is_space_run p = true \/ no_space p = true)
    (Split.capture_go s m).
Proof.
  revert m. induction s as [|c s IH]; intros [w|sp] Hm; simpl.
  - constructor; [now right | constructor].
  - constructor; [now left|]. constructor; [now right | constructor].
  - destruct (JS.is_space c) eqn:Ec.
    + constructor; [now right|]. apply IH. simpl. now rewrite Ec.
    + apply IH. unfold no_space in *. rewrite forallb_snoc, Hm. now rewrite Ec.
  - destruct (JS.is_space c) eqn:Ec.
    + apply IH. destruct sp as [|x sp]; [discriminate|].
      simpl in *. apply andb_true_iff in Hm. destruct Hm as [-> Hm].
      rewrite forallb_snoc, Hm. now rewrite Ec.
    + constructor; [now left|]. apply IH. simpl. now rewrite Ec.
Qed.

Lemma no_space_not_run (word : list ascii) :
  no_space word = true -> is_space_run word = false.
Proof.
  destruct word as [|c word]; [reflexivity|].
  simpl. intros H. apply andb_true_iff in H. destruct H as [H _].
  now destruct (JS.is_space c).
Qed.

Lemma well_placed_feedbackLoop (typed : list ascii) (pieces : list (list ascii))
    (k : nat) :
  Forall (fun p => is_space_run p = true \/ no_space p = true) pieces ->
  forallb well_placed (feedbackLoop typed pieces k) = true.
Proof.
  intros H. revert k. induction H as [|word rest Hw _ IH]; intros k; [reflexivity|].
  simpl. destruct (is_space_run word) eqn:E.
  - simpl. now rewrite E, IH.
  - destruct Hw as [Hw|Hw]; [congruence|].
    rewrite forallb_app, IH, andb_true_r.
    assert (forall f : nat -> ascii -> Class,
               forallb well_placed (imap (fun j c => Span (f j c) c) word) = true)
      as Himap.
    { clear -Hw. unfold no_space in Hw.
      induction word as [|c word IHw]; intros f; [reflexivity|].
      simpl in *. apply andb_true_iff in Hw. destruct Hw as [-> Hw].
      simpl. apply (IHw Hw (fun j => f (S j))). }
    assert (forall q, forallb well_placed (map (Span q) word) = true) as Hmap.
    { clear -Hw. unfold no_space in Hw. intros q.
      induction word as [|c word IHw]; [reflexivity|].
      simpl in *. apply andb_true_iff in Hw. destruct Hw as [-> Hw].
      simpl. now apply IHw. }
    destruct (k <? currentWordIndex typed)%nat; [apply Hmap|].
    destruct (k =? currentWordIndex typed)%nat; [apply Himap | apply Hmap].
Qed.

Lemma unclassified_feedbackLoop (typed typed' : list ascii)
    (pieces : list (list ascii)) (k : nat) :
  map unclassified (feedbackLoop typed pieces k)
  = map unclassified (feedbackLoop typed' pieces k).
Proof.
  assert (forall (f : nat -> ascii -> Class) (word : list ascii),
             map unclassified (imap (fun j c => Span (f j c) c) word)
             = map (Span pending) word) as Himap.
  { intros f word. revert f.
    induction word as [|c word IHw]; intros f; [reflexivity|].
    simpl. f_equal. apply (IHw (fun j => f (S j))). }
  assert (forall q (word : list ascii),
             map unclassified (map (Span q) word) = map (Span pending) word)
    as Hmap.
  { intros q word. rewrite map_map. reflexivity. }
  assert (forall t pieces k,
             map unclassified (feedbackLoop t pieces k)
             = flat_map (fun word => if is_space_run word then [Text word]
                                     else map (Span pending) word) pieces)
    as Hskel.
  { intros t ps. induction ps as [|word rest IH]; intros j; [reflexivity|].
    simpl. destruct (is_space_run word); simpl; [now rewrite IH|].
    rewrite map_app, IH. f_equal.
    destruct (j <? currentWordIndex t)%nat; [apply Hmap|].
    destruct (j =? currentWordIndex t)%nat; [apply Himap | apply Hmap]. }
  now rewrite !Hskel.
Qed.

End Feedback.

(** C9: whatever was typed, the feedback shows exactly the characters
    of the incantation, in order; every character that is not white
    space stands in a span of its own, with one class, and every run of
    white space stands as plain text; and what was typed changes only
    the classes: with the classes forgotten the feedback is the same
    for any two typed strings. *)
Theorem feedback_shows_target (expected typed typed' : string) :
  shown (updateTypingFeedback expected typed) = list_ascii_of_string expected
  /\ forallb well_placed (updateTypingFeedback expected typed) = true
  /\ map unclassified (updateTypingFeedback expected typed)
     = map unclassified (updateTypingFeedback expected typed').
Proof.
  unfold updateTypingFeedback. split; [|split].
  - now rewrite shown_feedbackLoop, capture_concat.
  - apply well_placed_feedbackLoop. now apply capture_go_pieces.
  - apply unclassified_feedbackLoop.
Qed.

(** ** The typing feedback against the word-by-word description *)

Section WordRefinement.

Import Pieces.

Lemma runs_cons (c : ascii) (s : list ascii) :
  WordDiff.runs (c :: s)
  = match WordDiff.runs s with
    | (b, r) :: rest =>
        if Bool.eqb b (JS.is_space c) then (b, c :: r) :: rest
        else (JS.is_space c, [c]) :: (b, r) :: rest
    | [] => [(JS.is_space c, [c])]
    end.
Proof. reflexivity. Qed.

Lemma capture_go_runs (s : list ascii) :
  (forall w, Split.capture_go s (Split.InWord w) = word_then w (WordDiff.runs s))
  /\ (forall sp, Split.capture_go s (Split.InSpace sp)
                 = space_then sp (WordDiff.runs s)).
Proof.
  induction s as [|c s [IHw IHs]]; [now split|].
  split; intros acc; simpl Split.capture_go; rewrite runs_cons;
    destruct (JS.is_space c) eqn:Ec.
  - rewrite IHs. destruct (WordDiff.runs s) as [|[[] r] rest]; reflexivity.
  - rewrite IHw. destruct (WordDiff.runs s) as [|[[] r] rest]; simpl;
      rewrite <- ?app_assoc; reflexivity.
  - rewrite IHs. destruct (WordDiff.runs s) as [|[[] r] rest]; simpl;
      rewrite <- ?app_assoc; reflexivity.
  - rewrite IHw. destruct (WordDiff.runs s) as [|[[] r] rest]; reflexivity.
Qed.

Lemma runs_ok (s : list ascii) : Forall run_ok (WordDiff.runs s).
Proof.
  induction s as [|c s IH]; [constructor|].
  rewrite runs_cons. destruct (WordDiff.runs s) as [|[b r] rest].
  - constructor; [|constructor]. split; [discriminate|]. simpl.
    now destruct (JS.is_space c).
  - inversion IH as [|x l [Hne Hall] Hrest]; subst. simpl in *.
    destruct (Bool.eqb b (JS.is_space c)) eqn:E.
    + constructor; [|exact Hrest]. split; [discriminate|]. simpl.
      rewrite Hall, andb_true_r. now destruct b, (JS.is_space c).
    + constructor; [|now constructor]. split; [discriminate|]. simpl.
      now destruct (JS.is_space c).
Qed.

Lemma run_ok_space (sp : list ascii) : run_ok (true, sp) -> is_space_run sp = true.
Proof.
  intros [Hne Hall]. simpl in *. destruct sp as [|c sp]; [contradiction|].
  unfold is_space_run. clear Hne. revert Hall. generalize (c :: sp) as l.
  induction l as [|x l IH]; simpl; [reflexivity|].
  intros H. apply andb_true_iff in H. destruct H as [Hx Hl].
  rewrite (IH Hl). now destruct (JS.is_space x).
Qed.

Lemma run_ok_word (w : list ascii) :
  run_ok (false, w) -> is_space_run w = false /\ (0 < length w)%nat.
Proof.
  intros [Hne Hall]. simpl in *. destruct w as [|c w]; [contradiction|].
  split; [|simpl; lia]. simpl in *. apply andb_true_iff in Hall.
  destruct Hall as [Hc _]. now destruct (JS.is_space c).
Qed.

Lemma runs_first (c : ascii) (s : list ascii) :
  exists r rest, WordDiff.runs (c :: s) = (JS.is_space c, r) :: rest.
Proof.
  rewrite runs_cons. destruct (WordDiff.runs s) as [|[b r] rest]; [eauto|].
  destruct (Bool.eqb b (JS.is_space c)) eqn:E; [|eauto].
  apply Bool.eqb_prop in E. subst b. eauto.
Qed.

Lemma words_of_runs_cons_space (c : ascii) (s : list ascii) :
  JS.is_space c = true ->
  words_of (WordDiff.runs (c :: s)) = words_of (WordDiff.runs s).
Proof.
  intros Hc. rewrite runs_cons, Hc.
  destruct (WordDiff.runs s) as [|[[] r] rest]; reflexivity.
Qed.

Lemma plain_go_runs (s : list ascii) :
  (forall w, filter (fun p => (0 < length p)%nat)
               (Split.plain_go s (Split.InWord w))
             = plain_word_then w (WordDiff.runs s))
  /\ (forall sp, filter (fun p => (0 < length p)%nat)
                   (Split.plain_go s (Split.InSpace sp))
                 = words_of (WordDiff.runs s)).
Proof.
  induction s as [|c s [IHw IHs]].
  - split; intros acc; simpl.
    + rewrite filter_cons, filter_nil, app_nil_r. reflexivity.
    + rewrite filter_cons, filter_nil. now case_decide.
  - split; intros acc; simpl Split.plain_go; destruct (JS.is_space c) eqn:Ec.
    + rewrite filter_cons, IHs, <- (words_of_runs_cons_space c s Ec).
      destruct (runs_first c s) as (r & rest & ->). rewrite Ec.
      unfold plain_word_then. now case_decide.
    + rewrite IHw, runs_cons, Ec.
      destruct (WordDiff.runs s) as [|[[] r] rest]; simpl;
        rewrite <- ?app_assoc; try reflexivity.
      * rewrite decide_True; [reflexivity | rewrite length_app; simpl; lia].
      * rewrite decide_True; [reflexivity | rewrite length_app; simpl; lia].
    + rewrite IHs. now rewrite words_of_runs_cons_space.
    + rewrite IHw, runs_cons, Ec.
      destruct (WordDiff.runs s) as [|[[] r] rest]; reflexivity.
Qed.

Lemma typedNonSpaceWords_words (typed : list ascii) :
  typedNonSpaceWords typed = WordDiff.words typed.
Proof.
  unfold typedNonSpaceWords, Split.plain.
  rewrite (proj1 (plain_go_runs typed) []).
  unfold WordDiff.words, plain_word_then. fold (words_of (WordDiff.runs typed)).
  destruct (WordDiff.runs typed) as [|[[] r] rest]; reflexivity.
Qed.

Lemma feedbackLoop_tail_pieces (typed : list ascii)
    (rs : list (bool * list ascii)) (k : nat) :
  Forall run_ok rs ->
  feedbackLoop typed (tail_pieces rs) k
  = WordDiff.classify (WordDiff.words typed) rs k.
Proof.
  intros H. revert k. induction H as [|[b r] rest Hr Hrest IH]; intros k;
    [reflexivity|].
  destruct b.
  - pose proof (run_ok_space r Hr) as Hs.
    destruct rest as [|r' rest'].
    + simpl. rewrite Hs. simpl. repeat case_match; reflexivity.
    + change (tail_pieces ((true, r) :: r' :: rest'))
        with (r :: tail_pieces (r' :: rest')).
      simpl feedbackLoop. rewrite Hs, IH. reflexivity.
  - destruct (run_ok_word r Hr) as [Hs _].
    change (tail_pieces ((false, r) :: rest)) with (r :: tail_pieces rest).
    simpl feedbackLoop. rewrite Hs, IH.
    unfold currentWordIndex. rewrite typedNonSpaceWords_words. reflexivity.
Qed.

(** How [updateTypingFeedback] numbers the words: from 0 when the
    incantation starts with a word, and from 1 when it starts with
    white space, because the empty piece [split] puts in front of the
    first run is counted as a word. *)
Lemma updateTypingFeedback_classify (expected typed : string) :
  updateTypingFeedback expected typed
  = WordDiff.classify (WordDiff.words (list_ascii_of_string typed))
      (WordDiff.runs (list_ascii_of_string expected))
      (if leading_space expected then 1 else 0).
Proof.
  unfold updateTypingFeedback, Split.capture.
  rewrite (proj1 (capture_go_runs (list_ascii_of_string expected)) []).
  pose proof (runs_ok (list_ascii_of_string expected)) as Hok.
  destruct expected as [|c e]; [simpl; repeat case_match; reflexivity|].
  simpl list_ascii_of_string in *. simpl leading_space.
  destruct (runs_first c (list_ascii_of_string e)) as (r & rest & Hruns).
  rewrite Hruns in *. destruct (JS.is_space c).
  - unfold word_then. simpl feedbackLoop.
    rewrite (feedbackLoop_tail_pieces _ _ 1 Hok).
    repeat case_match; reflexivity.
  - unfold word_then. rewrite app_nil_l.
    change (r :: tail_pieces rest) with (tail_pieces ((false, r) :: rest)).
    now rewrite (feedbackLoop_tail_pieces _ _ 0 Hok).
Qed.

End WordRefinement.

(** When the incantation does not start with white space, the
    feedback is the word-by-word diff of the description. *)
Lemma updateTypingFeedback_word_diff (expected typed : string) :
  leading_space expected = false ->
  updateTypingFeedback expected typed = WordDiff.diff expected typed.
Proof.
  intros H. rewrite updateTypingFeedback_classify, H. reflexivity.
Qed.

Lemma word_diff_witness :
  updateTypingFeedback "ab  cd e" "ab cx"
  = [Span completed "a"; Span completed "b"; Text [" "; " "]%char;
     Span correct "c"; Span incorrect "d"; Text [" "]%char; Span pending "e"].
Proof.
  rewrite (updateTypingFeedback_word_diff "ab  cd e" "ab cx" eq_refl).
  reflexivity.
Defined.

(** C5 fails on an incantation that starts with white space: the
    word being typed is shown as not yet reached.  The code gives both
    letters of " ab" the class pending when "ab" was typed, where the
    word-by-word diff gives them the class correct. *)
Lemma feedback_leading_space_shifted :
  updateTypingFeedback " ab" "ab"
  = [Text [" "]%char; Span pending "a"; Span pending "b"]
  /\ WordDiff.diff " ab" "ab"
     = [Text [" "]%char; Span correct "a"; Span correct "b"].
Proof. split; reflexivity. Qed.

(** C6 fails on the same incantations: the diff of " ab" with itself
    leaves both letters pending.  The earlier, position-by-position
    revision marks them correct. *)
Lemma feedback_of_itself_pending :
  updateTypingFeedback " ab" " ab"
  = [Text [" "]%char; Span pending "a"; Span pending "b"]
  /\ classes (Earlier.updateTypingFeedback " ab" " ab")
     = [correct; correct; correct].
Proof. split; reflexivity. Qed.

Section DiffEnds.

Import Pieces.

Lemma classes_app (a b : list Token) : classes (a ++ b) = classes a ++ classes b.
Proof. unfold classes. apply omap_app. Qed.

Lemma classes_map_span (k : Class) (word : list ascii) :
  classes (map (Span k) word) = replicate (length word) k.
Proof. induction word as [|c word IH]; [reflexivity|]. simpl. now f_equal. Qed.

Lemma classes_imap (f : nat -> ascii -> Class) (word : list ascii) :
  classes (imap (fun j c => Span (f j c) c) word) = imap f word.
Proof.
  revert f. induction word as [|c word IH]; intros f; [reflexivity|].
  simpl. f_equal. apply (IH (fun j => f (S j))).
Qed.

Lemma compareAt_nothing (word : list ascii) :
  imap (compareAt []) word = replicate (length word) pending.
Proof.
  change (compareAt []) with (fun (_ : nat) (_ : ascii) => pending).
  induction word as [|c word IH]; [reflexivity|]. simpl. f_equal. exact IH.
Qed.

Lemma compareAt_itself (pre word : list ascii) :
  imap (fun j => compareAt (pre ++ word) (length pre + j)) word
  = replicate (length word) correct.
Proof.
  revert pre. induction word as [|c word IH]; intros pre; [reflexivity|].
  simpl. f_equal.
  - unfold compareAt. rewrite Nat.add_0_r.
    rewrite (list_lookup_middle pre word c (length pre) eq_refl).
    now rewrite Ascii.eqb_refl.
  - specialize (IH (pre ++ [c])). rewrite <- app_assoc in IH. simpl in IH.
    rewrite <- IH. apply imap_ext. intros j x _. simpl.
    rewrite length_app. simpl. f_equal. lia.
Qed.

(** Nothing typed: every class is pending, from whatever index the
    words are numbered. *)
Lemma classify_nothing (rs : list (bool * list ascii)) (k : nat) :
  Forall (fun q => q = pending) (classes (WordDiff.classify [] rs k)).
Proof.
  revert k. induction rs as [|[[] r] rest IH]; intros k; simpl.
  - constructor.
  - apply IH.
  - rewrite classes_app. apply Forall_app. split; [|apply IH].
    destruct k; simpl.
    + rewrite classes_imap.
      change (compareAt (default [] ([] !! 0%nat))) with (compareAt []).
      rewrite compareAt_nothing. apply Forall_replicate. reflexivity.
    + rewrite classes_map_span. apply Forall_replicate. reflexivity.
Qed.

(** The incantation typed in full: the words before the last are
    completed and the last is correct. *)
Lemma classify_itself (ws : list (list ascii)) (rs : list (bool * list ascii))
    (k : nat) :
  words_of rs = drop k ws ->
  Forall (fun q => q = completed \/ q = correct)
         (classes (WordDiff.classify ws rs k)).
Proof.
  revert k. induction rs as [|[[] r] rest IH]; intros k Hw; simpl.
  - constructor.
  - apply IH. exact Hw.
  - change (words_of ((false, r) :: rest)) with (r :: words_of rest) in Hw.
    assert (ws !! k = Some r) as Hk.
    { rewrite <- (Nat.add_0_r k), <- lookup_drop, <- Hw. reflexivity. }
    assert (words_of rest = drop (S k) ws) as Hrest.
    { rewrite <- (Nat.add_1_r k), <- drop_drop, <- Hw. reflexivity. }
    pose proof (lookup_lt_Some _ _ _ Hk) as Hlt.
    rewrite classes_app. apply Forall_app. split; [|now apply IH].
    destruct (Nat.ltb_spec k (length ws - 1)).
    + rewrite classes_map_span. apply Forall_replicate. now left.
    + assert (k = (length ws - 1)%nat) as Hlast by lia.
      rewrite <- Hlast, Nat.eqb_refl, classes_imap, Hk. simpl.
      rewrite (compareAt_itself [] r : imap (compareAt r) r = _).
      apply Forall_replicate. now right.
Qed.

End DiffEnds.

(** Nothing typed: every character of the incantation that has a
    class has the class pending. *)
Lemma feedback_nothing_typed (expected : string) :
  Forall (fun q => q = pending) (classes (updateTypingFeedback expected "")).
Proof. rewrite updateTypingFeedback_classify. apply classify_nothing. Qed.

(** The incantation typed in full, when it does not start with white
    space: every class is completed or correct. *)
Lemma feedback_typed_in_full (t : string) :
  leading_space t = false ->
  Forall (fun q => q = completed \/ q = correct)
         (classes (updateTypingFeedback t t)).
Proof.
  intros H. rewrite updateTypingFeedback_classify, H.
  apply classify_itself. reflexivity.
Qed.

Lemma feedback_typed_in_full_witness :
  Forall (fun q => q = completed \/ q = correct)
         (classes (updateTypingFeedback "abra cadabra" "abra cadabra")).
Proof. exact (feedback_typed_in_full "abra cadabra" eq_refl). Defined.

(** ** The countdown that runs belongs to the phase *)

Lemma stopTimer_session (w : World) :
  playerId (st (stopTimer w)) = playerId (st w)
  /\ gameState (st (stopTimer w)) = gameState (st w)
  /\ page (stopTimer w)
     = Page_set_intervals (intervals (page (stopTimer w))) (page w).
Proof. unfold stopTimer. destruct (timerInterval (st w)); now destruct w as [s []]. Qed.

Section TimerKind.

Lemma kind_ok_inv (q : option string) (w : World) : kind_ok_for q w -> timer_inv w.
Proof.
  unfold kind_ok_for, timer_inv. destruct (timerInterval (st w)); [|trivial].
  intros [(e & H & _) | (s & r & H & _)]; eauto.
Qed.

Lemma kind_ok_frame (q : option string) (w w' : World) :
  timerInterval (st w') = timerInterval (st w) ->
  intervals (page w') = intervals (page w) ->
  kind_ok_for q w -> kind_ok_for q w'.
Proof. unfold kind_ok_for. now intros -> ->. Qed.

Lemma kind_ok_on_st (q : option string) (f : State -> State) (w : World) :
  (forall s, timerInterval (f s) = timerInterval s) ->
  kind_ok_for q w -> kind_ok_for q (on_st f w).
Proof. intros Hf. apply kind_ok_frame; [apply Hf | reflexivity]. Qed.

Lemma kind_ok_stop (q q' : option string) (w : World) :
  kind_ok_for q w -> kind_ok_for q' (stopTimer w).
Proof.
  intros H. apply kind_ok_inv, timer_inv_stopTimer in H.
  unfold timer_inv in H. unfold kind_ok_for.
  now rewrite stopTimer_stops in *.
Qed.

Lemma kind_ok_same (q q' : option string) (w : World) :
  q = q' -> kind_ok_for q w -> kind_ok_for q' w.
Proof. now intros ->. Qed.

Lemma kind_ok_idle (q q' : option string) (w : World) :
  timerInterval (st w) = None -> kind_ok_for q w -> kind_ok_for q' w.
Proof. unfold kind_ok_for. now intros ->. Qed.

Lemma kind_ok_startResolution (q : option string) (now : Z) (w : World) :
  kind_ok_for q w ->
  (timerInterval (st w) = None -> q = Some "resolution") ->
  kind_ok_for q (startResolutionTimer now w).
Proof.
  intros H Hq. unfold startResolutionTimer.
  destruct (timerInterval (st w)) eqn:E; [exact H|].
  destruct (gameState (st w)) as [g|]; [|exact H].
  destruct (phase_time_remaining_ms g) as [r|]; [|exact H].
  unfold kind_ok_for in *. rewrite E in H. simpl. rewrite H.
  right. exists now, r. split; [apply insert_empty | now apply Hq].
Qed.

Lemma kind_ok_startTimer (q : option string) (d : Z) (w : World) :
  kind_ok_for q w ->
  (timerInterval (st w) = None -> q = Some "typing") ->
  kind_ok_for q (startTimer d w).
Proof.
  intros H Hq. unfold startTimer.
  destruct (timerInterval (st w)) eqn:E; [exact H|].
  unfold kind_ok_for in *. rewrite E in H. simpl. rewrite H.
  left. eexists. split; [apply insert_empty | now apply Hq].
Qed.

Lemma kind_ok_renderGame (now : Z) (g : GameState) (w : World) :
  gameState (st w) = Some g ->
  kind_ok_for (Some (phase g)) w ->
  kind_ok_for (Some (phase g)) (renderGame now w).
Proof.
  intros Hg H. unfold renderGame. rewrite Hg.
  destruct (negb (identity_known w)); [exact H|].
  set (w1 := on_page _ w).
  assert (kind_ok_for (Some (phase g)) w1) as H1
      by (now apply (kind_ok_frame _ w)).
  destruct (find_self g w1) as [self|]; [|exact H1].
  destruct (negb (is_alive self)); [now apply (kind_ok_frame _ w1)|].
  destruct (String.eqb (phase g) "spell_selection").
  { unfold renderSpellSelection. destruct (has_selected_spell self); [|exact H1].
    now apply (kind_ok_frame _ w1). }
  destruct (String.eqb (phase g) "target_selection").
  { unfold renderTargetSelection. destruct (has_selected_target self); [|exact H1].
    now apply (kind_ok_frame _ w1). }
  destruct (String.eqb_spec (phase g) "typing") as [Ht|]; [|exact H1].
  unfold renderTypingPhase.
  destruct (has_finished_typing self || typingSubmitted (st w1)).
  { now apply (kind_ok_frame _ w1). }
  destruct (typing_phase g) as [typing|]; [|exact H1].
  set (w2 := if isFirstRender w1 then _ else w1).
  assert (kind_ok_for (Some (phase g)) w2) as H2.
  { subst w2. destruct (isFirstRender w1); [|exact H1].
    apply kind_ok_startTimer; [|intros _; now rewrite Ht].
    now apply (kind_ok_frame _ w1). }
  now apply (kind_ok_frame _ w2).
Qed.

(** The edge actions of an update take a countdown that fits the old
    phase to one that fits the new phase. *)
Lemma kind_ok_edges (now : Z) (previous : option string) (new : string)
    (w : World) :
  kind_ok_for previous w ->
  kind_ok_for (Some new) (foldl (edgeAction now) w (edges previous new)).
Proof.
  intros H. unfold edges. rewrite !filter_cons, filter_nil.
  unfold decide. cbv beta.
  destruct (crosses_dec previous new EnterSelection) as [[E1 E1']|N1];
    destruct (crosses_dec previous new LeaveTyping) as [[E2 E2']|N2];
    destruct (crosses_dec previous new EnterResolution) as [[E3 E3']|N3];
    destruct (crosses_dec previous new LeaveResolution) as [[E4 E4']|N4];
    cbn [foldl edgeAction]; try congruence.
  - (* selection, leaving typing *)
    repeat first [apply (kind_ok_stop previous)
                 | apply kind_ok_on_st; [reflexivity|]]; exact H.
  - (* selection, leaving resolution *)
    repeat first [apply (kind_ok_stop previous)
                 | apply kind_ok_on_st; [reflexivity|]]; exact H.
  - (* selection *)
    repeat first [apply (kind_ok_stop previous)
                 | apply kind_ok_on_st; [reflexivity|]]; exact H.
  - (* leaving typing, entering resolution *)
    apply kind_ok_startResolution; [|intros _; now rewrite E3].
    repeat first [apply (kind_ok_stop previous)
                 | apply kind_ok_on_st; [reflexivity|]]; exact H.
  - (* leaving typing *)
    repeat first [apply (kind_ok_stop previous)
                 | apply kind_ok_on_st; [reflexivity|]]; exact H.
  - (* entering resolution *)
    apply kind_ok_startResolution; [|intros _; now rewrite E3].
    unfold kind_ok_for in *. destruct (timerInterval (st w)) as [h|]; [|exact H].
    destruct H as [(e & Hi & Hp) | (s & r & Hi & Hp)].
    + exfalso. apply N2. split; [exact Hp | congruence].
    + contradiction.
  - (* leaving resolution *)
    now apply (kind_ok_stop previous).
  - (* no edge *)
    unfold kind_ok_for in *. destruct (timerInterval (st w)) as [h|]; [|exact H].
    destruct H as [(e & Hi & Hp) | (s & r & Hi & Hp)].
    + left. exists e. split; [exact Hi|].
      destruct (decide (new = "typing")) as [->|Hn]; [reflexivity|].
      exfalso. apply N2. now split.
    + right. exists s, r. split; [exact Hi|].
      destruct (decide (new = "resolution")) as [->|Hn]; [reflexivity|].
      exfalso. apply N4. now split.
Qed.

Lemma timer_kind_ok_frame (w w' : World) :
  playerId (st w') = playerId (st w) ->
  gameState (st w') = gameState (st w) ->
  timerInterval (st w') = timerInterval (st w) ->
  intervals (page w') = intervals (page w) ->
  timer_kind_ok w -> timer_kind_ok w'.
Proof.
  unfold timer_kind_ok, kind_ok_for, identity_known. now intros -> -> -> ->.
Qed.

Lemma timer_kind_ok_stop (w : World) : timer_kind_ok w -> timer_kind_ok (stopTimer w).
Proof.
  intros [H _]. split.
  - destruct (stopTimer_session w) as (_ & -> & _).
    now apply (kind_ok_stop (phase <$> gameState (st w))).
  - rewrite stopTimer_stops. now intros [? ?].
Qed.

End TimerKind.

Section TimerKindRun.

Lemma timer_kind_ok_idle (w : World) :
  timer_kind_ok w -> identity_known w = false -> timerInterval (st w) = None.
Proof.
  intros [_ H] Hid. destruct (timerInterval (st w)) eqn:E; [|reflexivity].
  rewrite H in Hid by eauto. discriminate.
Qed.

Lemma timer_kind_ok_submitTyping (finished : bool) (now : Z) (w : World) :
  timer_kind_ok w -> timer_kind_ok (submitTyping finished now w).
Proof.
  intros H. unfold submitTyping. destruct (typingSubmitted (st w)); [exact H|].
  cbv zeta. unfold showWaiting.
  match goal with
  | |- timer_kind_ok (on_page _ ?x) =>
      apply (timer_kind_ok_frame x); try reflexivity
  end.
  apply timer_kind_ok_stop.
  apply (timer_kind_ok_frame w); try exact H;
    unfold send; now destruct (ws_open _).
Qed.

Lemma timer_kind_ok_intervalFires (h : positive) (now : Z) (w : World) :
  timer_kind_ok w -> timer_kind_ok (intervalFires h now w).
Proof.
  unfold intervalFires. intros H.
  destruct (intervals (page w) !! h) as [[endTime|startTime initialRemaining]|];
    [| |trivial].
  - unfold challengeTick.
    set (w1 := on_page _ w).
    assert (timer_kind_ok w1) as H1
        by (apply (timer_kind_ok_frame w); try reflexivity; exact H).
    destruct (Z.max 0 (endTime - now) <=? 0); [|trivial].
    destruct (negb (typingSubmitted (st (stopTimer w1)))).
    + now apply timer_kind_ok_submitTyping, timer_kind_ok_stop.
    + now apply timer_kind_ok_stop.
  - unfold resolutionTick.
    set (w1 := on_page _ w).
    assert (timer_kind_ok w1) as H1
        by (apply (timer_kind_ok_frame w); try reflexivity; exact H).
    destruct (_ <=? 0); [now apply timer_kind_ok_stop | trivial].
Qed.

Lemma timer_kind_ok_handleGameUpdate (now : Z) (g : GameState) (w : World) :
  timer_kind_ok w -> timer_kind_ok (handleGameUpdate now g w).
Proof.
  intros H. rewrite handleGameUpdate_edges. cbv zeta.
  set (w1 := on_st (State_set_gameState (Some g)) w).
  destruct (identity_known w) eqn:Hid.
  - set (w2 := foldl (edgeAction now) w1 _).
    assert (kind_ok_for (Some (phase g)) w2) as H2.
    { apply kind_ok_edges. apply (kind_ok_frame _ w); try reflexivity.
      exact (proj1 H). }
    destruct (edgeActions_session now
                (edges (phase <$> gameState (st w)) (phase g)) w1)
      as (Sp & Sg & _). fold w2 in Sp, Sg.
    destruct (present_session now g w2) as (Pp & Pg & _).
    split.
    + rewrite Pg, Sg. simpl. unfold present.
      destruct (String.eqb (phase g) "game_over").
      * now apply (kind_ok_frame _ w2).
      * apply kind_ok_renderGame; [exact Sg|].
        now apply (kind_ok_frame _ w2).
    + intros _. unfold identity_known. rewrite Pp, Sp. exact Hid.
  - pose proof (timer_kind_ok_idle w H Hid) as Hn.
    split.
    + apply (kind_ok_idle (phase <$> gameState (st w))); [exact Hn|].
      apply (kind_ok_frame _ w); try reflexivity. exact (proj1 H).
    + change (timerInterval (st w1)) with (timerInterval (st w)).
      rewrite Hn. now intros [? ?].
Qed.

Lemma startResolutionTimer_session (now : Z) (w : World) :
  playerId (st (startResolutionTimer now w)) = playerId (st w)
  /\ gameState (st (startResolutionTimer now w)) = gameState (st w).
Proof. split; frame. Qed.

Lemma timer_kind_ok_handleJoinedRoom (now : Z) (i r : string) (rs : RoomState)
    (w : World) :
  JS.truthy i = true ->
  timer_kind_ok w -> timer_kind_ok (handleJoinedRoom now i r rs w).
Proof.
  intros Hi [H _]. unfold handleJoinedRoom. cbv zeta.
  set (w1 := on_st (State_set_roomState (Some rs)) _).
  assert (playerId (st w1) = Some i) as Hp by reflexivity.
  assert (kind_ok_for (phase <$> gameState (st w1)) w1) as H1
      by (now apply (kind_ok_frame _ w)).
  assert (forall w', playerId (st w') = Some i -> identity_known w' = true) as Hk.
  { intros w' Hw'. unfold identity_known. now rewrite Hw'. }
  destruct (String.eqb (room_phase rs) "waiting_for_players").
  { split; [now apply (kind_ok_frame _ w1) | intros _; now apply Hk]. }
  change (gameState (st (showScreen "game-screen" w1))) with (gameState (st w1)).
  destruct (gameState (st w1)) as [g|] eqn:Hg.
  - set (w2 := renderGame now (showScreen "game-screen" w1)).
    destruct (renderGame_session now (showScreen "game-screen" w1))
      as (Rp & Rg & _). fold w2 in Rp, Rg.
    assert (kind_ok_for (Some (phase g)) w2) as H2.
    { apply kind_ok_renderGame; [exact Hg|]. now apply (kind_ok_frame _ w1). }
    destruct (String.eqb_spec (phase g) "resolution") as [Hr|].
    + destruct (startResolutionTimer_session now w2) as [Sp Sg].
      split.
      * rewrite Sg, Rg. change (gameState (st (showScreen "game-screen" w1)))
          with (gameState (st w1)). rewrite Hg. simpl.
        apply kind_ok_startResolution; [exact H2 | intros _; now rewrite Hr].
      * intros _. apply Hk. now rewrite Sp, Rp.
    + split.
      * rewrite Rg. change (gameState (st (showScreen "game-screen" w1)))
          with (gameState (st w1)). now rewrite Hg.
      * intros _. apply Hk. now rewrite Rp.
  - split.
    + change (gameState (st (showScreen "game-screen" w1)))
        with (gameState (st w1)). rewrite Hg.
      apply (kind_ok_frame _ w1); try reflexivity. exact H1.
    + intros _. now apply Hk.
Qed.

Lemma timer_kind_ok_step (w : World) (ev : Z * Event) :
  keeps_identity ev -> timer_kind_ok w -> timer_kind_ok (step w ev).
Proof.
  destruct ev as [now e]. unfold keeps_identity. simpl. intros Hk H.
  destruct e; simpl.
  - destruct msg as [i r rs|m|rs|g| |tag]; unfold handleServerMessage.
    + now apply timer_kind_ok_handleJoinedRoom.
    + now apply (timer_kind_ok_frame w).
    + now apply (timer_kind_ok_frame w).
    + now apply timer_kind_ok_handleGameUpdate.
    + exact H.
    + exact H.
  - now apply timer_kind_ok_intervalFires.
  - unfold autoSubmit_timeout. destruct (pendingAutoSubmit (page w)); [exact H|].
    set (w1 := on_page _ w).
    assert (timer_kind_ok w1) as H1 by now apply (timer_kind_ok_frame w).
    destruct (negb (typingSubmitted (st w1))); [|exact H1].
    now apply timer_kind_ok_submitTyping.
  - unfold typingInput_oninput. set (w1 := on_page _ w).
    assert (timer_kind_ok w1) as H1 by now apply (timer_kind_ok_frame w).
    destruct (typingHandlers (page w1)); [|exact H1].
    destruct (_ <=? _)%nat; now apply (timer_kind_ok_frame w1).
  - unfold submitTypingBtn_onclick. destruct (typingHandlers (page w)); [|exact H].
    now apply timer_kind_ok_submitTyping.
  - unfold typingInput_onkeydown. destruct (typingHandlers (page w)); [|exact H].
    destruct (String.eqb key "Enter"); [|exact H].
    now apply timer_kind_ok_submitTyping.
  - apply (timer_kind_ok_frame w); try exact H; unfold spellBtn_onclick, send;
      now destruct (ws_open _).
  - apply (timer_kind_ok_frame w); try exact H; unfold targetBtn_onclick, send;
      now destruct (ws_open _).
  - apply (timer_kind_ok_frame w); try exact H; unfold playAgainBtn_onclick, send;
      now destruct (ws_open _).
  - apply (timer_kind_ok_frame w); try exact H; socket_frame.
  - apply (timer_kind_ok_frame w); try exact H; socket_frame.
  - apply (timer_kind_ok_frame w); try exact H; socket_frame.
  - apply (timer_kind_ok_frame w); try exact H; socket_frame.
  - apply (timer_kind_ok_frame w); try exact H; unfold keepAlive, send;
      now destruct (ws_open w).
Qed.

Lemma timer_kind_ok_run (evs : list (Z * Event)) (w : World) :
  Forall keeps_identity evs -> timer_kind_ok w -> timer_kind_ok (run evs w).
Proof.
  intros Hevs. revert w.
  induction Hevs as [|ev evs Hev _ IH]; intros w Hw; simpl; [exact Hw|].
  now apply IH, timer_kind_ok_step.
Qed.

End TimerKindRun.

(** In a run from the loaded page whose [joined_room] messages carry
    non-empty player ids, a countdown runs only with the identity
    known and a snapshot held, and it belongs to the snapshot's phase:
    the challenge countdown to typing, the resolution countdown to
    resolution.  In every other phase no interval is running. *)
Theorem countdown_belongs_to_phase (evs : list (Z * Event)) (h : positive)
    (t : Timer) :
  Forall keeps_identity evs ->
  intervals (page (run evs initial)) !! h = Some t ->
  identity_known (run evs initial) = true
  /\ timerInterval (st (run evs initial)) = Some h
  /\ exists g, gameState (st (run evs initial)) = Some g
               /\ match t with
                  | ChallengeTimer _ => phase g = "typing"
                  | ResolutionTimer _ _ => phase g = "resolution"
                  end.
Proof.
  intros Hevs Hl.
  assert (timer_kind_ok (run evs initial)) as [Hk Hid].
  { apply timer_kind_ok_run; [exact Hevs|].
    split; [reflexivity | now intros [? ?]]. }
  unfold kind_ok_for in Hk.
  destruct (timerInterval (st (run evs initial))) as [h'|] eqn:Et.
  - split; [apply Hid; eauto|].
    destruct Hk as [(e & Hi & Hp) | (s & r & Hi & Hp)]; rewrite Hi in Hl;
      apply lookup_singleton_Some in Hl; destruct Hl as [<- <-];
      (split; [reflexivity|]);
      destruct (gameState (st (run evs initial))) as [g|]; try discriminate;
      exists g; (split; [reflexivity|]); simpl in Hp; congruence.
  - rewrite Hk in Hl. now rewrite lookup_empty in Hl.
Qed.

Lemma countdown_belongs_to_phase_witness :
  identity_known (run Sample.typing_started initial) = true
  /\ timerInterval (st (run Sample.typing_started initial)) = Some 1%positive
  /\ exists g, gameState (st (run Sample.typing_started initial)) = Some g
               /\ phase g = "typing".
Proof.
  apply (countdown_belongs_to_phase Sample.typing_started 1%positive
           (ChallengeTimer 6000)); [|reflexivity].
  unfold Sample.typing_started, Sample.joined.
  repeat constructor.
Defined.

(** An empty player id takes the identity away, and the update that
    follows is only stored: the challenge countdown then runs on in
    the selection phase.  The condition on [joined_room] above is
    needed. *)
Lemma identity_lost_keeps_countdown :
  intervals
    (page (run (Sample.typing_started
                ++ [(2000, Receive (joined_room "" "r1" (Sample.room "in_progress")));
                    (3000, Receive (game_update (Sample.game "spell_selection" None)))])
             initial)) !! 1%positive
  = Some (ChallengeTimer 6000)
  /\ phase <$> gameState
                 (st (run (Sample.typing_started
                           ++ [(2000, Receive (joined_room "" "r1"
                                                 (Sample.room "in_progress")));
                               (3000, Receive (game_update
                                                 (Sample.game "spell_selection" None)))])
                        initial))
     = Some "spell_selection".
Proof. split; reflexivity. Qed.

(** ** What is sent, and when *)

Section Frames.

Lemma classic_typing (e : Event) :
  (forall now, typing_event (now, e)) \/ ~ typing_event (0, e).
Proof. destruct e; unfold typing_event; simpl; tauto. Qed.

Lemma timerSeconds_nonzero (v : string) :
  timerSeconds v <> JS.Int 0 /\ timerSeconds v <> JS.NaN.
Proof.
  unfold timerSeconds. cbv zeta.
  destruct (JS.truthy_number (JS.parseInt v)) eqn:E; [|split; discriminate].
  split; intros H; rewrite H in E; discriminate.
Qed.

Lemma elem_of_insert_inv {A} (l : list A) (i : nat) (x y : A) :
  x ∈ <[i := y]> l -> x = y \/ x ∈ l.
Proof.
  intros H. apply list_elem_of_lookup in H as [j Hj].
  apply list_lookup_insert_Some in Hj as [(_ & -> & _) | [_ Hj]]; [now left|].
  right. eapply list_elem_of_lookup_2, Hj.
Qed.

Lemma set_readyState_frame (c : nat) (r : ReadyState) (w : World) :
  page (set_readyState c r w) = page w.
Proof. unfold set_readyState. repeat case_match; reflexivity. Qed.

(** Every handler appends to the frames sent, and appends nothing
    while the socket is not open, except that its opening sends the
    join request that was waiting. *)
Lemma handleJoinedRoom_sent (now : Z) (i r : string) (rs : RoomState) (w : World) :
  sent (page (handleJoinedRoom now i r rs w)) = sent (page w)
  /\ pendingJoins (page (handleJoinedRoom now i r rs w)) = pendingJoins (page w)
  /\ ws (st (handleJoinedRoom now i r rs w)) = ws (st w).
Proof.
  unfold handleJoinedRoom. cbv zeta.
  set (w1 := on_st (State_set_roomState (Some rs)) _).
  destruct (String.eqb (room_phase rs) "waiting_for_players"); [now repeat split|].
  destruct (gameState (st (showScreen "game-screen" w1))) as [g|];
    [|now repeat split].
  assert (sent (page (renderGame now (showScreen "game-screen" w1))) = sent (page w)
          /\ pendingJoins (page (renderGame now (showScreen "game-screen" w1)))
             = pendingJoins (page w)
          /\ ws (st (renderGame now (showScreen "game-screen" w1))) = ws (st w))
    as (R1 & R2 & R3).
  { repeat split; frame. }
  destruct (String.eqb (phase g) "resolution"); [|now repeat split].
  rewrite <- R1, <- R2, <- R3. repeat split; frame.
Qed.

Lemma handleGameUpdate_pending (now : Z) (g : GameState) (w : World) :
  pendingJoins (page (handleGameUpdate now g w)) = pendingJoins (page w).
Proof.
  rewrite handleGameUpdate_edges. cbv zeta.
  destruct (identity_known w); [|reflexivity].
  assert (forall es w0, pendingJoins (page (foldl (edgeAction now) w0 es))
                        = pendingJoins (page w0)) as Hes.
  { induction es as [|e es IH]; intros w0; simpl; [reflexivity|].
    rewrite IH. destruct e; unfold edgeAction; frame. }
  transitivity (pendingJoins (page (foldl (edgeAction now)
                   (on_st (State_set_gameState (Some g)) w)
                   (edges (phase <$> gameState (st w)) (phase g))))).
  - frame.
  - now rewrite Hes.
Qed.

Lemma step_sent (w : World) (ev : Z * Event) :
  exists l,
    sent (page (step w ev)) = sent (page w) ++ l
    /\ (forall m, m ∈ l ->
                  sent_by_handler w m)
    /\ (ws_open w = false -> (forall c, ev.2 <> SocketOpen c) -> l = []).
Proof.
  assert (forall w' : World, sent (page w') = sent (page w) ->
            exists l, sent (page w') = sent (page w) ++ l
                      /\ (forall m, m ∈ l ->
                                    sent_by_handler w m)
                      /\ (ws_open w = false -> (forall c, ev.2 <> SocketOpen c) -> l = []))
    as Hsame.
  { intros w' Hw'. exists []. rewrite app_nil_r. split; [exact Hw'|].
    split; [|reflexivity]. intros m Hm. now apply elem_of_nil in Hm. }
  assert (forall (m : ClientMessage) (w0 : World),
             sent (page w0) = sent (page w) -> ws (st w0) = ws (st w) ->
             match m with
             | join_room _ _ _ => False
             | select_target ids => length ids = 1%nat
             | _ => True
             end ->
             exists l, sent (page (send m w0)) = sent (page w) ++ l
                       /\ (forall m', m' ∈ l ->
                                      sent_by_handler w m')
                       /\ (ws_open w = false -> (forall c, ev.2 <> SocketOpen c) -> l = []))
    as Hsend.
  { intros m w0 Hs Hws Hm. destruct (send_sent m w0) as [-> _]. rewrite Hs.
    assert (ws_open w0 = ws_open w) as -> by (unfold ws_open; now rewrite Hws).
    eexists. split; [reflexivity|]. split.
    - intros m' Hm'. destruct (ws_open w); [|now apply elem_of_nil in Hm'].
      apply list_elem_of_singleton in Hm'. subst m'. right. now destruct m.
    - now intros ->. }
  destruct ev as [now e].
  destruct (classic_typing e) as [Ht|Hn].
  { destruct (typing_step w (now, e) (Ht now)) as [_ [[_ Hs] | (_ & _ & text & c & Hs)]].
    - now apply Hsame.
    - eexists. split; [exact Hs|]. split.
      + intros m Hm. destruct (ws_open w); [|now apply elem_of_nil in Hm].
        apply list_elem_of_singleton in Hm. subst m. now right.
      + now intros ->. }
  destruct e; simpl in *; try (exfalso; apply Hn; exact I).
  - destruct msg as [i r rs|m|rs|g| |tag]; unfold handleServerMessage;
      apply Hsame; try reflexivity.
    + apply handleJoinedRoom_sent.
    + apply handleGameUpdate_session.
  - apply Hsend; [reflexivity | reflexivity | exact I].
  - apply Hsend; [reflexivity | reflexivity | reflexivity].
  - apply Hsend; [reflexivity | reflexivity | exact I].
  - apply Hsame. socket_frame.
  - unfold ws_onopen. cbv zeta. rewrite set_readyState_frame.
    destruct (pendingJoins (page w) !! c) as [[m|]|] eqn:Ep;
      try (apply Hsame; now rewrite set_readyState_frame).
    destruct (send_sent m (settle c (set_readyState c OPEN w))) as [-> _].
    assert (sent (page (settle c (set_readyState c OPEN w))) = sent (page w))
      as -> by (unfold settle; simpl; now rewrite set_readyState_frame).
    eexists. split; [reflexivity|]. split.
    + intros m' Hm'.
      destruct (ws_open (settle _ _)); [|now apply elem_of_nil in Hm'].
      apply list_elem_of_singleton in Hm'. subst m'. left.
      eapply list_elem_of_lookup_2, Ep.
    + intros _ Hso. now contradiction (Hso c).
  - apply Hsame. socket_frame.
  - apply Hsame. socket_frame.
  - unfold keepAlive. destruct (ws_open w) eqn:Eo; [|now apply Hsame].
    apply Hsend; [reflexivity | reflexivity | exact I].
Qed.

Lemma submitTyping_pending (f : bool) (now : Z) (w : World) :
  pendingJoins (page (submitTyping f now w)) = pendingJoins (page w).
Proof. frame. Qed.

Lemma step_pending (w : World) (ev : Z * Event) (m : ClientMessage) :
  Some m ∈ pendingJoins (page (step w ev)) ->
  Some m ∈ pendingJoins (page w) \/ frame_ok m.
Proof.
  assert (forall w' : World, pendingJoins (page w') = pendingJoins (page w) ->
            Some m ∈ pendingJoins (page w') ->
            Some m ∈ pendingJoins (page w) \/ frame_ok m) as Hsame.
  { intros w' ->. now left. }
  assert (forall c (w' : World), page w' = page w ->
            Some m ∈ pendingJoins (page (settle c w')) ->
            Some m ∈ pendingJoins (page w) \/ frame_ok m) as Hsettle.
  { intros c w' Hw' H. unfold settle in H. simpl in H. rewrite Hw' in H.
    apply elem_of_insert_inv in H as [H|H]; [discriminate | now left]. }
  destruct ev as [now e]. destruct e; simpl.
  - destruct msg as [i r rs|m0|rs|g| |tag]; unfold handleServerMessage;
      apply Hsame; try reflexivity.
    + apply handleJoinedRoom_sent.
    + apply handleGameUpdate_pending.
  - apply Hsame. unfold intervalFires, challengeTick, resolutionTick.
    repeat case_match; try reflexivity; try rewrite submitTyping_pending;
      unfold stopTimer; repeat case_match; reflexivity.
  - apply Hsame. unfold autoSubmit_timeout.
    repeat case_match; try reflexivity; now rewrite submitTyping_pending.
  - apply Hsame. unfold typingInput_oninput. repeat case_match; reflexivity.
  - apply Hsame. unfold submitTypingBtn_onclick.
    repeat case_match; try reflexivity; now rewrite submitTyping_pending.
  - apply Hsame. unfold typingInput_onkeydown.
    repeat case_match; try reflexivity; now rewrite submitTyping_pending.
  - apply Hsame. unfold spellBtn_onclick, send. now destruct (ws_open _).
  - apply Hsame. unfold targetBtn_onclick, send. now destruct (ws_open _).
  - apply Hsame. unfold playAgainBtn_onclick, send. now destruct (ws_open _).
  - unfold joinForm_submit. cbv zeta. destruct (_ || _) eqn:E.
    + now apply Hsame.
    + destruct socket as [|message]; [|now apply Hsame].
      simpl. intros H. apply elem_of_app in H as [H|H]; [now left|].
      apply list_elem_of_singleton in H. injection H as ->. right. simpl.
      apply orb_false_iff in E. destruct E as [E E3].
      apply orb_false_iff in E. destruct E as [E1 E2].
      apply negb_false_iff in E1, E3.
      split; [apply timerSeconds_nonzero|].
      split; [apply timerSeconds_nonzero|].
      split; [exact E3|]. split; [apply trim_idempotent|].
      split; [exact E1 | apply trim_idempotent].
  - unfold ws_onopen. cbv zeta. rewrite set_readyState_frame.
    destruct (pendingJoins (page w) !! c) as [[m0|]|] eqn:E;
      try (apply Hsame; now rewrite set_readyState_frame).
    intros H.
    assert (page (send m0 (settle c (set_readyState c OPEN w)))
            = page (on_page (fun p => Page_set_sent
                               (sent p ++ (if ws_open (settle c (set_readyState c OPEN w))
                                           then [m0] else [])) p)
                      (settle c (set_readyState c OPEN w)))) as Hp.
    { unfold send. destruct (ws_open _); [reflexivity|].
      simpl. rewrite app_nil_r. now destruct (page _). }
    rewrite Hp in H. simpl in H. rewrite set_readyState_frame in H.
    apply elem_of_insert_inv in H as [H|H]; [discriminate | now left].
  - unfold ws_onerror.
    destruct (pendingJoins (page w) !! c) as [[m0|]|] eqn:E;
      try now apply Hsame.
    apply (Hsettle c w). reflexivity.
  - apply Hsame. socket_frame.
  - apply Hsame. unfold keepAlive, send. now destruct (ws_open w).
Qed.

Lemma frames_ok_step (w : World) (ev : Z * Event) :
  frames_ok w -> frames_ok (step w ev).
Proof.
  intros [Hs Hp]. split.
  - destruct (step_sent w ev) as (l & -> & Hl & _).
    apply Forall_app. split; [exact Hs|].
    apply Forall_forall. intros m Hm. destruct (Hl m Hm) as [Hj|Hm'].
    + now apply Hp.
    + now destruct m.
  - intros m Hm. destruct (step_pending w ev m Hm) as [Hj|Hok];
      [now apply Hp | exact Hok].
Qed.

Lemma step_ws_open (w : World) (ev : Z * Event) :
  ws_open w = false -> (forall c, ev.2 <> SocketOpen c) ->
  ws_open (step w ev) = false.
Proof.
  intros Hc Hn. destruct ev as [now e].
  destruct (classic_typing e) as [Ht|Ht].
  { destruct (typing_step w (now, e) (Ht now)) as [Hws _].
    unfold ws_open in *. now rewrite Hws. }
  assert (forall w' : World, ws (st w') = ws (st w) -> ws_open w' = false) as Hsame.
  { intros w' Hw'. unfold ws_open in *. now rewrite Hw'. }
  destruct e; simpl in *; try (exfalso; apply Ht; exact I).
  - destruct msg as [i r rs|m|rs|g| |tag]; unfold handleServerMessage;
      apply Hsame; try reflexivity.
    + apply handleJoinedRoom_sent.
    + apply handleGameUpdate_session.
  - apply Hsame. unfold spellBtn_onclick, send. now destruct (ws_open _).
  - apply Hsame. unfold targetBtn_onclick, send. now destruct (ws_open _).
  - apply Hsame. unfold playAgainBtn_onclick, send. now destruct (ws_open _).
  - unfold joinForm_submit. cbv zeta.
    destruct (_ || _); [now apply Hsame|].
    destruct socket; [reflexivity | now apply Hsame].
  - now contradiction (Hn c).
  - apply Hsame. socket_frame.
  - unfold ws_onclose. destruct (pendingJoins (page w) !! c); [|exact Hc].
    transitivity (ws_open (set_readyState c CLOSED w)); [reflexivity|].
    unfold set_readyState. destruct (ws (st w)) as [sock|] eqn:E; [|exact Hc].
    destruct (conn sock =? c)%nat; [reflexivity | exact Hc].
  - apply Hsame. unfold keepAlive, send. now destruct (ws_open w).
Qed.

End Frames.

(** Every frame the client ever sends is well formed: a
    [select_target] names exactly one target, and a [join_room] carries
    a trimmed, non-empty room id and player name and a timer that is
    never 0. *)
Theorem frames_well_formed (evs : list (Z * Event)) (m : ClientMessage) :
  m ∈ sent (page (run evs initial)) -> frame_ok m.
Proof.
  assert (forall w, frames_ok w -> frames_ok (run evs w)) as Hrun.
  { induction evs as [|ev evs IH]; intros w Hw; simpl; [exact Hw|].
    now apply IH, frames_ok_step. }
  destruct (Hrun initial) as [Hs _].
  { split; [constructor|]. intros m0 Hm0. now apply elem_of_nil in Hm0. }
  intros Hm. eapply Forall_forall in Hs; eauto.
Qed.

Lemma frames_well_formed_witness :
  frame_ok (join_room "r1" "Ann" (JS.Int 45)).
Proof.
  apply (frames_well_formed Sample.joined).
  apply list_elem_of_lookup. exists 0%nat. reflexivity.
Defined.

(** Messages are never queued: while the socket is not open, no event
    other than its opening adds a frame, whatever the handlers ask
    [send] to send. *)
Theorem closed_socket_sends_nothing (evs : list (Z * Event)) (w : World) :
  ws_open w = false ->
  Forall (fun ev => forall c, ev.2 <> SocketOpen c) evs ->
  sent (page (run evs w)) = sent (page w)
  /\ ws_open (run evs w) = false.
Proof.
  intros Hc Hevs. revert w Hc.
  induction Hevs as [|ev evs Hev _ IH]; intros w Hc; simpl; [now split|].
  destruct (IH (step w ev) (step_ws_open w ev Hc Hev)) as [-> ->].
  destruct (step_sent w ev) as (l & -> & _ & Hl).
  rewrite (Hl Hc Hev), app_nil_r. now split.
Qed.

Lemma closed_socket_sends_nothing_witness :
  sent (page (run ([(2100, SpellClick "fire"); (2200, TargetClick "p2");
                    (2300, KeepAlive); (2400, PlayAgainClick)]
                   ++ Sample.every_trigger)
                (run (Sample.typing_started ++ [(2000, SocketClose 0)]) initial)))
  = [join_room "r1" "Ann" (JS.Int 45)].
Proof.
  apply (closed_socket_sends_nothing
           ([(2100, SpellClick "fire"); (2200, TargetClick "p2");
             (2300, KeepAlive); (2400, PlayAgainClick)]
            ++ Sample.every_trigger)
           (run (Sample.typing_started ++ [(2000, SocketClose 0)]) initial)
           eq_refl).
  unfold Sample.every_trigger. simpl. repeat constructor; intros c; discriminate.
Defined.

(** ** Sprites and spell cards *)

Section AssetsFacts.

Import Assets.

(** Every sprite the client asks for, idle or attacking, for a player
    at any index, is one of the preloaded images. *)
Theorem sprites_are_preloaded (playerIndex : nat) :
  getPlayerSprite playerIndex "idle" ∈ imagePaths
  /\ getPlayerSprite playerIndex "attack" ∈ imagePaths.
Proof. destruct playerIndex as [|[|[|i]]]; split; compute_done. Qed.

Lemma find_cons {A} (f : A -> bool) (x : A) (l : list A) :
  List.find f (x :: l) = if f x then Some x else List.find f l.
Proof. reflexivity. Qed.

(** A spell type that is not the name of a member of
    [Object.prototype] gets one of the preloaded card images, and
    which one is told by the type and the name: the heavy attack card
    exactly for a spell of type attack named Heartwood Wrath, the
    group attack, healing and shield cards exactly for the types
    attack_all, heal and shield, and the light attack card exactly for
    the other spells of type attack and for every type that is none of
    the four.  A spell type that is such a name gets the inherited
    member, not a path. *)
Theorem spell_images_are_preloaded (spellName spellType : string) :
  (spellType ∉ object_prototype_members ->
   exists path,
     getSpellImage spellName spellType = Str path
     /\ path ∈ imagePaths
     /\ (path = "assets/spell_cards/card_img_heavy_attack.png" <->
         spellType = "attack" /\ spellName = "Heartwood Wrath")
     /\ (path = "assets/spell_cards/card_img_group_attack.png" <->
         spellType = "attack_all")
     /\ (path = "assets/spell_cards/card_img_healing.png" <->
         spellType = "heal")
     /\ (path = "assets/spell_cards/card_img_shield.png" <->
         spellType = "shield")
     /\ (path = "assets/spell_cards/card_img_light_attack.png" <->
         (spellType = "attack" /\ spellName <> "Heartwood Wrath")
         \/ spellType ∉ ["attack"; "attack_all"; "heal"; "shield"]))
  /\ (spellType ∈ object_prototype_members ->
      getSpellImage spellName spellType = Inherited spellType).
Proof.
  split.
  - intros Hk. unfold getSpellImage.
    destruct (String.eqb_spec spellType "attack") as [->|Ha].
    { destruct (String.eqb_spec spellName "Heartwood Wrath") as [->|Hn];
        eexists; (split; [reflexivity|]); (split; [compute_done|]).
      - split; [tauto|]. split; [split; discriminate|].
        split; [split; discriminate|]. split; [split; discriminate|].
        split; [discriminate|]. intros [[_ H]|H]; [now contradiction H|].
        exfalso. apply H. compute_done.
      - split; [split; [discriminate | tauto]|].
        split; [split; discriminate|].
        split; [split; discriminate|]. split; [split; discriminate|].
        split; [now left | reflexivity]. }
    unfold getSpellCardImage, property. cbv zeta.
    rewrite !find_cons. cbn [fst snd].
    destruct (String.eqb_spec "attack" spellType) as [<-|_]; [congruence|].
    destruct (String.eqb_spec "attack_all" spellType) as [<-|Hb].
    { eexists. split; [reflexivity|]. split; [compute_done|].
      split; [split; [discriminate | intros [? _]; discriminate]|].
      split; [tauto|]. split; [split; discriminate|].
      split; [split; discriminate|].
      split; [discriminate|]. intros [[? _]|H]; [discriminate|].
      exfalso. apply H. compute_done. }
    destruct (String.eqb_spec "heal" spellType) as [<-|Hc].
    { eexists. split; [reflexivity|]. split; [compute_done|].
      split; [split; [discriminate | intros [? _]; discriminate]|].
      split; [split; discriminate|]. split; [tauto|].
      split; [split; discriminate|].
      split; [discriminate|]. intros [[? _]|H]; [discriminate|].
      exfalso. apply H. compute_done. }
    destruct (String.eqb_spec "shield" spellType) as [<-|Hd].
    { eexists. split; [reflexivity|]. split; [compute_done|].
      split; [split; [discriminate | intros [? _]; discriminate]|].
      split; [split; discriminate|]. split; [split; discriminate|].
      split; [tauto|].
      split; [discriminate|]. intros [[? _]|H]; [discriminate|].
      exfalso. apply H. compute_done. }
    cbn [List.find]. rewrite bool_decide_eq_false_2 by exact Hk.
    eexists. split; [reflexivity|]. split; [compute_done|].
    split; [split; [discriminate | intros [? _]; contradiction]|].
    split; [split; [discriminate | congruence]|].
    split; [split; [discriminate | congruence]|].
    split; [split; [discriminate | congruence]|].
    split; [|reflexivity]. intros _. right. intros H.
    repeat (apply elem_of_cons in H as [H|H]; [congruence|]).
    now apply elem_of_nil in H.
  - intros Hk. unfold object_prototype_members in Hk.
    repeat (apply elem_of_cons in Hk; destruct Hk as [->|Hk]; [reflexivity|]).
    now apply elem_of_nil in Hk.
Qed.

Lemma spell_images_are_preloaded_witness :
  getSpellImage "Foxfire Shard" "attack"
  = Str "assets/spell_cards/card_img_light_attack.png"
  /\ getSpellImage "Moss Mend" "heal" = Str "assets/spell_cards/card_img_healing.png"
  /\ getSpellImage "Odd" "toString" = Inherited "toString".
Proof.
  split; [reflexivity|]. split; [reflexivity|].
  apply (proj2 (spell_images_are_preloaded "Odd" "toString")). compute_done.
Defined.

Lemma findIndex_Some {A} (f : A -> bool) (l : list A) (i : nat) :
  findIndex f l = Some i ->
  (exists x, l !! i = Some x /\ f x = true)
  /\ (forall j y, (j < i)%nat -> l !! j = Some y -> f y = false).
Proof.
  revert i. induction l as [|x l IH]; intros i; simpl; [discriminate|].
  destruct (f x) eqn:E.
  - intros [= <-]. split; [eauto|]. intros j y Hj. lia.
  - destruct (findIndex f l) as [k|]; [|discriminate].
    simpl. intros [= <-]. destruct (IH k eq_refl) as [Hx Hlt].
    split; [exact Hx|]. intros [|j] y Hj; simpl.
    + now intros [= <-].
    + apply Hlt. lia.
Qed.

Lemma findIndex_None {A} (f : A -> bool) (l : list A) :
  findIndex f l = None -> forall x, x ∈ l -> f x = false.
Proof.
  induction l as [|y l IH]; simpl; intros H x Hx.
  - now apply elem_of_nil in Hx.
  - destruct (f y) eqn:E; [discriminate|].
    destruct (findIndex f l); [discriminate|].
    apply elem_of_cons in Hx. destruct Hx as [->|Hx]; [exact E | now apply IH].
Qed.

(** A player of the snapshot held is found at the first position with
    its id; so in a game of at most three players, two players with
    different ids get different sprite colours. *)
Theorem players_told_apart (w : World) (g : GameState) (p q : Player) :
  gameState (st w) = Some g ->
  p ∈ players g -> q ∈ players g ->
  (exists p', players g !! getPlayerIndex (p_id p) w = Some p'
               /\ p_id p' = p_id p
               /\ forall j y, (j < getPlayerIndex (p_id p) w)%nat ->
                              players g !! j = Some y -> p_id y <> p_id p)
  /\ (p_id p <> p_id q -> (length (players g) <= 3)%nat ->
      getPlayerSpriteColor (getPlayerIndex (p_id p) w)
      <> getPlayerSpriteColor (getPlayerIndex (p_id q) w)).
Proof.
  intros Hg Hp Hq.
  assert (forall r, r ∈ players g ->
            exists i r', getPlayerIndex (p_id r) w = i
                         /\ players g !! i = Some r' /\ p_id r' = p_id r
                         /\ forall j y, (j < i)%nat -> players g !! j = Some y ->
                                         p_id y <> p_id r) as Hfind.
  { intros r Hr. unfold getPlayerIndex. rewrite Hg.
    destruct (findIndex (fun p0 => String.eqb (p_id p0) (p_id r)) (players g))
      as [i|] eqn:E.
    - destruct (findIndex_Some _ _ _ E) as [(r' & Hl & He) Hlt].
      exists i, r'. split; [now destruct (roomState (st w))|].
      split; [exact Hl|]. split; [now apply String.eqb_eq|].
      intros j y Hj Hy. apply String.eqb_neq. now apply (Hlt j).
    - pose proof (findIndex_None _ _ E r Hr) as Hn. simpl in Hn.
      now rewrite String.eqb_refl in Hn. }
  destruct (Hfind p Hp) as (i & p' & Hi & Hl & He & Hlt).
  split.
  - exists p'. rewrite Hi. now repeat split.
  - intros Hne Hlen.
    destruct (Hfind q Hq) as (k & q' & Hk & Hlq & Heq & _).
    rewrite Hi, Hk.
    assert (i <> k) as Hik by (intros ->; congruence).
    pose proof (lookup_lt_Some _ _ _ Hl). pose proof (lookup_lt_Some _ _ _ Hlq).
    destruct i as [|[|[|i]]]; destruct k as [|[|[|k]]]; try lia;
      try discriminate; congruence.
Qed.

Lemma players_told_apart_witness :
  (exists p', players Sample.typing_game
                !! getPlayerIndex "p2" (run Sample.typing_started initial)
              = Some p'
              /\ p_id p' = "p2")
  /\ getPlayerSpriteColor (getPlayerIndex "p2" (run Sample.typing_started initial))
     <> getPlayerSpriteColor (getPlayerIndex "p1" (run Sample.typing_started initial)).
Proof.
  destruct (players_told_apart (run Sample.typing_started initial)
              Sample.typing_game Sample.bob Sample.ann eq_refl)
    as [(p' & H1 & H2 & _) H3];
    [apply list_elem_of_lookup; now exists 1%nat
    |apply list_elem_of_lookup; now exists 0%nat|].
  split; [exists p'; now split|].
  apply H3; [discriminate | simpl; lia].
Defined.

End AssetsFacts.

(** ** Image preloader *)

Section PreloaderFacts.

Import Preloader.

Lemma settled_iter (paths : list string) (k : nat) :
  let p := Nat.iter k settled (preload paths fresh) in
  loaded p = k
  /\ total p = length paths
  /\ progress p = map (fun j => (j, length paths)) (seq 1 k)
  /\ completions p = if (length paths <=? k)%nat then 1%nat else 0%nat.
Proof.
  induction k as [|k IH]; cbv zeta.
  - unfold preload. destruct paths as [|x paths]; simpl; now repeat split.
  - cbv zeta in IH. destruct IH as (Hl & Ht & Hp & Hc).
    change (Nat.iter (S k) settled (preload paths fresh))
      with (settled (Nat.iter k settled (preload paths fresh))).
    set (p := Nat.iter k settled (preload paths fresh)) in *.
    unfold settled. cbn [loaded total progress completions].
    rewrite Hl, Ht, Hp, Hc. split; [reflexivity|]. split; [reflexivity|]. split.
    + rewrite seq_S, map_app. reflexivity.
    + destruct (Nat.eqb_spec (S k) (length paths)) as [E|E].
      * rewrite <- E. rewrite (proj2 (Nat.leb_gt (S k) k)) by lia.
        now rewrite Nat.leb_refl.
      * destruct (Nat.leb_spec (length paths) k).
        -- rewrite (proj2 (Nat.leb_le _ _)) by lia. reflexivity.
        -- rewrite (proj2 (Nat.leb_gt _ _)) by lia. reflexivity.
Qed.

End PreloaderFacts.

(** After [preload] over any list of paths, [onComplete] has been
    called once when as many images have settled, by load or by error,
    as there are paths (at once for an empty list), and not before;
    [loaded] counts the images settled and [onProgress] was called
    once per image, with the running count. *)
Theorem preload_completes_once (paths : list string) (k : nat) :
  Preloader.completions (Nat.iter k Preloader.settled
                           (Preloader.preload paths Preloader.fresh))
  = (if (length paths <=? k)%nat then 1 else 0)%nat
  /\ Preloader.loaded (Nat.iter k Preloader.settled
                        (Preloader.preload paths Preloader.fresh)) = k
  /\ Preloader.progress (Nat.iter k Preloader.settled
                          (Preloader.preload paths Preloader.fresh))
     = map (fun j => (j, length paths)) (seq 1 k).
Proof.
  destruct (settled_iter paths k) as (H1 & _ & H3 & H4). now repeat split.
Qed.

(** ** Background animation *)

Section BackgroundFacts.

Import Background.

Lemma cycle_one_active (b : t) :
  (currentIndex b < length (layers b))%nat ->
  one_active b ->
  one_active (cycleBackground b)
  /\ length (layers (cycleBackground b)) = length (layers b)
  /\ currentIndex (cycleBackground b)
     = ((currentIndex b + 1) mod length (layers b))%nat.
Proof.
  intros Hc H. split; [|split].
  - unfold one_active, cycleBackground. simpl. intros i l Hl.
    destruct (decide (i = ((currentIndex b + 1) mod length (layers b))%nat))
      as [->|Hi].
    + rewrite list_lookup_alter_eq in Hl.
      apply fmap_Some in Hl. destruct Hl as (l0 & _ & ->).
      simpl. symmetry. now apply bool_decide_eq_true_2.
    + rewrite list_lookup_alter_ne in Hl by congruence.
      rewrite (bool_decide_eq_false_2 _ Hi).
      destruct (decide (i = currentIndex b)) as [->|Hj].
      * rewrite list_lookup_alter_eq in Hl.
        apply fmap_Some in Hl. now destruct Hl as (l0 & _ & ->).
      * rewrite list_lookup_alter_ne in Hl by congruence.
        rewrite (H i l Hl). now apply bool_decide_eq_false_2.
  - unfold cycleBackground. simpl. now rewrite !length_alter.
  - reflexivity.
Qed.

Lemma cleanup_one_active (b : t) :
  one_active b ->
  one_active (cleanup b)
  /\ length (layers (cleanup b)) = length (layers b)
  /\ currentIndex (cleanup b) = currentIndex b.
Proof.
  intros H. unfold cleanup. destruct (cleanups b) as [|i rest]; [now repeat split|].
  split; [|split]; simpl; [|now rewrite length_alter | reflexivity].
  intros j l Hl. simpl in *.
  destruct (decide (j = i)) as [->|Hj].
  - rewrite list_lookup_alter_eq in Hl.
    apply fmap_Some in Hl. destruct Hl as (l0 & Hl0 & ->).
    simpl. now apply H.
  - rewrite list_lookup_alter_ne in Hl by congruence. now apply H.
Qed.

End BackgroundFacts.

(** If the page starts with one background layer active, the one at
    [currentIndex], then after any sequence of cycles and clean-ups
    exactly one layer is active, the one at [currentIndex], which has
    advanced by the number of cycles, modulo the number of layers. *)
Theorem one_background_active (ks : list Background.Task) (b : Background.t) :
  (Background.currentIndex b < length (Background.layers b))%nat ->
  Background.one_active b ->
  Background.one_active (foldl Background.task b ks)
  /\ length (Background.layers (foldl Background.task b ks))
     = length (Background.layers b)
  /\ Background.currentIndex (foldl Background.task b ks)
     = ((Background.currentIndex b
         + length (filter (fun k => k = Background.Cycle) ks))
        mod length (Background.layers b))%nat.
Proof.
  revert b. induction ks as [|k ks IH]; intros b Hc H.
  - simpl. split; [exact H|]. split; [reflexivity|].
    rewrite Nat.add_0_r. symmetry. now apply Nat.mod_small.
  - simpl foldl. destruct k.
    + destruct (cycle_one_active b Hc H) as (H1 & H2 & H3).
      assert (Background.currentIndex (Background.cycleBackground b)
              < length (Background.layers (Background.cycleBackground b)))%nat
        as Hc'.
      { rewrite H2, H3. apply Nat.mod_upper_bound. lia. }
      destruct (IH _ Hc' H1) as (I1 & I2 & I3).
      change (Background.task b Background.Cycle)
        with (Background.cycleBackground b).
      split; [exact I1|]. split; [congruence|].
      rewrite I3, H2, H3.
      rewrite filter_cons_True by reflexivity. simpl length.
      rewrite Nat.Div0.add_mod_idemp_l. f_equal. lia.
    + destruct (cleanup_one_active b H) as (H1 & H2 & H3).
      assert (Background.currentIndex (Background.cleanup b)
              < length (Background.layers (Background.cleanup b)))%nat as Hc'
          by (rewrite H2, H3; exact Hc).
      destruct (IH _ Hc' H1) as (I1 & I2 & I3).
      change (Background.task b Background.Cleanup) with (Background.cleanup b).
      split; [exact I1|]. split; [congruence|].
      rewrite I3, H2, H3.
      now rewrite filter_cons_False by discriminate.
Qed.

Lemma one_background_active_witness :
  Background.layers
    (foldl Background.task
       {| Background.layers := [{| Background.active := true;
                                   Background.outgoing := false |};
                                {| Background.active := false;
                                   Background.outgoing := false |}];
          Background.currentIndex := 0; Background.cleanups := [] |}
       [Background.Cycle; Background.Cleanup; Background.Cycle; Background.Cycle])
  = [{| Background.active := false; Background.outgoing := true |};
     {| Background.active := true; Background.outgoing := true |}]
  /\ Background.currentIndex
       (foldl Background.task
          {| Background.layers := [{| Background.active := true;
                                      Background.outgoing := false |};
                                   {| Background.active := false;
                                      Background.outgoing := false |}];
             Background.currentIndex := 0; Background.cleanups := [] |}
          [Background.Cycle; Background.Cleanup; Background.Cycle; Background.Cycle])
     = 1%nat.
Proof.
  split; [reflexivity|].
  refine (proj2 (proj2 (one_background_active
            [Background.Cycle; Background.Cleanup; Background.Cycle; Background.Cycle]
            {| Background.layers := [{| Background.active := true;
                                        Background.outgoing := false |};
                                     {| Background.active := false;
                                        Background.outgoing := false |}];
               Background.currentIndex := 0; Background.cleanups := [] |}
            _ _))).
  - simpl. lia.
  - intros [|[|i]] l; simpl; intros [= <-]; reflexivity.
Defined.

(** ** What the countdowns display *)

Section Display.

Lemma ceil_seconds_spec (r : Z) :
  0 <= r ->
  1000 * (ceil_seconds r - 1) < r <= 1000 * ceil_seconds r.
Proof.
  intros Hr. unfold ceil_seconds.
  pose proof (Z.div_mod (r + 999) 1000 ltac:(lia)).
  pose proof (Z.mod_pos_bound (r + 999) 1000 ltac:(lia)). lia.
Qed.

Lemma ceil_seconds_mono (r r' : Z) : r' <= r -> ceil_seconds r' <= ceil_seconds r.
Proof. intros H. unfold ceil_seconds. apply Z.div_le_mono; lia. Qed.

Lemma submitTyping_display (f : bool) (now : Z) (w : World) :
  timerDisplay (page (submitTyping f now w)) = timerDisplay (page w).
Proof. frame. Qed.

Lemma stopTimer_display (w : World) :
  timerDisplay (page (stopTimer w)) = timerDisplay (page w).
Proof. frame. Qed.

Lemma challengeTick_display (endTime now : Z) (w : World) :
  timerDisplay (page (challengeTick endTime now w))
  = Some {| next_turn := false;
            seconds := ceil_seconds (Z.max 0 (endTime - now));
            warning := ceil_seconds (Z.max 0 (endTime - now)) <=? 5 |}.
Proof.
  unfold challengeTick. cbv zeta.
  destruct (Z.max 0 (endTime - now) <=? 0); [|reflexivity].
  destruct (negb _); rewrite ?submitTyping_display, stopTimer_display; reflexivity.
Qed.

Lemma resolutionTick_display (startTime r now : Z) (w : World) :
  timerDisplay (page (resolutionTick startTime r now w))
  = Some {| next_turn := true;
            seconds := ceil_seconds (Z.max 0 (r - (now - startTime)));
            warning := false |}.
Proof.
  unfold resolutionTick. cbv zeta.
  destruct (_ <=? 0); rewrite ?stopTimer_display; reflexivity.
Qed.

End Display.

(** A tick of the challenge countdown shows the remaining time
    rounded up to whole seconds: 0 exactly from the end time on, with
    the warning exactly when at most 5000 ms remain; and a later tick
    never shows more seconds than an earlier one. *)
Theorem challenge_countdown_display (h : positive) (endTime now now' : Z)
    (w : World) :
  intervals (page w) !! h = Some (ChallengeTimer endTime) ->
  now <= now' ->
  exists d d',
    timerDisplay (page (intervalFires h now w)) = Some d
    /\ timerDisplay (page (intervalFires h now' w)) = Some d'
    /\ next_turn d = false
    /\ 1000 * (seconds d - 1) < Z.max 0 (endTime - now) <= 1000 * seconds d
    /\ (seconds d = 0 <-> endTime <= now)
    /\ (warning d = true <-> endTime - now <= 5000)
    /\ 0 <= seconds d' <= seconds d.
Proof.
  intros Hh Hle. unfold intervalFires. rewrite Hh, !challengeTick_display.
  eexists. eexists. split; [reflexivity|]. split; [reflexivity|]. simpl.
  pose proof (ceil_seconds_spec (Z.max 0 (endTime - now)) ltac:(lia)) as Hs.
  pose proof (ceil_seconds_spec (Z.max 0 (endTime - now')) ltac:(lia)) as Hs'.
  pose proof (ceil_seconds_mono (Z.max 0 (endTime - now))
                (Z.max 0 (endTime - now')) ltac:(lia)) as Hm.
  split; [reflexivity|]. split; [exact Hs|].
  split; [split; lia|]. split; [rewrite Z.leb_le; split; lia|]. lia.
Qed.

Lemma challenge_countdown_display_witness :
  timerDisplay (page (intervalFires 1%positive 1500
                        (run Sample.typing_started initial)))
  = Some {| next_turn := false; seconds := 5; warning := true |}
  /\ exists d, timerDisplay (page (intervalFires 1%positive 1500
                                     (run Sample.typing_started initial))) = Some d
               /\ (warning d = true <-> 6000 - 1500 <= 5000).
Proof.
  split; [reflexivity|].
  destruct (challenge_countdown_display 1%positive 6000 1500 1600
              (run Sample.typing_started initial) eq_refl ltac:(lia))
    as (d & d' & H1 & _ & _ & _ & _ & H6 & _).
  exists d. now split.
Defined.

(** A tick of the resolution countdown shows the server's remaining
    time less the time elapsed since it was started, rounded up to
    whole seconds and never with the warning: the seconds never
    increase from one tick to a later one and are 0 exactly once the
    remaining time has elapsed.  The tick sends nothing and leaves the
    typing guard alone, and in a reachable world a tick that shows 0
    leaves no interval running. *)
Theorem resolution_countdown_display (h : positive) (startTime r now now' : Z)
    (w : World) :
  intervals (page w) !! h = Some (ResolutionTimer startTime r) ->
  now <= now' ->
  exists d d',
    timerDisplay (page (intervalFires h now w)) = Some d
    /\ timerDisplay (page (intervalFires h now' w)) = Some d'
    /\ next_turn d = true /\ warning d = false
    /\ 1000 * (seconds d - 1) < Z.max 0 (r - (now - startTime)) <= 1000 * seconds d
    /\ (seconds d = 0 <-> r <= now - startTime)
    /\ 0 <= seconds d' <= seconds d
    /\ sent (page (intervalFires h now w)) = sent (page w)
    /\ typingSubmitted (st (intervalFires h now w)) = typingSubmitted (st w)
    /\ (reachable w -> seconds d = 0 ->
        timerInterval (st (intervalFires h now w)) = None
        /\ intervals (page (intervalFires h now w)) = ∅).
Proof.
  intros Hh Hle. unfold intervalFires. rewrite Hh, !resolutionTick_display.
  eexists. eexists. split; [reflexivity|]. split; [reflexivity|]. simpl.
  pose proof (ceil_seconds_spec (Z.max 0 (r - (now - startTime))) ltac:(lia)) as Hs.
  pose proof (ceil_seconds_spec (Z.max 0 (r - (now' - startTime))) ltac:(lia))
    as Hs'.
  pose proof (ceil_seconds_mono (Z.max 0 (r - (now - startTime)))
                (Z.max 0 (r - (now' - startTime))) ltac:(lia)) as Hm.
  split; [reflexivity|]. split; [reflexivity|]. split; [exact Hs|].
  split; [split; lia|]. split; [lia|].
  unfold resolutionTick. cbv zeta. set (w1 := on_page _ w).
  destruct (stopTimer_frame w1) as (F1 & _ & F3 & _).
  split; [destruct (_ <=? 0); [exact F3 | reflexivity]|].
  split; [destruct (_ <=? 0); [exact F1 | reflexivity]|].
  intros Hr Hz.
  assert ((Z.max 0 (r - (now - startTime)) <=? 0) = true) as ->
      by (apply Z.leb_le; lia).
  split; [apply stopTimer_stops|].
  assert (timer_inv (stopTimer w1)) as Hinv.
  { apply timer_inv_stopTimer. apply (timer_inv_frame w); try reflexivity.
    now apply timer_inv_reachable. }
  unfold timer_inv in Hinv. now rewrite stopTimer_stops in Hinv.
Qed.

Lemma resolution_countdown_display_witness :
  timerDisplay
    (page (intervalFires 1%positive 4000
             (run (Sample.joined
                   ++ [(1000, Receive (game_update
                                         (Sample.game "resolution" (Some 9500))))])
                initial)))
  = Some {| next_turn := true; seconds := 7; warning := false |}
  /\ exists d,
      timerDisplay
        (page (intervalFires 1%positive 4000
                 (run (Sample.joined
                       ++ [(1000, Receive (game_update
                                             (Sample.game "resolution" (Some 9500))))])
                    initial))) = Some d
      /\ next_turn d = true.
Proof.
  split; [reflexivity|].
  destruct (resolution_countdown_display 1%positive 1000 9500 4000 5000
              (run (Sample.joined
                    ++ [(1000, Receive (game_update
                                          (Sample.game "resolution" (Some 9500))))])
                 initial) eq_refl ltac:(lia))
    as (d & d' & H1 & _ & H3 & _).
  exists d. now split.
Defined.

(** ** Rendering again *)

Section Rerender.

Lemma store_again (g : GameState) (w : World) :
  gameState (st w) = Some g -> on_st (State_set_gameState (Some g)) w = w.
Proof. destruct w as [[] pg]. simpl. now intros ->. Qed.

(** Rendering a world that was just rendered, on the game screen,
    changes nothing, whatever the clock says the second time; the
    first clock value must not be 0, which [!state.typingStartTime]
    would take for no start time. *)
Lemma renderGame_again (now now' : Z) (w : World) :
  now <> 0 ->
  renderGame now' (showScreen "game-screen" (renderGame now (showScreen "game-screen" w)))
  = renderGame now (showScreen "game-screen" w).
Proof.
  intros Hnow.
  destruct w as [s pg]. unfold renderGame, showScreen, on_page, on_st. simpl.
  destruct (gameState s) as [g|] eqn:Eg; simpl; [|now rewrite Eg].
  unfold identity_known, find_self. simpl.
  destruct (playerId s) as [i|] eqn:Ei; simpl; [|now rewrite Eg, Ei].
  destruct (JS.truthy i) eqn:Et; simpl; [|now rewrite Eg, Ei, Et].
  destruct (List.find _ (players g)) as [self|] eqn:Ef; simpl;
    [|now rewrite Eg, Ei, Et, Ef].
  destruct (is_alive self) eqn:Ea; simpl;
    [|unfold showWaiting; simpl; now rewrite Eg, Ei, Et, Ef, Ea].
  destruct (String.eqb (phase g) "spell_selection") eqn:E1.
  { unfold renderSpellSelection, showWaiting, on_page.
    destruct (has_selected_spell self) eqn:Eh; simpl;
      now rewrite Eg, Ei, Et, Ef, Ea, E1, Eh. }
  destruct (String.eqb (phase g) "target_selection") eqn:E2.
  { unfold renderTargetSelection, showWaiting, on_page.
    destruct (has_selected_target self) eqn:Eh; simpl;
      now rewrite Eg, Ei, Et, Ef, Ea, E1, E2, Eh. }
  destruct (String.eqb (phase g) "typing") eqn:E3;
    [|simpl; now rewrite Eg, Ei, Et, Ef, Ea, E1, E2, E3].
  unfold renderTypingPhase, showWaiting, on_page, on_st. simpl.
  destruct (has_finished_typing self) eqn:Eh; simpl.
  { now rewrite Eg, Ei, Et, Ef, Ea, E1, E2, E3, Eh. }
  destruct (typingSubmitted s) eqn:Es; simpl.
  { now rewrite Eg, Ei, Et, Ef, Ea, E1, E2, E3, Eh, Es. }
  destruct (typing_phase g) as [typing|] eqn:Ep; simpl;
    [|now rewrite Eg, Ei, Et, Ef, Ea, E1, E2, E3, Eh, Es, Ep].
  unfold isFirstRender, startTimer, setInterval, on_page, on_st. simpl.
  destruct (typingStartTime s) as [t0|] eqn:E0; simpl.
  - destruct (Z.eqb_spec t0 0) as [->|Hz]; simpl.
    + destruct (timerInterval s) eqn:Ei'; simpl;
        rewrite Eg, Ei, Et, Ef, Ea, E1, E2, E3, Eh, Es, Ep; simpl;
        destruct (Z.eqb_spec now 0); try contradiction; reflexivity.
    + rewrite Eg, Ei, Et, Ef, Ea, E1, E2, E3, Eh, Es, Ep, E0. simpl.
      destruct (Z.eqb_spec t0 0); try contradiction; reflexivity.
  - destruct (timerInterval s) eqn:Ei'; simpl;
      rewrite Eg, Ei, Et, Ef, Ea, E1, E2, E3, Eh, Es, Ep; simpl;
      destruct (Z.eqb_spec now 0); try contradiction; reflexivity.
Qed.

End Rerender.

(** A snapshot handled a second time, right after the first, changes
    nothing: the edge actions, the countdown started, the input
    emptied and the start time taken by the first handling all stay.
    (The first clock value must not be 0.) *)
Theorem repeated_snapshot_idempotent (now now' : Z) (g : GameState) (w : World) :
  now <> 0 ->
  handleGameUpdate now' g (handleGameUpdate now g w) = handleGameUpdate now g w.
Proof.
  intros Hnow.
  destruct (handleGameUpdate_session now g w) as (Hp & Hg & _).
  rewrite (handleGameUpdate_edges now' g (handleGameUpdate now g w)). cbv zeta.
  rewrite Hg. simpl fmap. rewrite edges_same_phase. simpl foldl.
  rewrite (store_again g _ Hg).
  assert (identity_known (handleGameUpdate now g w) = identity_known w) as ->
      by (unfold identity_known; now rewrite Hp).
  destruct (identity_known w) eqn:Hid; [|reflexivity].
  rewrite handleGameUpdate_edges. cbv zeta. rewrite Hid.
  unfold present. destruct (String.eqb (phase g) "game_over"); [reflexivity|].
  now apply renderGame_again.
Qed.

Lemma repeated_snapshot_idempotent_witness :
  handleGameUpdate 1200 Sample.typing_game (run Sample.typing_started initial)
  = run Sample.typing_started initial.
Proof.
  exact (repeated_snapshot_idempotent 1000 1200 Sample.typing_game
           (run Sample.joined initial) ltac:(discriminate)).
Defined.

Lemma renderGame_keeps_progress (now t0 : Z) (w : World) :
  typingStartTime (st w) = Some t0 -> t0 <> 0 ->
  typingInput (page (renderGame now w)) = typingInput (page w)
  /\ typingStartTime (st (renderGame now w)) = Some t0
  /\ timerInterval (st (renderGame now w)) = timerInterval (st w)
  /\ intervals (page (renderGame now w)) = intervals (page w)
  /\ typingSubmitted (st (renderGame now w)) = typingSubmitted (st w).
Proof.
  intros H0 Hz.
  assert (forall w', typingStartTime (st w') = Some t0 -> isFirstRender w' = false)
    as Hf.
  { intros w' Hw'. unfold isFirstRender. rewrite Hw'.
    now destruct (Z.eqb_spec t0 0). }
  unfold renderGame. destruct (gameState (st w)) as [g|]; [|now repeat split].
  destruct (negb (identity_known w)); [now repeat split|].
  set (w1 := on_page _ w).
  destruct (find_self g w1) as [self|]; [|now repeat split].
  destruct (negb (is_alive self)); [now repeat split|].
  destruct (String.eqb (phase g) "spell_selection").
  { unfold renderSpellSelection. now destruct (has_selected_spell self). }
  destruct (String.eqb (phase g) "target_selection").
  { unfold renderTargetSelection. now destruct (has_selected_target self). }
  destruct (String.eqb (phase g) "typing"); [|now repeat split].
  unfold renderTypingPhase.
  destruct (has_finished_typing self || typingSubmitted (st w1));
    [now repeat split|].
  destruct (typing_phase g) as [typing|]; [|now repeat split].
  rewrite (Hf w1 H0). now repeat split.
Qed.

(** An update that stays in the typing phase keeps the player's
    progress: the text typed so far, the start time, the countdown
    that is running and the guard are what they were.  (The start time
    held must not be 0.) *)
Theorem typing_progress_kept (now t0 : Z) (g0 g : GameState) (w : World) :
  identity_known w = true ->
  gameState (st w) = Some g0 ->
  phase g0 = "typing" -> phase g = "typing" ->
  typingStartTime (st w) = Some t0 -> t0 <> 0 ->
  typingInput (page (handleGameUpdate now g w)) = typingInput (page w)
  /\ typingStartTime (st (handleGameUpdate now g w)) = Some t0
  /\ timerInterval (st (handleGameUpdate now g w)) = timerInterval (st w)
  /\ intervals (page (handleGameUpdate now g w)) = intervals (page w)
  /\ typingSubmitted (st (handleGameUpdate now g w)) = typingSubmitted (st w).
Proof.
  intros Hid Hg0 Hp0 Hp H0 Hz.
  rewrite handleGameUpdate_edges. cbv zeta. rewrite Hid, Hg0. simpl fmap.
  rewrite Hp0, Hp, edges_same_phase. simpl foldl.
  unfold present. rewrite Hp.
  change (String.eqb "typing" "game_over") with false. cbv iota.
  apply (renderGame_keeps_progress now t0
           (showScreen "game-screen" (on_st (State_set_gameState (Some g)) w)));
    [exact H0 | exact Hz].
Qed.

Lemma typing_progress_kept_witness :
  typingInput
    (page (handleGameUpdate 4000 Sample.typing_game
             (run (Sample.typing_started ++ [(3000, TypingInput "abra")]) initial)))
  = "abra"
  /\ intervals
       (page (handleGameUpdate 4000 Sample.typing_game
                (run (Sample.typing_started ++ [(3000, TypingInput "abra")])
                   initial)))
     = intervals (page (run (Sample.typing_started ++ [(3000, TypingInput "abra")])
                          initial)).
Proof.
  destruct (typing_progress_kept 4000 1000 Sample.typing_game Sample.typing_game
              (run (Sample.typing_started ++ [(3000, TypingInput "abra")]) initial)
              eq_refl eq_refl eq_refl eq_refl eq_refl ltac:(discriminate))
    as (H1 & _ & _ & H4 & _).
  split; [exact H1 | exact H4].
Defined.

(** ** A defeated player *)

Lemma edgeAction_no_new_challenge (now : Z) (w : World) (e : Edge)
    (h : positive) (endTime : Z) :
  intervals (page (edgeAction now w e)) !! h = Some (ChallengeTimer endTime) ->
  intervals (page w) !! h = Some (ChallengeTimer endTime).
Proof.
  assert (forall w0, intervals (page (stopTimer w0)) !! h
                     = Some (ChallengeTimer endTime) ->
                     intervals (page w0) !! h = Some (ChallengeTimer endTime))
    as Hstop.
  { intros w0. unfold stopTimer. destruct (timerInterval (st w0)); [|trivial].
    simpl. intros H. apply lookup_delete_Some in H. now destruct H. }
  destruct e; unfold edgeAction; try (intros H; apply Hstop in H; exact H).
  unfold startResolutionTimer. destruct (timerInterval (st w)); [trivial|].
  destruct (gameState (st w)) as [g|]; [|trivial].
  destruct (phase_time_remaining_ms g); [|trivial].
  simpl. intros H. apply lookup_insert_Some in H.
  destruct H as [[_ H] | [_ H]]; [discriminate | exact H].
Qed.

(** A player whose own entry in the snapshot is not alive is shown
    the spectating message in every phase but game_over, after the
    edge actions of the update have run: no typing challenge is set up
    for it (the input, its handlers and the typing guard are left
    alone) and no challenge countdown is started. *)
Theorem defeated_player_spectates (now : Z) (g : GameState) (self : Player)
    (w : World) :
  identity_known w = true ->
  find_self g w = Some self ->
  is_alive self = false ->
  phase g <> "game_over" ->
  handleGameUpdate now g w
  = showWaiting "You have been defeated. Spectating..."
      (on_page (Page_set_waitingOverlay None)
         (showScreen "game-screen"
            (foldl (edgeAction now) (on_st (State_set_gameState (Some g)) w)
               (edges (phase <$> gameState (st w)) (phase g)))))
  /\ waitingOverlay (page (handleGameUpdate now g w))
     = Some "You have been defeated. Spectating..."
  /\ typingInput (page (handleGameUpdate now g w)) = typingInput (page w)
  /\ typingHandlers (page (handleGameUpdate now g w)) = typingHandlers (page w)
  /\ (forall h endTime,
         intervals (page (handleGameUpdate now g w)) !! h
         = Some (ChallengeTimer endTime) ->
         intervals (page w) !! h = Some (ChallengeTimer endTime)).
Proof.
  intros Hid Hself Hdead Hp.
  assert (handleGameUpdate now g w
          = showWaiting "You have been defeated. Spectating..."
              (on_page (Page_set_waitingOverlay None)
                 (showScreen "game-screen"
                    (foldl (edgeAction now) (on_st (State_set_gameState (Some g)) w)
                       (edges (phase <$> gameState (st w)) (phase g)))))) as Heq.
  { rewrite handleGameUpdate_edges. cbv zeta. rewrite Hid.
    set (w2 := foldl _ _ _).
    destruct (edgeActions_session now
                (edges (phase <$> gameState (st w)) (phase g))
                (on_st (State_set_gameState (Some g)) w)) as (Ep & Eg & _).
    fold w2 in Ep, Eg. simpl in Ep, Eg.
    unfold present. destruct (String.eqb_spec (phase g) "game_over");
      [contradiction|].
    unfold renderGame.
    change (gameState (st (showScreen "game-screen" w2))) with (gameState (st w2)).
    rewrite Eg.
    assert (identity_known (showScreen "game-screen" w2) = true) as ->.
    { unfold identity_known in *. simpl. now rewrite Ep. }
    simpl negb. cbv iota.
    assert (find_self g (on_page (Page_set_waitingOverlay None)
                           (showScreen "game-screen" w2)) = Some self) as ->.
    { unfold find_self in *. simpl. now rewrite Ep. }
    now rewrite Hdead. }
  split; [exact Heq|]. rewrite Heq. split; [reflexivity|].
  assert (forall es w0,
             typingInput (page (foldl (edgeAction now) w0 es)) = typingInput (page w0)
             /\ typingHandlers (page (foldl (edgeAction now) w0 es))
                = typingHandlers (page w0)
             /\ forall h endTime,
                 intervals (page (foldl (edgeAction now) w0 es)) !! h
                 = Some (ChallengeTimer endTime) ->
                 intervals (page w0) !! h = Some (ChallengeTimer endTime)) as Hes.
  { induction es as [|e es IH]; intros w0; simpl; [now repeat split|].
    destruct (IH (edgeAction now w0 e)) as (I1 & I2 & I3).
    rewrite I1, I2. split; [destruct e; unfold edgeAction; frame|].
    split; [destruct e; unfold edgeAction; frame|].
    intros h endTime H. apply I3 in H.
    now apply edgeAction_no_new_challenge in H. }
  destruct (Hes (edges (phase <$> gameState (st w)) (phase g))
              (on_st (State_set_gameState (Some g)) w)) as (H1 & H2 & H3).
  split; [exact H1|]. split; [exact H2 | exact H3].
Qed.

Lemma defeated_player_spectates_witness :
  waitingOverlay
    (page (handleGameUpdate 1000 Sample.fallen_game (run Sample.joined initial)))
  = Some "You have been defeated. Spectating..."
  /\ intervals
       (page (handleGameUpdate 1000 Sample.fallen_game
                (run Sample.joined initial))) = ∅.
Proof.
  split; [|reflexivity].
  refine (proj1 (proj2 (defeated_player_spectates 1000 Sample.fallen_game
                          Sample.fallen (run Sample.joined initial)
                          eq_refl eq_refl eq_refl _))).
  discriminate.
Defined.

(** ** The queued auto-submit *)

(** Typing at least as many characters as the incantation has queues
    an auto-submit.  When it fires with the guard unset and the socket
    open, it submits the text that is in the input at that moment,
    even if that text has since been edited or shortened, as finished,
    with the time since the start of the phase. *)
Theorem auto_submit_sends_current_text (text text' : string) (now : Z)
    (typing : TypingChallenge) (w : World) :
  typingHandlers (page w) = Some typing ->
  typingSubmitted (st w) = false ->
  ws_open w = true ->
  (String.length (incantation typing) <= String.length text)%nat ->
  sent (page (autoSubmit_timeout now
                (typingInput_oninput text' (typingInput_oninput text w))))
  = sent (page w)
    ++ [submit_typing text' (Some (now - default 0 (typingStartTime (st w))))].
Proof.
  intros Hh Hg Ho Hlen.
  unfold typingInput_oninput at 2. cbv zeta.
  change (typingHandlers (page (on_page (Page_set_typingInput text) w)))
    with (typingHandlers (page w)).
  rewrite Hh. rewrite (proj2 (Nat.leb_le _ _) Hlen).
  set (w1 := on_page (fun p => Page_set_pendingAutoSubmit _ p) _).
  assert (exists n, pendingAutoSubmit
                      (page (typingInput_oninput text' w1)) = S n
                    /\ typingSubmitted (st (typingInput_oninput text' w1)) = false
                    /\ ws_open (typingInput_oninput text' w1) = true
                    /\ typingInput (page (typingInput_oninput text' w1)) = text'
                    /\ sent (page (typingInput_oninput text' w1)) = sent (page w)
                    /\ typingStartTime (st (typingInput_oninput text' w1))
                       = typingStartTime (st w)) as (n & Hn & Hg2 & Ho2 & Hi & Hs & Ht).
  { unfold typingInput_oninput. cbv zeta.
    change (typingHandlers (page (on_page (Page_set_typingInput text') w1)))
      with (typingHandlers (page w)).
    rewrite Hh. destruct (_ <=? _)%nat; eexists; repeat split;
      try exact Hg; try exact Ho; reflexivity. }
  unfold autoSubmit_timeout. rewrite Hn. cbv zeta.
  set (w3 := on_page (Page_set_pendingAutoSubmit n) _).
  change (typingSubmitted (st w3))
    with (typingSubmitted (st (typingInput_oninput text' w1))).
  rewrite Hg2. simpl negb. cbv iota.
  destruct (submitTyping_first true now w3) as (_ & _ & _ & ->); [exact Hg2|].
  change (ws_open w3) with (ws_open (typingInput_oninput text' w1)).
  rewrite Ho2.
  change (sent (page w3)) with (sent (page (typingInput_oninput text' w1))).
  change (typingInput (page w3))
    with (typingInput (page (typingInput_oninput text' w1))).
  change (typingStartTime (st w3))
    with (typingStartTime (st (typingInput_oninput text' w1))).
  now rewrite Hs, Hi, Ht.
Qed.

Lemma auto_submit_sends_current_text_witness :
  sent (page (autoSubmit_timeout 3100
                (typingInput_oninput "abra cadabr"
                   (typingInput_oninput "abra cadabra"
                      (run Sample.typing_started initial)))))
  = [join_room "r1" "Ann" (JS.Int 45); submit_typing "abra cadabr" (Some 2100)].
Proof.
  exact (auto_submit_sends_current_text "abra cadabra" "abra cadabr" 3100
           {| incantation := "abra cadabra"; duration_ms := 5000 |}
           (run Sample.typing_started initial)
           eq_refl eq_refl eq_refl ltac:(simpl; lia)).
Defined.

(** ** The two revisions of the typing feedback *)

Lemma capture_go_no_space (s w : list ascii) :
  no_space s = true -> Split.capture_go s (Split.InWord w) = [w ++ s].
Proof.
  revert w. induction s as [|c s IH]; intros w H; simpl.
  - now rewrite app_nil_r.
  - simpl in H. apply andb_true_iff in H as [Hc Hs].
    destruct (JS.is_space c); [discriminate|].
    rewrite IH by exact Hs. now rewrite <- app_assoc.
Qed.

Lemma plain_go_no_space (s w : list ascii) :
  no_space s = true -> Split.plain_go s (Split.InWord w) = [w ++ s].
Proof.
  revert w. induction s as [|c s IH]; intros w H; simpl.
  - now rewrite app_nil_r.
  - simpl in H. apply andb_true_iff in H as [Hc Hs].
    destruct (JS.is_space c); [discriminate|].
    rewrite IH by exact Hs. now rewrite <- app_assoc.
Qed.

(** On an incantation of one word, with one word (or nothing) typed,
    the word-by-word feedback is the position-by-position feedback of
    the earlier revision of the file. *)
Theorem revisions_agree_on_one_word (expected typed : string) :
  no_space (list_ascii_of_string expected) = true ->
  no_space (list_ascii_of_string typed) = true ->
  updateTypingFeedback expected typed
  = Earlier.updateTypingFeedback expected typed.
Proof.
  intros He Ht. unfold updateTypingFeedback, Earlier.updateTypingFeedback.
  unfold Split.capture. rewrite capture_go_no_space by exact He.
  cbn [app feedbackLoop]. rewrite no_space_not_run by exact He.
  assert (typedNonSpaceWords (list_ascii_of_string typed)
          = match list_ascii_of_string typed with
            | [] => []
            | _ => [list_ascii_of_string typed]
            end) as Hw.
  { unfold typedNonSpaceWords, Split.plain.
    rewrite plain_go_no_space by exact Ht. cbn [app].
    destruct (list_ascii_of_string typed); [reflexivity|].
    rewrite filter_cons_True by (simpl; lia). reflexivity. }
  unfold currentWordIndex. rewrite Hw.
  destruct (list_ascii_of_string typed) as [|c l]; simpl;
    now rewrite app_nil_r.
Qed.

Lemma revisions_agree_on_one_word_witness :
  updateTypingFeedback "abra" "abx" = Earlier.updateTypingFeedback "abra" "abx"
  /\ updateTypingFeedback "abra" "abx"
     = [Span correct "a"; Span correct "b"; Span incorrect "r"; Span pending "a"].
Proof.
  split; [|reflexivity].
  exact (revisions_agree_on_one_word "abra" "abx" eq_refl eq_refl).
Defined.

(** ** The typing guard *)

Lemma present_guard (now : Z) (g : GameState) (w : World) :
  typingSubmitted (st (present now g w)) = typingSubmitted (st w).
Proof. frame. Qed.

Lemma edgeActions_guard (now : Z) (es : list Edge) (w : World) :
  EnterSelection ∉ es ->
  typingSubmitted (st (foldl (edgeAction now) w es)) = typingSubmitted (st w).
Proof.
  revert w. induction es as [|e es IH]; intros w Hn; simpl; [reflexivity|].
  rewrite IH by (intros H; apply Hn; now right).
  destruct e; unfold edgeAction; try frame.
  exfalso. apply Hn. now left.
Qed.

(** Once set, the typing guard is cleared by one thing only: a
    snapshot in phase spell_selection that arrives, with the identity
    known, after a snapshot of another phase (or after none).  No
    other message, click, key, timer or socket event clears it, and
    neither does a new typing phase that is not preceded by a spell
    selection. *)
Theorem guard_cleared_only_by_new_turn (now : Z) (e : Event) (w : World) :
  typingSubmitted (st w) = true ->
  typingSubmitted (st (step w (now, e))) = false ->
  exists g, e = Receive (game_update g)
            /\ phase g = "spell_selection"
            /\ phase <$> gameState (st w) <> Some "spell_selection"
            /\ identity_known w = true.
Proof.
  intros Hs Hc.
  destruct e as [msg|h| |text| |key|sp|tg| |a b c d| | | |]; simpl in Hc.
  - destruct msg as [i r rs|m|rs|g| |tag]; simpl in Hc.
    + exfalso. revert Hc. unfold handleJoinedRoom. frame.
    + exfalso. revert Hc. unfold handleError. frame.
    + exfalso. revert Hc. unfold handleRoomUpdate. frame.
    + exists g. split; [reflexivity|].
      rewrite handleGameUpdate_edges in Hc. cbv zeta in Hc.
      destruct (identity_known w); [|simpl in Hc; congruence].
      rewrite present_guard in Hc.
      destruct (decide (EnterSelection
                          ∈ edges (phase <$> gameState (st w)) (phase g)))
        as [Hin|Hn].
      * apply edges_spec in Hin. destruct Hin as [H1 H2]. now repeat split.
      * rewrite edgeActions_guard in Hc by exact Hn. simpl in Hc. congruence.
    + congruence.
    + congruence.
  - exfalso. revert Hc. unfold intervalFires, challengeTick, resolutionTick. frame.
  - exfalso. revert Hc. unfold autoSubmit_timeout. frame.
  - exfalso. revert Hc. unfold typingInput_oninput. frame.
  - exfalso. revert Hc. unfold submitTypingBtn_onclick. frame.
  - exfalso. revert Hc. unfold typingInput_onkeydown. frame.
  - exfalso. revert Hc. unfold spellBtn_onclick. frame.
  - exfalso. revert Hc. unfold targetBtn_onclick. frame.
  - exfalso. revert Hc. unfold playAgainBtn_onclick. frame.
  - exfalso. revert Hc. unfold joinForm_submit. frame.
  - exfalso. revert Hc. unfold ws_onopen, set_readyState. frame.
  - exfalso. revert Hc. unfold ws_onerror. frame.
  - exfalso. revert Hc. unfold ws_onclose, set_readyState. frame.
  - exfalso. revert Hc. unfold keepAlive. frame.
Qed.

Lemma guard_cleared_only_by_new_turn_witness :
  typingSubmitted
    (st (run (Sample.typing_started ++ [(3200, SubmitClick)]) initial)) = true
  /\ typingSubmitted
       (st (step (run (Sample.typing_started ++ [(3200, SubmitClick)]) initial)
              (9000, Receive (game_update (Sample.game "spell_selection" None)))))
     = false
  /\ exists g,
      Receive (game_update (Sample.game "spell_selection" None))
      = Receive (game_update g)
      /\ phase g = "spell_selection"
      /\ phase <$> gameState
                     (st (run (Sample.typing_started ++ [(3200, SubmitClick)])
                            initial))
         <> Some "spell_selection"
      /\ identity_known
           (run (Sample.typing_started ++ [(3200, SubmitClick)]) initial) = true.
Proof.
  split; [reflexivity|]. split; [reflexivity|].
  exact (guard_cleared_only_by_new_turn 9000
           (Receive (game_update (Sample.game "spell_selection" None)))
           (run (Sample.typing_started ++ [(3200, SubmitClick)]) initial)
           eq_refl eq_refl).
Defined.

(** ** Joining *)

Lemma ws_onopen_pending (c : nat) (m : ClientMessage) (w : World) :
  pendingJoins (page w) !! c = Some (Some m) ->
  sent (page (ws_onopen c w))
  = sent (page w) ++ (if ws_open (set_readyState c OPEN w) then [m] else [])
  /\ pendingJoins (page (ws_onopen c w)) = <[c := None]> (pendingJoins (page w))
  /\ st (ws_onopen c w) = st (set_readyState c OPEN w)
  /\ connectionError (page (ws_onopen c w)) = connectionError (page w).
Proof.
  intros H. unfold ws_onopen. cbv zeta. rewrite set_readyState_frame, H.
  unfold send.
  change (ws_open (settle c (set_readyState c OPEN w)))
    with (ws_open (set_readyState c OPEN w)).
  destruct (ws_open (set_readyState c OPEN w)); simpl;
    rewrite set_readyState_frame, ?app_nil_r; now repeat split.
Qed.

Lemma ws_onopen_settled (c : nat) (w : World) :
  pendingJoins (page w) !! c = Some None ->
  ws_onopen c w = set_readyState c OPEN w.
Proof.
  intros H. unfold ws_onopen. cbv zeta. now rewrite set_readyState_frame, H.
Qed.

Lemma joinForm_submit_created (a b c d : string) (w : World) :
  JS.truthy (JS.trim a) = true ->
  JS.truthy (JS.trim b) = true ->
  JS.truthy (JS.trim c) = true ->
  joinForm_submit a b c d Created w
  = on_page (fun p => Page_set_pendingJoins
               (pendingJoins p
                ++ [Some (join_room (JS.trim c) (JS.trim a) (timerSeconds d))]) p)
      (on_st (State_set_ws
                (Some {| conn := length (pendingJoins (page w));
                         url := connect_wsUrl (JS.trim b);
                         readyState := CONNECTING |}))
         (hideError (on_st (State_set_playerName (Some (JS.trim a))) w))).
Proof.
  intros Ha Hb Hc. unfold joinForm_submit. cbv zeta. now rewrite Ha, Hb, Hc.
Qed.

(** The join form, with no field blank after trimming.  If the
    socket is created, nothing is sent until it opens; when it opens,
    exactly one frame goes out, the join request with the trimmed room
    and name and the timer, and a second opening sends nothing more;
    if the connection fails instead, nothing is sent, then or at a
    later opening, and the failure is shown.  If [new WebSocket]
    throws, [state.ws] keeps what it held, nothing waits or is sent
    and the message of the exception is shown.  If the form is
    submitted a second time before the first socket has opened, the
    opening of the first socket sends nothing, [state.ws] being the
    second one by then; opened after the second, it sends its request
    through the second. *)
Theorem join_handshake (playerNameInput serverUrlInput roomIdInput
    timerSecondsInput : string) (w : World) :
  JS.truthy (JS.trim playerNameInput) = true ->
  JS.truthy (JS.trim serverUrlInput) = true ->
  JS.truthy (JS.trim roomIdInput) = true ->
  let c := length (pendingJoins (page w)) in
  let m := join_room (JS.trim roomIdInput) (JS.trim playerNameInput)
             (timerSeconds timerSecondsInput) in
  let submit := joinForm_submit playerNameInput serverUrlInput roomIdInput
                  timerSecondsInput in
  let w1 := submit Created w in
  (sent (page w1) = sent (page w)
   /\ ws (st w1) = Some {| conn := c; url := connect_wsUrl (JS.trim serverUrlInput);
                           readyState := CONNECTING |}
   /\ sent (page (ws_onopen c w1)) = sent (page w) ++ [m]
   /\ sent (page (ws_onopen c (ws_onopen c w1))) = sent (page w) ++ [m]
   /\ sent (page (ws_onerror c w1)) = sent (page w)
   /\ connectionError (page (ws_onerror c w1))
      = Some "Failed to connect to server. Check the server URL and ensure the server is running."
   /\ sent (page (ws_onopen c (ws_onerror c w1))) = sent (page w))
  /\ (forall message,
         ws (st (submit (Threw message) w)) = ws (st w)
         /\ pendingJoins (page (submit (Threw message) w)) = pendingJoins (page w)
         /\ sent (page (submit (Threw message) w)) = sent (page w)
         /\ connectionError (page (submit (Threw message) w)) = Some message
         /\ forall c', sent (page (ws_onopen c' (submit (Threw message) w)))
                       = sent (page (ws_onopen c' w)))
  /\ (sent (page (ws_onopen c (submit Created w1))) = sent (page w)
      /\ sent (page (ws_onopen (S c) (ws_onopen c (submit Created w1))))
         = sent (page w) ++ [m]
      /\ sent (page (ws_onopen c (ws_onopen (S c) (submit Created w1))))
         = sent (page w) ++ [m; m]).
Proof.
  intros Hn Hu Hr c m submit w1.
  assert (forall w0, submit Created w0
            = on_page (fun p => Page_set_pendingJoins (pendingJoins p ++ [Some m]) p)
                (on_st (State_set_ws
                          (Some {| conn := length (pendingJoins (page w0));
                                   url := connect_wsUrl (JS.trim serverUrlInput);
                                   readyState := CONNECTING |}))
                   (hideError (on_st (State_set_playerName
                                        (Some (JS.trim playerNameInput))) w0))))
    as Hsub.
  { intros w0. now apply joinForm_submit_created. }
  assert (pendingJoins (page w1) = pendingJoins (page w) ++ [Some m]) as Hp1.
  { subst w1. now rewrite Hsub. }
  assert (pendingJoins (page w1) !! c = Some (Some m)) as Hc.
  { rewrite Hp1. subst c. rewrite lookup_app_r by lia. now rewrite Nat.sub_diag. }
  assert (ws_open (set_readyState c OPEN w1) = true) as Ho.
  { subst w1. rewrite Hsub. unfold set_readyState, ws_open. simpl.
    fold c. now rewrite Nat.eqb_refl. }
  assert (sent (page w1) = sent (page w)) as Hs1.
  { subst w1. now rewrite Hsub. }
  split; [|split].
  - split; [exact Hs1|]. split; [subst w1; now rewrite Hsub|].
    destruct (ws_onopen_pending c m w1 Hc) as (E1 & E2 & E3 & E4).
    rewrite Ho, Hs1 in E1.
    split; [exact E1|]. split.
    { rewrite ws_onopen_settled.
      - now rewrite set_readyState_frame.
      - rewrite E2. apply list_lookup_insert_eq. rewrite Hp1, length_app. simpl. lia. }
    assert (ws_onerror c w1
            = showError "Failed to connect to server. Check the server URL and ensure the server is running."
                (settle c w1)) as He.
    { unfold ws_onerror. now rewrite Hc. }
    split; [rewrite He; exact Hs1|]. split; [now rewrite He|].
    rewrite ws_onopen_settled.
    + rewrite set_readyState_frame, He. exact Hs1.
    + rewrite He. simpl. apply list_lookup_insert_eq.
      rewrite Hp1, length_app. simpl. lia.
  - intros message.
    assert (submit (Threw message) w
            = showError message
                (hideError (on_st (State_set_playerName
                                     (Some (JS.trim playerNameInput))) w))) as Ht.
    { subst submit. unfold joinForm_submit. cbv zeta. now rewrite Hn, Hu, Hr. }
    rewrite Ht. split; [reflexivity|]. split; [reflexivity|].
    split; [reflexivity|]. split; [reflexivity|].
    intros c'. unfold ws_onopen, set_readyState, settle, send, ws_open.
    simpl. repeat case_match; simpl in *; congruence.
  - set (w2 := submit Created w1).
    assert (pendingJoins (page w2) = (pendingJoins (page w) ++ [Some m]) ++ [Some m])
      as Hp2.
    { subst w2. rewrite Hsub. simpl. now rewrite Hp1. }
    assert (ws (st w2) = Some {| conn := S c; url := connect_wsUrl (JS.trim serverUrlInput);
                                 readyState := CONNECTING |}) as Hw2.
    { subst w2. rewrite Hsub. simpl. rewrite Hp1, length_app. simpl.
      subst c. do 3 f_equal. lia. }
    assert (sent (page w2) = sent (page w)) as Hs2.
    { subst w2. rewrite Hsub. exact Hs1. }
    assert (pendingJoins (page w2) !! c = Some (Some m)) as Hc2.
    { rewrite Hp2. rewrite lookup_app_l by (rewrite length_app; simpl; subst c; lia).
      subst c. rewrite lookup_app_r by lia. now rewrite Nat.sub_diag. }
    assert (pendingJoins (page w2) !! S c = Some (Some m)) as Hc2'.
    { rewrite Hp2. rewrite lookup_app_r by (rewrite length_app; simpl; subst c; lia).
      rewrite length_app. simpl. subst c.
      now replace (S (length (pendingJoins (page w)))
                   - (length (pendingJoins (page w)) + 1))%nat with 0%nat by lia. }
    assert (set_readyState c OPEN w2 = w2) as Hstale.
    { unfold set_readyState. rewrite Hw2. cbn [conn].
      destruct (Nat.eqb_spec (S c) c); [lia | reflexivity]. }
    assert (ws_open w2 = false) as Hclosed.
    { unfold ws_open. now rewrite Hw2. }
    destruct (ws_onopen_pending c m w2 Hc2) as (A1 & A2 & A3 & _).
    rewrite Hstale, Hclosed, app_nil_r, Hs2 in A1. rewrite Hstale in A3.
    split; [exact A1|].
    split.
    + destruct (ws_onopen_pending (S c) m (ws_onopen c w2)) as (B1 & _).
      { rewrite A2, list_lookup_insert_ne by lia. exact Hc2'. }
      rewrite B1, A1. f_equal.
      unfold set_readyState, ws_open. rewrite A3, Hw2. simpl.
      now rewrite Nat.eqb_refl.
    + destruct (ws_onopen_pending (S c) m w2 Hc2') as (B1 & B2 & B3 & _).
      assert (ws_open (set_readyState (S c) OPEN w2) = true) as Ho2.
      { unfold set_readyState, ws_open. rewrite Hw2. simpl. now rewrite Nat.eqb_refl. }
      rewrite Ho2, Hs2 in B1.
      destruct (ws_onopen_pending c m (ws_onopen (S c) w2)) as (C1 & _).
      { rewrite B2, list_lookup_insert_ne by lia. exact Hc2. }
      rewrite C1, B1, <- app_assoc. f_equal. simpl.
      assert (ws_open (set_readyState c OPEN (ws_onopen (S c) w2)) = true) as ->;
        [|reflexivity].
      unfold set_readyState, ws_open. rewrite B3.
      unfold set_readyState. rewrite Hw2. cbn [conn]. rewrite Nat.eqb_refl.
      cbn [st on_st ws State_set_ws conn].
      destruct (Nat.eqb_spec (S c) c); [lia|].
      rewrite B3. unfold set_readyState. rewrite Hw2. cbn [conn].
      now rewrite Nat.eqb_refl.
Qed.

Lemma join_handshake_witness :
  sent (page (ws_onopen 0
                (joinForm_submit " Ann " "https://example.com" " r1" "" Created
                   initial)))
  = [join_room "r1" "Ann" (JS.Int 30)].
Proof.
  exact (proj1 (proj2 (proj2 (proj1
           (join_handshake " Ann " "https://example.com" " r1" "" initial
              eq_refl eq_refl eq_refl))))).
Defined.
